(** * LinketConnect: profile store, lead-form keys, lead form and autosave

    A shallow embedding of the TypeScript sources

    - [profile-service.ts] (in-memory store, the branch taken when
      [SUPABASE_ENABLED] is false),
    - [LeadFormBuilder] ([normalizeKey], [ensureUniqueKeys], ...),
    - [PublicLeadForm.tsx] ([onSubmit] and its helpers),
    - [PublicProfileEditorPage.tsx] ([handleSave] and the autosave effects),

    together with the properties of the specification that concern them.

    Strings.  A JavaScript string is a sequence of UTF-16 code units.  The
    embedding uses Rocq's [string], whose characters are the code units
    0..255 (Latin-1); [trim] and [toLowerCase] below are exact on that
    range.

    Time.  [new Date().toISOString()] yields fixed-width ISO-8601 text on
    which [localeCompare] is chronological order; an instant is represented
    by its epoch milliseconds ([Timestamp]). *)

From Stdlib Require Import ZArith Lia Ascii String.
From stdpp Require Import base option list gmap sets strings pretty.

Local Open Scope string_scope.

(** ** JavaScript string primitives *)

Module Js.

(** WhiteSpace and LineTerminator code units below 256, as stripped by
  [String.prototype.trim]: TAB, LF, VT, FF, CR, SP and NBSP. *)
Definition isWhiteSpace (c : ascii) : bool :=
let n := N_of_ascii c in
((9 <=? n) && (n <=? 13) || (n =? 32) || (n =? 160))%N.

Fixpoint trimStart (s : string) : string :=
match s with
| EmptyString => EmptyString
| String c r => if isWhiteSpace c then trimStart r else s
end.

Definition trimEnd (s : string) : string :=
String.rev (trimStart (String.rev s)).

Definition trim (s : string) : string := trimEnd (trimStart s).

(** [toLowerCase] on one code unit: A-Z, and the Latin-1 capitals
  U+00C0..U+00DE except the multiplication sign U+00D7. *)
Definition toLowerChar (c : ascii) : ascii :=
let n := N_of_ascii c in
if ((65 <=? n) && (n <=? 90)
    || (192 <=? n) && (n <=? 222) && negb (n =? 215))%N
then ascii_of_N (n + 32) else c.

Fixpoint toLowerCase (s : string) : string :=
match s with
| EmptyString => EmptyString
| String c r => String (toLowerChar c) (toLowerCase r)
end.

(** [s.slice(0, n)] for a non-negative [n]. *)
Fixpoint slice0 (n : nat) (s : string) : string :=
match n, s with
| S m, String c r => String c (slice0 m r)
| _, _ => EmptyString
end.

(** Truthiness of a string, and [a || b] on strings. *)
Definition truthy (s : string) : bool := negb (String.eqb s "").

Definition orElse (a b : string) : string := if truthy a then a else b.

(** [o || b] where [o] may be [undefined] or [null]. *)
Definition optOrElse (o : option string) (b : string) : string :=
match o with Some a => orElse a b | None => b end.

(** Template-literal rendering of a non-negative integer. *)
Definition numToString (n : nat) : string := pretty n.

End Js.

(** ** The loop [while (used.has(candidate)) candidate = f(counter++)]

    Both [generateMemoryHandle] and [ensureUniqueKeys] search the first
    candidate of a sequence that is absent from a [Set<string>].
    [cand 0] is the initial candidate and [cand k] the one built from
    counter value [k].  The loop is run with explicit fuel; [None] means
    the fuel ran out. *)

Module Loop.

Fixpoint whileUsed (used : gset string) (cand : nat → string)
  (fuel k : nat) : option string :=
if decide (cand k ∈ used) then
  match fuel with
  | O => None
  | S fuel' => whileUsed used cand fuel' (S k)
  end
else Some (cand k).

(** A set of [n] strings blocks at most [n] candidates. *)
Definition firstFree (used : gset string) (cand : nat → string)
: option string :=
whileUsed used cand (size used) 0.

End Loop.

Section LoopFacts.
Import Loop.
Context (used : gset string) (cand : nat → string).
Hypothesis cand_inj : ∀ i j, cand i = cand j → i = j.

Lemma whileUsed_enough (U : gset string) :
  ∀ fuel k,
    (size U ≤ fuel)%nat →
    (∀ j, (k ≤ j)%nat → cand j ∈ used → cand j ∈ U) →
    ∃ s, whileUsed used cand fuel k = Some s.
Proof.
  intros fuel; revert U.
  induction fuel as [|fuel IH]; intros U k Hsz Hcov; simpl.
  - destruct (decide (cand k ∈ used)) as [Hin|Hout]; [|eauto].
    exfalso. assert (cand k ∈ U) as HU by (apply Hcov; [lia|done]).
    assert (size U = 0%nat) as HU0 by lia.
    apply size_empty_inv in HU0. rewrite HU0 in HU.
    by apply not_elem_of_empty in HU.
  - destruct (decide (cand k ∈ used)) as [Hin|Hout]; [|eauto].
    assert (cand k ∈ U) as HU by (apply Hcov; [lia|done]).
    apply (IH (U ∖ {[cand k]})).
    + assert (size U = size ({[cand k]} : gset string)
                       + size (U ∖ {[cand k]}))%nat as Heq.
      { rewrite <- size_union.
        - f_equal. apply set_eq. intros x.
          rewrite elem_of_union, elem_of_difference, elem_of_singleton.
          destruct (decide (x = cand k)) as [->|]; tauto.
        - intros x. rewrite elem_of_singleton, elem_of_difference.
          rewrite elem_of_singleton. tauto. }
      rewrite size_singleton in Heq. lia.
    + intros j Hj Hju. apply elem_of_difference. split.
      * apply Hcov; [lia|done].
      * rewrite elem_of_singleton. intros Heq.
        apply cand_inj in Heq. lia.
Qed.

Lemma firstFree_terminates : ∃ s, firstFree used cand = Some s.
Proof. apply (whileUsed_enough used); [lia|auto]. Qed.

Lemma whileUsed_fresh fuel k s :
  whileUsed used cand fuel k = Some s → (s ∉ used) ∧ (∃ j, s = cand j).
Proof.
  revert k. induction fuel as [|fuel IH]; intros k; simpl;
    destruct (decide (cand k ∈ used)); try done;
    try (intros [= <-]; eauto); eauto.
Qed.

Lemma firstFree_fresh s : firstFree used cand = Some s → s ∉ used.
Proof. intros H. by apply whileUsed_fresh in H as [? _]. Qed.
End LoopFacts.

(** ** Data model ([types/db.ts], [profile-service.ts]) *)

Definition Timestamp := N.

(** [a.localeCompare(b)] on two ISO instants. *)
Definition localeCompare (a b : Timestamp) : Z :=
  match (a ?= b)%N with Lt => (-1)%Z | Eq => 0%Z | Gt => 1%Z end.

Inductive ThemeName :=
  light | dark | midnight | forest | gilded | silver | autumn.

Module ProfileLinkRecord.
Record t := mk {
  id : string;
  profile_id : string;
  user_id : string;
  title : string;
  url : string;
  order_index : Z;
  is_active : bool;
  created_at : Timestamp;
  updated_at : option Timestamp;
}.
End ProfileLinkRecord.

Module ProfileWithLinks.
Record t := mk {
  id : string;
  user_id : string;
  name : string;
  handle : string;
  headline : option string;
  theme : ThemeName;
  is_active : bool;
  created_at : Timestamp;
  updated_at : Timestamp;
  links : list ProfileLinkRecord.t;
}.

Definition set_is_active (b : bool) (p : t) : t :=
  mk (id p) (user_id p) (name p) (handle p) (headline p) (theme p)
     b (created_at p) (updated_at p) (links p).

Definition set_updated_at (ts : Timestamp) (p : t) : t :=
  mk (id p) (user_id p) (name p) (handle p) (headline p) (theme p)
     (is_active p) (created_at p) ts (links p).

Definition set_links (ls : list ProfileLinkRecord.t) (p : t) : t :=
  mk (id p) (user_id p) (name p) (handle p) (headline p) (theme p)
     (is_active p) (created_at p) (updated_at p) ls.

(** The assignments of the update branch of [memorySaveProfileForUser]. *)
Definition overwrite (n h : string) (hl : option string) (th : ThemeName)
    (ts : Timestamp) (p : t) : t :=
  mk (id p) (user_id p) n h hl th (is_active p) (created_at p) ts (links p).
End ProfileWithLinks.

Module LinkPayload.
Record t := mk {
  id : option string;
  title : option string;
  url : option string;
}.
End LinkPayload.

(** The JSON body received by the service.  Fields the code reads
    defensively ([?.], [??]) may be absent. *)
Module ProfilePayload.
Record t := mk {
  id : option string;
  name : option string;
  handle : string;
  headline : option string;
  theme : option string;
  links : option (list LinkPayload.t);
  active : option bool;
}.
End ProfilePayload.

Module AccountRecord.
Record t := mk {
  user_id : string;
  username : string;
  display_name : option string;
  avatar_url : option string;
  avatar_updated_at : option string;
}.
End AccountRecord.

Definition normaliseHandle (handle : string) : string :=
  Js.toLowerCase (Js.trim handle).

Definition normaliseTheme (theme : option string) : ThemeName :=
  let value := Js.toLowerCase (default "light" theme) in
  if String.eqb value "light" then light
  else if String.eqb value "dark" then dark
  else if String.eqb value "midnight" then midnight
  else if String.eqb value "forest" then forest
  else if String.eqb value "gilded" then gilded
  else if String.eqb value "silver" then silver
  else if String.eqb value "autumn" then autumn
  else light.

(** ** The module state and its effects

    [memoryProfiles] and [memoryAccounts] are the two module-level [Map]s.
    The clock and the UUID source are the environment: the n-th evaluation
    of [new Date()] yields [dateNow n], the n-th call of
    [crypto.randomUUID()] yields [randomUUID n]. *)

Record World := mkWorld {
  memoryProfiles : gmap string (list ProfileWithLinks.t);
  memoryAccounts : gmap string AccountRecord.t;
  clockReads : nat;
  uuidDraws : nat;
}.

Definition emptyWorld : World := mkWorld ∅ ∅ 0 0.

(** How a call ends.  A thrown exception keeps the mutations made before
    it.  [OutOfFuel] is the bounded [while] loop exhausting its fuel. *)
Inductive Outcome (A : Type) : Type :=
  | Returned (a : A)
  | Thrown (message : string)
  | OutOfFuel.
Arguments Returned {A} a.
Arguments Thrown {A} message.
Arguments OutOfFuel {A}.

Definition M (A : Type) : Type := World → World * Outcome A.

Definition ret {A} (a : A) : M A := λ w, (w, Returned a).
Definition throw {A} (message : string) : M A := λ w, (w, Thrown message).
Definition outOfFuel {A} : M A := λ w, (w, OutOfFuel).

Definition bind {A B} (m : M A) (k : A → M B) : M B := λ w,
  match m w with
  | (w', Returned a) => k a w'
  | (w', Thrown e) => (w', Thrown e)
  | (w', OutOfFuel) => (w', OutOfFuel)
  end.

Notation "x <- c1 ;; c2" := (bind c1 (λ x, c2))
  (at level 100, c1 at next level, c2 at level 200, right associativity).
Notation "c1 ;;; c2" := (bind c1 (λ _, c2))
  (at level 100, c2 at level 200, right associativity).

Definition worldAfter {A} (r : World * Outcome A) : World := r.1.
Definition outcomeOf {A} (r : World * Outcome A) : Outcome A := r.2.

Fixpoint mapMi {A B} (f : nat → A → M B) (i : nat) (l : list A)
  : M (list B) :=
  match l with
  | [] => ret []
  | x :: r => y <- f i x ;; ys <- mapMi f (S i) r ;; ret (y :: ys)
  end.

(** Stable sort, as [Array.prototype.sort] with a comparator: an element
    is placed before the first one that does not precede it. *)
Fixpoint insertBy {A} (cmp : A → A → Z) (x : A) (l : list A) : list A :=
  match l with
  | [] => [x]
  | y :: r => if (cmp x y <=? 0)%Z then x :: y :: r
              else y :: insertBy cmp x r
  end.

Definition sortBy {A} (cmp : A → A → Z) (l : list A) : list A :=
  foldr (insertBy cmp) [] l.

Definition byOrder (a b : ProfileLinkRecord.t) : Z :=
  let d := (ProfileLinkRecord.order_index a
            - ProfileLinkRecord.order_index b)%Z in
  if (d =? 0)%Z
  then localeCompare (ProfileLinkRecord.created_at a)
                     (ProfileLinkRecord.created_at b)
  else d.

(** ** [profile-service.ts], in-memory branch *)

Section ProfileService.
Context (dateNow : nat → Timestamp) (randomUUID : nat → string).

Import ProfileWithLinks.

(** [new Date().toISOString()] *)
Definition newDate : M Timestamp := λ w,
  (mkWorld (memoryProfiles w) (memoryAccounts w)
           (S (clockReads w)) (uuidDraws w),
   Returned (dateNow (clockReads w))).

Definition randomId : M string := λ w,
  (mkWorld (memoryProfiles w) (memoryAccounts w)
           (clockReads w) (S (uuidDraws w)),
   Returned (randomUUID (uuidDraws w))).

Definition ensureMemoryProfiles (userId : string)
  : M (list ProfileWithLinks.t) := λ w,
  match memoryProfiles w !! userId with
  | Some profiles => (w, Returned profiles)
  | None =>
      (mkWorld (<[userId := []]> (memoryProfiles w)) (memoryAccounts w)
               (clockReads w) (uuidDraws w),
       Returned [])
  end.

(** The array returned by [ensureMemoryProfiles] is the one held in the
    map: a mutation of it, or of one of its elements, is a write to the
    entry of [userId]. *)
Definition writeProfiles (userId : string)
    (profiles : list ProfileWithLinks.t) : M unit := λ w,
  (mkWorld (<[userId := profiles]> (memoryProfiles w)) (memoryAccounts w)
           (clockReads w) (uuidDraws w),
   Returned tt).

(** Mutation of the object at position [index] of the array. *)
Definition mutateProfile (userId : string) (index : nat)
    (f : ProfileWithLinks.t → ProfileWithLinks.t) : M unit :=
  profiles <- ensureMemoryProfiles userId ;;
  writeProfiles userId (alter f index profiles).

(** Reading through the reference [profile], the object at position
    [index]. *)
Definition readProfile (userId : string) (index : nat)
    (profile : ProfileWithLinks.t) : M ProfileWithLinks.t :=
  profiles <- ensureMemoryProfiles userId ;;
  ret (default profile (profiles !! index)).

Definition getAccounts : M (gmap string AccountRecord.t) := λ w,
  (w, Returned (memoryAccounts w)).

Definition setAccount (userId : string) (record : AccountRecord.t)
  : M unit := λ w,
  (mkWorld (memoryProfiles w) (<[userId := record]> (memoryAccounts w))
           (clockReads w) (uuidDraws w),
   Returned tt).

Definition handleCandidate (seed : string) (counter : nat) : string :=
  match counter with
  | O => seed
  | S _ => seed +:+ "-" +:+ Js.numToString counter
  end.

Definition generateMemoryHandle (userId : string)
    (preferred : option string) : M string :=
  let base := normaliseHandle (Js.optOrElse preferred "") in
  seed <- (if Js.truthy base then ret base
           else
             rest <- (let head := Js.slice0 8 userId in
                      if Js.truthy head then ret head
                      else (r <- randomId ;; ret (Js.slice0 8 r))) ;;
             ret ("user-" +:+ rest)) ;;
  accounts <- getAccounts ;;
  let existing : gset string :=
    list_to_set ((λ kv, AccountRecord.username kv.2)
                   <$> map_to_list accounts) in
  match Loop.firstFree existing (handleCandidate seed) with
  | Some candidate => ret candidate
  | None => outOfFuel
  end.

Definition ensureMemoryAccountRecord (userId : string)
    (fallbackHandle displayName : option string) : M AccountRecord.t :=
  accounts <- getAccounts ;;
  match accounts !! userId with
  | Some existing =>
      if Js.truthy (default "" displayName)
         && negb (Js.truthy (default "" (AccountRecord.display_name existing)))
      then
        let updated :=
          AccountRecord.mk (AccountRecord.user_id existing)
            (AccountRecord.username existing) displayName
            (AccountRecord.avatar_url existing)
            (AccountRecord.avatar_updated_at existing) in
        setAccount userId updated ;;; ret updated
      else ret existing
  | None =>
      username <- generateMemoryHandle userId fallbackHandle ;;
      let record := AccountRecord.mk userId username displayName None None in
      setAccount userId record ;;; ret record
  end.

Definition memoryGetProfiles (userId : string)
  : M (list ProfileWithLinks.t) :=
  profiles <- ensureMemoryProfiles userId ;;
  ret (sortBy (λ a b, localeCompare (created_at a) (created_at b))
              profiles).

Definition memoryEnsureSingleActiveProfile (userId : string)
    (desiredActiveProfileId : string) : M unit :=
  profiles <- ensureMemoryProfiles userId ;;
  now <- newDate ;;
  writeProfiles userId
    ((λ profile,
        if String.eqb (id profile) desiredActiveProfileId
        then set_updated_at now (set_is_active true profile)
        else set_is_active false profile) <$> profiles) ;;;
  if existsb (λ profile, String.eqb (id profile) desiredActiveProfileId)
             profiles
  then ret tt
  else throw "Profile not found".

Definition memoryEnsureHasActiveProfile (userId : string) : M unit :=
  profiles <- ensureMemoryProfiles userId ;;
  match profiles with
  | [] => ret tt
  | first :: rest =>
      if existsb is_active profiles then ret tt
      else
        now <- newDate ;;
        writeProfiles userId
          (set_updated_at now (set_is_active true first) :: rest)
  end.

(** One element of [links.map((link, index) => ...)]. *)
Definition saveLink (userId profileId : string) (now : Timestamp)
    (existingLinks : gmap string ProfileLinkRecord.t)
    (index : nat) (link : LinkPayload.t) : M ProfileLinkRecord.t :=
  let linkId := default "" (LinkPayload.id link) in
  let existing :=
    if Js.truthy linkId then existingLinks !! linkId else None in
  let known :=
    Js.orElse (default "" (ProfileLinkRecord.id <$> existing)) linkId in
  newId <- (if Js.truthy known then ret known else randomId) ;;
  ret (ProfileLinkRecord.mk newId profileId userId
         (Js.optOrElse (Js.trim <$> LinkPayload.title link)
                       ("Link " +:+ Js.numToString (S index)))
         (Js.optOrElse (Js.trim <$> LinkPayload.url link) "")
         (Z.of_nat index)
         (default true (ProfileLinkRecord.is_active <$> existing))
         (default now (ProfileLinkRecord.created_at <$> existing))
         (Some now)).

Definition memorySaveProfileForUser (userId : string)
    (payload : ProfilePayload.t) : M ProfileWithLinks.t :=
  let handle := normaliseHandle (ProfilePayload.handle payload) in
  let theme := normaliseTheme (ProfilePayload.theme payload) in
  let headline :=
    match Js.trim <$> ProfilePayload.headline payload with
    | Some h => if Js.truthy h then Some h else None
    | None => None
    end in
  let links := default [] (ProfilePayload.links payload) in
  let name := default "" (Js.trim <$> ProfilePayload.name payload) in
  if negb (Js.truthy name) then throw "Profile name is required"
  else if negb (Js.truthy handle) then throw "Handle is required"
  else
    profiles <- ensureMemoryProfiles userId ;;
    now <- newDate ;;
    let found :=
      match ProfilePayload.id payload with
      | Some pid =>
          if Js.truthy pid
          then list_find (λ p, id p = pid) profiles
          else None
      | None => None
      end in
    created <-
      (match found with
       | None =>
           newId <- randomId ;;
           let fresh := mk newId userId name handle headline theme
                           false now now [] in
           writeProfiles userId (profiles ++ [fresh]) ;;;
           ret (length profiles, fresh)
       | Some (i, p) =>
           mutateProfile userId i
             (overwrite name handle headline theme now) ;;;
           ret (i, overwrite name handle headline theme now p)
       end) ;;
    let index := created.1 in
    let profile := created.2 in
    let existingLinks : gmap string ProfileLinkRecord.t :=
      list_to_map
        (reverse ((λ l, (ProfileLinkRecord.id l, l)) <$> ProfileWithLinks.links profile)) in
    newLinks <- mapMi (saveLink userId (id profile) now existingLinks)
                      0 links ;;
    mutateProfile userId index (set_links newLinks) ;;;
    profile <- readProfile userId index profile ;;
    ensureMemoryAccountRecord userId
      (Some (ProfileWithLinks.handle profile))
      (Some (ProfileWithLinks.name profile)) ;;;
    (if default false (ProfilePayload.active payload)
     then memoryEnsureSingleActiveProfile userId (id profile)
     else
       profiles <- ensureMemoryProfiles userId ;;
       if existsb is_active profiles then ret tt
       else mutateProfile userId index (set_is_active true)) ;;;
    memoryEnsureHasActiveProfile userId ;;;
    readProfile userId index profile.

Definition memoryDeleteProfileForUser (userId profileId : string)
  : M unit :=
  profiles <- ensureMemoryProfiles userId ;;
  match list_find (λ profile, id profile = profileId) profiles with
  | None => ret tt
  | Some (index, _) =>
      writeProfiles userId (delete index profiles) ;;;
      memoryEnsureHasActiveProfile userId
  end.

Definition memorySetActiveProfileForUser (userId profileId : string)
  : M ProfileWithLinks.t :=
  memoryEnsureSingleActiveProfile userId profileId ;;;
  profiles <- ensureMemoryProfiles userId ;;
  match list_find (λ p, id p = profileId) profiles with
  | None => throw "Profile not found"
  | Some (_, profile) => ret profile
  end.

(** The exported functions, with [SUPABASE_ENABLED] false. *)
Definition getProfilesForUser (userId : string)
  : M (list ProfileWithLinks.t) :=
  if negb (Js.truthy userId) then throw "userId is required"
  else memoryGetProfiles userId.

Definition saveProfileForUser (userId : string)
    (payload : ProfilePayload.t) : M ProfileWithLinks.t :=
  if negb (Js.truthy userId) then throw "userId is required"
  else memorySaveProfileForUser userId payload.

Definition deleteProfileForUser (userId profileId : string) : M unit :=
  if negb (Js.truthy userId) || negb (Js.truthy profileId)
  then throw "userId and profileId are required"
  else memoryDeleteProfileForUser userId profileId.

Definition setActiveProfileForUser (userId profileId : string)
  : M ProfileWithLinks.t :=
  memorySetActiveProfileForUser userId profileId.

End ProfileService.

(** ** Reading the store *)

Definition profilesOf (w : World) (userId : string)
  : list ProfileWithLinks.t :=
  default [] (memoryProfiles w !! userId).

Definition countActive (profiles : list ProfileWithLinks.t) : nat :=
  length (filter (λ p, ProfileWithLinks.is_active p = true) profiles).

Definition profileIds (profiles : list ProfileWithLinks.t) : list string :=
  ProfileWithLinks.id <$> profiles.

(** The property of section 8.1 of the specification for one account:
    exactly one active profile when there is a profile, none otherwise. *)
Definition singleActive (profiles : list ProfileWithLinks.t) : Prop :=
  countActive profiles = match profiles with [] => 0 | _ :: _ => 1 end%nat.

(** World transformers used to state what a call does. *)
Definition touch (userId : string) (w : World) : World :=
  match memoryProfiles w !! userId with
  | Some _ => w
  | None => mkWorld (<[userId := []]> (memoryProfiles w)) (memoryAccounts w)
                    (clockReads w) (uuidDraws w)
  end.

Definition setProfiles (userId : string)
    (profiles : list ProfileWithLinks.t) (w : World) : World :=
  mkWorld (<[userId := profiles]> (memoryProfiles w)) (memoryAccounts w)
          (clockReads w) (uuidDraws w).

Definition tick (w : World) : World :=
  mkWorld (memoryProfiles w) (memoryAccounts w) (S (clockReads w))
          (uuidDraws w).

Definition draw (w : World) : World :=
  mkWorld (memoryProfiles w) (memoryAccounts w) (clockReads w)
          (S (uuidDraws w)).

(** [memoryEnsureSingleActiveProfile] on one element. *)
Definition promote (desired : string) (now : Timestamp)
    (profile : ProfileWithLinks.t) : ProfileWithLinks.t :=
  if String.eqb (ProfileWithLinks.id profile) desired
  then ProfileWithLinks.set_updated_at now
         (ProfileWithLinks.set_is_active true profile)
  else ProfileWithLinks.set_is_active false profile.

(** [memoryEnsureHasActiveProfile] on the array. *)
Definition repair (now : Timestamp) (profiles : list ProfileWithLinks.t)
  : list ProfileWithLinks.t :=
  match profiles with
  | [] => []
  | first :: rest =>
      if existsb ProfileWithLinks.is_active profiles then profiles
      else ProfileWithLinks.set_updated_at now
             (ProfileWithLinks.set_is_active true first) :: rest
  end.

Section StoreLists.
Import ProfileWithLinks.
Implicit Types (ps : list ProfileWithLinks.t) (p : ProfileWithLinks.t).

Lemma countActive_cons p ps :
  countActive (p :: ps)
  = ((if is_active p then 1 else 0) + countActive ps)%nat.
Proof.
  unfold countActive. rewrite filter_cons.
  destruct (decide (is_active p = true)) as [->|Hn]; simpl; [done|].
  by destruct (is_active p).
Qed.

Lemma countActive_app ps1 ps2 :
  countActive (ps1 ++ ps2) = (countActive ps1 + countActive ps2)%nat.
Proof. unfold countActive. by rewrite filter_app, length_app. Qed.

Lemma existsb_active_count ps :
  existsb is_active ps = false ↔ countActive ps = 0%nat.
Proof.
  induction ps as [|p ps IH]; simpl; [done|].
  rewrite countActive_cons. destruct (is_active p); simpl; [split; [done|lia]|].
  by rewrite IH.
Qed.

Lemma existsb_active_pos ps :
  existsb is_active ps = true ↔ (1 ≤ countActive ps)%nat.
Proof.
  destruct (existsb is_active ps) eqn:E.
  - split; [|done]. intros _.
    destruct (countActive ps) eqn:Ec; [|lia].
    apply existsb_active_count in Ec. congruence.
  - apply existsb_active_count in E. rewrite E. split; [done|lia].
Qed.

Lemma countActive_all_inactive ps :
  countActive (set_is_active false <$> ps) = 0%nat.
Proof.
  induction ps as [|p ps IH]; [done|].
  rewrite fmap_cons, countActive_cons. simpl. done.
Qed.

Lemma profileIds_promote d now ps :
  profileIds (promote d now <$> ps) = profileIds ps.
Proof.
  unfold profileIds. rewrite <- list_fmap_compose. apply list_fmap_ext.
  intros _ p _. simpl. unfold promote. by destruct (String.eqb _ _).
Qed.

Lemma promote_absent d now ps :
  d ∉ profileIds ps → promote d now <$> ps = set_is_active false <$> ps.
Proof.
  intros Hd. apply list_fmap_ext. intros i p Hp. unfold promote.
  destruct (String.eqb (id p) d) eqn:E; [|done].
  apply String.eqb_eq in E. exfalso. apply Hd. subst d.
  unfold profileIds. apply list_elem_of_fmap. exists p. split; [done|].
  by eapply list_elem_of_lookup_2.
Qed.

Lemma countActive_promote d now ps :
  NoDup (profileIds ps) → d ∈ profileIds ps →
  countActive (promote d now <$> ps) = 1%nat.
Proof.
  induction ps as [|p ps IH]; intros Hnd Hin.
  - by apply elem_of_nil in Hin.
  - unfold profileIds in *. rewrite fmap_cons in *.
    apply NoDup_cons in Hnd as [Hp Hnd].
    rewrite countActive_cons. unfold promote at 1.
    destruct (String.eqb (id p) d) eqn:E; simpl.
    + apply String.eqb_eq in E. subst d.
      rewrite promote_absent by done.
      by rewrite countActive_all_inactive.
    + apply String.eqb_neq in E.
      apply elem_of_cons in Hin as [Hin|Hin]; [congruence|].
      by rewrite IH.
Qed.

Lemma existsb_id_elem d ps :
  existsb (λ p, String.eqb (id p) d) ps = true ↔ d ∈ profileIds ps.
Proof.
  unfold profileIds. induction ps as [|p ps IH]; simpl.
  - split; [done|]. by intros ?%elem_of_nil.
  - rewrite orb_true_iff, IH, elem_of_cons, String.eqb_eq.
    split; (intros [?|?]; [left|right]); done.
Qed.

Lemma repair_ids now ps : profileIds (repair now ps) = profileIds ps.
Proof.
  destruct ps as [|p ps]; [done|]. unfold repair.
  by destruct (existsb _ _).
Qed.

Lemma repair_length now ps : length (repair now ps) = length ps.
Proof.
  destruct ps as [|p ps]; [done|]. unfold repair.
  by destruct (existsb _ _).
Qed.

Lemma repair_active now ps :
  (1 ≤ countActive ps)%nat → repair now ps = ps.
Proof.
  intros H. destruct ps as [|p ps]; [done|]. unfold repair.
  apply existsb_active_pos in H. by rewrite H.
Qed.

Lemma repair_count now ps :
  (countActive ps ≤ 1)%nat → singleActive (repair now ps).
Proof.
  intros Hle. destruct ps as [|p ps]; [done|]. unfold repair, singleActive.
  destruct (existsb is_active (p :: ps)) eqn:E.
  - apply existsb_active_pos in E. lia.
  - apply existsb_active_count in E. rewrite countActive_cons in *.
    simpl. destruct (is_active p); simpl in *; lia.
Qed.

Lemma singleActive_le ps : singleActive ps → (countActive ps ≤ 1)%nat.
Proof. unfold singleActive. destruct ps; lia. Qed.

Lemma repair_idem now now' ps :
  repair now' (repair now ps) = repair now ps.
Proof.
  destruct ps as [|p ps]; [done|].
  assert (repair now (p :: ps)
          = if existsb is_active (p :: ps) then p :: ps
            else set_updated_at now (set_is_active true p) :: ps) as ->
    by reflexivity.
  destruct (existsb is_active (p :: ps)) eqn:E.
  - unfold repair. by rewrite E.
  - reflexivity.
Qed.
End StoreLists.

(** ** What each store primitive does to the world *)

Section WorldFacts.
Implicit Types (w : World) (u userId : string).

Lemma profilesOf_touch userId u w :
  profilesOf (touch userId w) u = profilesOf w u.
Proof.
  unfold touch, profilesOf.
  destruct (memoryProfiles w !! userId) eqn:E; [done|]. simpl.
  destruct (decide (userId = u)) as [->|Hne].
  - by rewrite lookup_insert_eq, E.
  - by rewrite lookup_insert_ne.
Qed.

Lemma profilesOf_setProfiles userId u ps w :
  profilesOf (setProfiles userId ps w) u
  = if decide (u = userId) then ps else profilesOf w u.
Proof.
  unfold setProfiles, profilesOf. simpl.
  destruct (decide (u = userId)) as [->|Hne].
  - by rewrite lookup_insert_eq.
  - by rewrite lookup_insert_ne.
Qed.

Lemma profilesOf_setProfiles_eq userId ps w :
  profilesOf (setProfiles userId ps w) userId = ps.
Proof. rewrite profilesOf_setProfiles. by rewrite decide_True. Qed.

Lemma profilesOf_setProfiles_ne userId u ps w :
  u ≠ userId → profilesOf (setProfiles userId ps w) u = profilesOf w u.
Proof. intros. rewrite profilesOf_setProfiles. by rewrite decide_False. Qed.

Lemma setProfiles_touch userId ps w :
  setProfiles userId ps (touch userId w) = setProfiles userId ps w.
Proof.
  unfold touch, setProfiles.
  destruct (memoryProfiles w !! userId); [done|]. simpl.
  by rewrite insert_insert_eq.
Qed.

Lemma touch_setProfiles userId ps w :
  touch userId (setProfiles userId ps w) = setProfiles userId ps w.
Proof. unfold touch. simpl. by rewrite lookup_insert_eq. Qed.

Lemma touch_present userId ps w :
  memoryProfiles w !! userId = Some ps → touch userId w = w.
Proof. intros H. unfold touch. by rewrite H. Qed.

Lemma touch_touch userId w : touch userId (touch userId w) = touch userId w.
Proof.
  destruct (memoryProfiles w !! userId) eqn:E.
  - by rewrite !(touch_present userId l w).
  - assert (touch userId w = setProfiles userId [] w) as ->.
    { unfold touch. by rewrite E. }
    apply touch_setProfiles.
Qed.

Lemma setProfiles_setProfiles userId ps ps' w :
  setProfiles userId ps (setProfiles userId ps' w) = setProfiles userId ps w.
Proof. unfold setProfiles. simpl. by rewrite insert_insert_eq. Qed.

Lemma tick_touch userId w : tick (touch userId w) = touch userId (tick w).
Proof. unfold touch, tick. simpl. by destruct (memoryProfiles w !! userId). Qed.

Lemma draw_touch userId w : draw (touch userId w) = touch userId (draw w).
Proof. unfold touch, draw. simpl. by destruct (memoryProfiles w !! userId). Qed.

Lemma profilesOf_tick w u : profilesOf (tick w) u = profilesOf w u.
Proof. done. Qed.

Lemma profilesOf_draw w u : profilesOf (draw w) u = profilesOf w u.
Proof. done. Qed.
End WorldFacts.

Section PrimitiveRuns.
Context (dateNow : nat → Timestamp) (randomUUID : nat → string).
Import ProfileWithLinks.

Lemma ensureMemoryProfiles_run userId w :
  ensureMemoryProfiles userId w
  = (touch userId w, Returned (profilesOf w userId)).
Proof.
  unfold ensureMemoryProfiles, touch, profilesOf.
  by destruct (memoryProfiles w !! userId).
Qed.

Lemma writeProfiles_run userId ps w :
  writeProfiles userId ps w = (setProfiles userId ps w, Returned tt).
Proof. done. Qed.

Lemma mutateProfile_run userId index f w :
  mutateProfile userId index f w
  = (setProfiles userId (alter f index (profilesOf w userId)) w,
     Returned tt).
Proof.
  unfold mutateProfile, bind. rewrite ensureMemoryProfiles_run.
  rewrite writeProfiles_run. by rewrite setProfiles_touch.
Qed.

Lemma readProfile_run userId index p w :
  readProfile userId index p w
  = (touch userId w, Returned (default p (profilesOf w userId !! index))).
Proof.
  unfold readProfile, bind. by rewrite ensureMemoryProfiles_run.
Qed.

Lemma memoryEnsureSingleActiveProfile_run userId desired w :
  memoryEnsureSingleActiveProfile dateNow userId desired w
  = (setProfiles userId
       (promote desired (dateNow (clockReads w)) <$> profilesOf w userId)
       (tick w),
     if existsb (λ p, String.eqb (id p) desired) (profilesOf w userId)
     then Returned tt else Thrown "Profile not found").
Proof.
  unfold memoryEnsureSingleActiveProfile, bind.
  rewrite ensureMemoryProfiles_run. unfold newDate.
  rewrite writeProfiles_run.
  change (mkWorld (memoryProfiles (touch userId w))
            (memoryAccounts (touch userId w))
            (S (clockReads (touch userId w)))
            (uuidDraws (touch userId w)))
    with (tick (touch userId w)).
  rewrite tick_touch, setProfiles_touch.
  assert (clockReads (touch userId w) = clockReads w) as ->.
  { unfold touch. by destruct (memoryProfiles w !! userId). }
  unfold promote.
  by destruct (existsb _ _).
Qed.

(** The world after [memoryEnsureHasActiveProfile]. *)
Definition repairWorld (userId : string) (w : World) : World :=
  match profilesOf w userId with
  | [] => touch userId w
  | first :: rest =>
      if existsb is_active (first :: rest) then touch userId w
      else setProfiles userId
             (repair (dateNow (clockReads w)) (first :: rest)) (tick w)
  end.

Lemma memoryEnsureHasActiveProfile_run userId w :
  memoryEnsureHasActiveProfile dateNow userId w
  = (repairWorld userId w, Returned tt).
Proof.
  unfold memoryEnsureHasActiveProfile, bind, repairWorld.
  rewrite ensureMemoryProfiles_run.
  destruct (profilesOf w userId) as [|first rest] eqn:E; [done|].
  unfold repair.
  destruct (existsb is_active (first :: rest)) eqn:Ea; [done|].
  unfold newDate. rewrite writeProfiles_run.
  change (mkWorld (memoryProfiles (touch userId w))
            (memoryAccounts (touch userId w))
            (S (clockReads (touch userId w)))
            (uuidDraws (touch userId w)))
    with (tick (touch userId w)).
  rewrite tick_touch, setProfiles_touch.
  assert (clockReads (touch userId w) = clockReads w) as ->; [|done].
  unfold touch. by destruct (memoryProfiles w !! userId).
Qed.

Lemma profilesOf_repairWorld userId u w :
  profilesOf (repairWorld userId w) u
  = if decide (u = userId)
    then repair (dateNow (clockReads w)) (profilesOf w userId)
    else profilesOf w u.
Proof.
  unfold repairWorld.
  destruct (profilesOf w userId) as [|first rest] eqn:E.
  - rewrite profilesOf_touch. destruct (decide (u = userId)) as [->|]; done.
  - unfold repair.
    destruct (existsb is_active (first :: rest)) eqn:Ea.
    + rewrite profilesOf_touch.
      destruct (decide (u = userId)) as [->|]; done.
    + rewrite profilesOf_setProfiles.
      destruct (decide (u = userId)) as [->|]; done.
Qed.

Lemma repairWorld_draws userId w :
  uuidDraws (repairWorld userId w) = uuidDraws w.
Proof.
  unfold repairWorld, touch.
  destruct (profilesOf w userId); [by destruct (memoryProfiles w !! userId)|].
  destruct (existsb _ _); [by destruct (memoryProfiles w !! userId)|done].
Qed.
End PrimitiveRuns.

(** ** A concrete environment and the payloads of the specification *)

Module Scenario.
Definition clock (n : nat) : Timestamp := N.of_nat (1000 + n).
Definition uuid (n : nat) : string := "id-" +:+ pretty n.

Definition jess : ProfilePayload.t :=
  ProfilePayload.mk None (Some "Jess") "jess" None None
    (Some [LinkPayload.mk None (Some "Site") (Some "https://jess.dev")])
    None.

Definition work : ProfilePayload.t :=
  ProfilePayload.mk None (Some "Work") "jess-work" None None None
    (Some true).

(** The store after the first save of section 8.9. *)
Definition afterJess : World :=
  (saveProfileForUser clock uuid "acc_1" jess emptyWorld).1.
End Scenario.

Lemma Scenario_uuid_inj i j : Scenario.uuid i = Scenario.uuid j → i = j.
Proof.
  unfold Scenario.uuid. intros H.
  apply (inj (String.app "id-")) in H. by apply (inj pretty) in H.
Qed.

(** ** Idempotence of the repair step *)

(** C6.  Running [memoryEnsureHasActiveProfile] a second time, right after a
    first run, returns normally and leaves the whole module state (both
    maps, and the clock and UUID cursors) exactly as the first run left
    it. *)
Theorem ensure_has_active_idempotent
    (dateNow : nat → Timestamp) (userId : string) (w : World) :
  let once := memoryEnsureHasActiveProfile dateNow userId w in
  memoryEnsureHasActiveProfile dateNow userId once.1 = (once.1, Returned tt).
Proof.
  simpl. rewrite !memoryEnsureHasActiveProfile_run. simpl. f_equal.
  assert (repairWorld dateNow userId w = touch userId w
          ∨ ∃ ps, repairWorld dateNow userId w
                  = setProfiles userId ps (tick w)
                  ∧ existsb ProfileWithLinks.is_active ps = true
                  ∧ ps ≠ []) as Hcase.
  { unfold repairWorld.
    destruct (profilesOf w userId) as [|first rest]; [by left|].
    destruct (existsb ProfileWithLinks.is_active (first :: rest)) eqn:Ea;
      [by left|].
    right. eexists. split; [reflexivity|]. unfold repair. rewrite Ea.
    split; [reflexivity|discriminate]. }
  destruct Hcase as [Ht|(ps & Hs & Hact & Hne)].
  - rewrite Ht. unfold repairWorld in Ht |- *. rewrite profilesOf_touch.
    destruct (profilesOf w userId) as [|first rest]; [apply touch_touch|].
    destruct (existsb ProfileWithLinks.is_active (first :: rest)) eqn:Ea;
      [apply touch_touch|].
    exfalso. apply (f_equal clockReads) in Ht. simpl in Ht.
    assert (clockReads (touch userId w) = clockReads w) as Hc.
    { unfold touch. by destruct (memoryProfiles w !! userId). }
    rewrite Hc in Ht. lia.
  - rewrite Hs. unfold repairWorld. rewrite profilesOf_setProfiles_eq.
    destruct ps as [|first rest]; [done|]. rewrite Hact.
    apply touch_setProfiles.
Qed.

(** ** Activation of a profile that is not the account's *)

(** C10.  When the account has a profile and [profileId] is none of its
    profile ids, [setActiveProfileForUser] throws "Profile not found", and
    the store it leaves holds the same profiles all with [is_active] false:
    no profile is active, and the state differs from the prior one whenever
    a profile was active. *)
Theorem set_active_unknown_demotes_all
    (dateNow : nat → Timestamp) (userId profileId : string) (w : World) :
  profilesOf w userId ≠ [] →
  profileId ∉ profileIds (profilesOf w userId) →
  let r := setActiveProfileForUser dateNow userId profileId w in
  r.2 = Thrown "Profile not found"
  ∧ profilesOf r.1 userId
    = ProfileWithLinks.set_is_active false <$> profilesOf w userId
  ∧ countActive (profilesOf r.1 userId) = 0%nat
  ∧ length (profilesOf r.1 userId) = length (profilesOf w userId)
  ∧ ((1 ≤ countActive (profilesOf w userId))%nat →
     profilesOf r.1 userId ≠ profilesOf w userId).
Proof.
  intros Hne Hid. simpl.
  unfold setActiveProfileForUser, memorySetActiveProfileForUser, bind.
  rewrite memoryEnsureSingleActiveProfile_run.
  destruct (existsb _ (profilesOf w userId)) eqn:Ex.
  { apply existsb_id_elem in Ex. contradiction. }
  simpl. rewrite profilesOf_setProfiles_eq, promote_absent by done.
  split; [done|]. split; [done|].
  rewrite countActive_all_inactive, length_fmap.
  split; [done|]. split; [done|].
  intros Hact Heq. rewrite <- Heq in Hact.
  rewrite countActive_all_inactive in Hact. lia.
Qed.

Lemma set_active_unknown_demotes_all_witness :
  let r := setActiveProfileForUser Scenario.clock "acc_1" "nope"
             Scenario.afterJess in
  r.2 = Thrown "Profile not found"
  ∧ countActive (profilesOf Scenario.afterJess "acc_1") = 1%nat
  ∧ countActive (profilesOf r.1 "acc_1") = 0%nat
  ∧ length (profilesOf r.1 "acc_1") = 1%nat.
Proof.
  pose proof (set_active_unknown_demotes_all Scenario.clock "acc_1" "nope"
                Scenario.afterJess) as H.
  simpl in H.
  destruct H as (Hthrow & _ & Hzero & Hlen & _).
  - vm_compute. discriminate.
  - vm_compute. intros Hin. inversion Hin as [|? ? ? Hin']. inversion Hin'.
  - split; [exact Hthrow|]. split; [by vm_compute|].
    split; [exact Hzero|]. rewrite Hlen. by vm_compute.
Defined.

(** ** Links and account records: calls that always return *)

Lemma string_length_app (s1 s2 : string) :
  String.length (s1 +:+ s2) = (String.length s1 + String.length s2)%nat.
Proof.
  induction s1 as [|a s1 IH]; [done|].
  change (String a s1 +:+ s2) with (String a (s1 +:+ s2)).
  simpl. by rewrite IH.
Qed.

(** The state after [d] further UUID draws and with accounts [accs]. *)
Definition withEnv (accs : gmap string AccountRecord.t) (d : nat)
    (w : World) : World :=
  mkWorld (memoryProfiles w) accs (clockReads w) (d + uuidDraws w).

Section AlwaysReturn.
Context (dateNow : nat → Timestamp) (randomUUID : nat → string).

Lemma handleCandidate_inj seed i j :
  handleCandidate seed i = handleCandidate seed j → i = j.
Proof.
  destruct i as [|i], j as [|j]; simpl; intros H; [done| | |].
  - apply (f_equal String.length) in H.
    rewrite string_length_app in H. simpl in H. lia.
  - apply (f_equal String.length) in H.
    rewrite string_length_app in H. simpl in H. lia.
  - apply (inj (String.app seed)) in H.
    apply (inj (String.app "-")) in H.
    unfold Js.numToString in H. by apply (inj pretty) in H.
Qed.

Lemma generateMemoryHandle_run userId preferred w :
  ∃ d username,
    generateMemoryHandle randomUUID userId preferred w
    = (withEnv (memoryAccounts w) d w, Returned username).
Proof.
  unfold generateMemoryHandle.
  set (base := normaliseHandle (Js.optOrElse preferred "")).
  assert (∀ seed d,
    (accounts <- getAccounts ;;
     match Loop.firstFree
             (list_to_set ((λ kv, AccountRecord.username kv.2)
                             <$> map_to_list accounts))
             (handleCandidate seed) with
     | Some candidate => ret candidate
     | None => outOfFuel
     end) (withEnv (memoryAccounts w) d w)
    = (withEnv (memoryAccounts w) d w,
       Returned (default "" (Loop.firstFree
             (list_to_set ((λ kv, AccountRecord.username kv.2)
                             <$> map_to_list (memoryAccounts w)))
             (handleCandidate seed))))) as Hloop.
  { intros seed d. unfold bind, getAccounts. simpl.
    destruct (firstFree_terminates
                (list_to_set ((λ kv, AccountRecord.username kv.2)
                                <$> map_to_list (memoryAccounts w)))
                (handleCandidate seed) (handleCandidate_inj seed))
      as [s Hs].
    by rewrite Hs. }
  assert (w = withEnv (memoryAccounts w) 0 w) as Hw by by destruct w.
  destruct (Js.truthy base).
  - exists 0%nat. eexists. unfold bind at 1. unfold ret at 1.
    rewrite Hw at 1. apply Hloop.
  - destruct (Js.truthy (Js.slice0 8 userId)).
    + exists 0%nat. eexists. unfold bind at 1. unfold bind at 1.
      unfold ret at 1. unfold ret at 1. rewrite Hw at 1. apply Hloop.
    + exists 1%nat. eexists. unfold bind at 1. unfold bind at 1.
      unfold bind at 1. unfold randomId, ret at 1. unfold ret at 1.
      exact (Hloop _ 1%nat).
Qed.

Lemma ensureMemoryAccountRecord_run userId fallbackHandle displayName w :
  ∃ accs d record,
    ensureMemoryAccountRecord randomUUID userId fallbackHandle displayName w
    = (withEnv accs d w, Returned record).
Proof.
  assert (w = withEnv (memoryAccounts w) 0 w) as Hw by by destruct w.
  unfold ensureMemoryAccountRecord, bind at 1, getAccounts.
  destruct (memoryAccounts w !! userId) as [existing|].
  - destruct (_ && _).
    + eexists _, 0%nat, _. unfold bind, setAccount, ret.
      by destruct w.
    + eexists _, 0%nat, _. unfold ret. by rewrite <- Hw.
  - destruct (generateMemoryHandle_run userId fallbackHandle w)
      as (d & username & Hg).
    unfold bind. rewrite Hg.
    eexists _, d, _. unfold setAccount, ret, withEnv. simpl. done.
Qed.

Lemma saveLink_run userId profileId now existingLinks index link w :
  ∃ d record,
    saveLink randomUUID userId profileId now existingLinks index link w
    = (withEnv (memoryAccounts w) d w, Returned record).
Proof.
  assert (w = withEnv (memoryAccounts w) 0 w) as Hw by by destruct w.
  unfold saveLink, bind.
  destruct (Js.truthy (Js.orElse _ _)).
  - eexists 0%nat, _. unfold ret. by rewrite <- Hw.
  - eexists 1%nat, _. unfold randomId, ret. done.
Qed.

Lemma mapMi_saveLink_run userId profileId now existingLinks links :
  ∀ index w,
  ∃ d records,
    mapMi (saveLink randomUUID userId profileId now existingLinks)
          index links w
    = (withEnv (memoryAccounts w) d w, Returned records).
Proof.
  induction links as [|link links IH]; intros index w.
  - exists 0%nat, []. simpl. unfold ret. by destruct w.
  - destruct (saveLink_run userId profileId now existingLinks index link w)
      as (d1 & r1 & H1).
    destruct (IH (S index) (withEnv (memoryAccounts w) d1 w))
      as (d2 & rs & H2).
    exists (d2 + d1)%nat, (r1 :: rs). simpl. unfold bind at 1.
    rewrite H1. unfold bind at 1. rewrite H2. unfold ret, withEnv. simpl.
    by rewrite Nat.add_assoc.
Qed.
End AlwaysReturn.

(** ** What [memorySaveProfileForUser] does *)

Section SaveRun.
Context (dateNow : nat → Timestamp) (randomUUID : nat → string).
Import ProfileWithLinks.

Definition payloadName (payload : ProfilePayload.t) : string :=
  default "" (Js.trim <$> ProfilePayload.name payload).

Definition payloadHandle (payload : ProfilePayload.t) : string :=
  normaliseHandle (ProfilePayload.handle payload).

Definition payloadHeadline (payload : ProfilePayload.t) : option string :=
  match Js.trim <$> ProfilePayload.headline payload with
  | Some h => if Js.truthy h then Some h else None
  | None => None
  end.

Definition payloadTheme (payload : ProfilePayload.t) : ThemeName :=
  normaliseTheme (ProfilePayload.theme payload).

Definition payloadActive (payload : ProfilePayload.t) : bool :=
  default false (ProfilePayload.active payload).

(** The payload passes the two [throw] guards. *)
Definition validPayload (payload : ProfilePayload.t) : Prop :=
  Js.truthy (payloadName payload) = true
  ∧ Js.truthy (payloadHandle payload) = true.

(** [payload.id ? profiles.find((p) => p.id === payload.id) : undefined] *)
Definition findExisting (payload : ProfilePayload.t)
    (profiles : list ProfileWithLinks.t) : option (nat * ProfileWithLinks.t) :=
  match ProfilePayload.id payload with
  | Some pid =>
      if Js.truthy pid then list_find (λ p, id p = pid) profiles else None
  | None => None
  end.

Definition freshProfile (userId : string) (payload : ProfilePayload.t)
    (w : World) : ProfileWithLinks.t :=
  mk (randomUUID (uuidDraws w)) userId (payloadName payload)
     (payloadHandle payload) (payloadHeadline payload)
     (payloadTheme payload) false
     (dateNow (clockReads w)) (dateNow (clockReads w)) [].

Definition overwritten (payload : ProfilePayload.t) (w : World)
    (p : ProfileWithLinks.t) : ProfileWithLinks.t :=
  overwrite (payloadName payload) (payloadHandle payload)
    (payloadHeadline payload) (payloadTheme payload)
    (dateNow (clockReads w)) p.

(** Position of the saved profile, the object after the scalar
    assignments, and the array after them (create or update branch). *)
Definition placed (userId : string) (payload : ProfilePayload.t)
    (w : World) : nat * ProfileWithLinks.t * list ProfileWithLinks.t :=
  let ps0 := profilesOf w userId in
  match findExisting payload ps0 with
  | None =>
      (length ps0, freshProfile userId payload w,
       (ps0 ++ [freshProfile userId payload w])%list)
  | Some (i, p) =>
      (i, overwritten payload w p, alter (overwritten payload w) i ps0)
  end.

(** The state in which the links are rebuilt. *)
Definition placedWorld (userId : string) (payload : ProfilePayload.t)
    (w : World) : World :=
  setProfiles userId (placed userId payload w).2
    (match findExisting payload (profilesOf w userId) with
     | None => draw (tick w)
     | Some _ => tick w
     end).

Definition existingLinksOf (profile : ProfileWithLinks.t)
  : gmap string ProfileLinkRecord.t :=
  list_to_map
    (reverse ((λ l, (ProfileLinkRecord.id l, l)) <$> links profile)).

(** Lines 360-366: promotion when [payload.active], else activation of
    the saved profile when no profile is active. *)
Definition activation (active : bool) (index : nat) (profileId : string)
    (now : Timestamp) (profiles : list ProfileWithLinks.t)
  : list ProfileWithLinks.t :=
  if active then promote profileId now <$> profiles
  else if existsb is_active profiles then profiles
       else alter (set_is_active true) index profiles.

Definition savedLinks (userId : string) (payload : ProfilePayload.t)
    (w : World) : World * Outcome (list ProfileLinkRecord.t) :=
  mapMi (saveLink randomUUID userId (id (placed userId payload w).1.2)
           (dateNow (clockReads w))
           (existingLinksOf (placed userId payload w).1.2))
        0 (default [] (ProfilePayload.links payload))
        (placedWorld userId payload w).

Definition savedProfiles (userId : string) (payload : ProfilePayload.t)
    (w : World) (newLinks : list ProfileLinkRecord.t)
  : list ProfileWithLinks.t :=
  activation (payloadActive payload) (placed userId payload w).1.1
    (id (placed userId payload w).1.2)
    (dateNow (S (clockReads w)))
    (alter (set_links newLinks) (placed userId payload w).1.1
           (placed userId payload w).2).
End SaveRun.

Section SaveRunFacts.
Context (dateNow : nat → Timestamp) (randomUUID : nat → string).
Import ProfileWithLinks.
Implicit Types (P : gmap string (list ProfileWithLinks.t))
               (A : gmap string AccountRecord.t) (C D : nat).

(** Runs in a state whose entry for [userId] is present. *)
Lemma ensureMemoryProfiles_present userId ps P A C D :
  ensureMemoryProfiles userId (mkWorld (<[userId := ps]> P) A C D)
  = (mkWorld (<[userId := ps]> P) A C D, Returned ps).
Proof.
  unfold ensureMemoryProfiles. simpl. by rewrite lookup_insert_eq.
Qed.

Lemma mutateProfile_present userId index f ps P A C D :
  mutateProfile userId index f (mkWorld (<[userId := ps]> P) A C D)
  = (mkWorld (<[userId := alter f index ps]> P) A C D, Returned tt).
Proof.
  unfold mutateProfile, bind. rewrite ensureMemoryProfiles_present.
  unfold writeProfiles. simpl. by rewrite insert_insert_eq.
Qed.

Lemma readProfile_present userId index p ps P A C D :
  readProfile userId index p (mkWorld (<[userId := ps]> P) A C D)
  = (mkWorld (<[userId := ps]> P) A C D,
     Returned (default p (ps !! index))).
Proof.
  unfold readProfile, bind. by rewrite ensureMemoryProfiles_present.
Qed.

Lemma memoryEnsureSingleActiveProfile_present userId desired ps P A C D :
  memoryEnsureSingleActiveProfile dateNow userId desired
    (mkWorld (<[userId := ps]> P) A C D)
  = (mkWorld (<[userId := promote desired (dateNow C) <$> ps]> P) A (S C) D,
     if existsb (λ p, String.eqb (id p) desired) ps
     then Returned tt else Thrown "Profile not found").
Proof.
  rewrite memoryEnsureSingleActiveProfile_run.
  unfold profilesOf, setProfiles, tick. simpl.
  by rewrite lookup_insert_eq, insert_insert_eq.
Qed.

Lemma memoryEnsureHasActiveProfile_present userId ps P A C D :
  (1 ≤ countActive ps)%nat →
  memoryEnsureHasActiveProfile dateNow userId
    (mkWorld (<[userId := ps]> P) A C D)
  = (mkWorld (<[userId := ps]> P) A C D, Returned tt).
Proof.
  intros Hact. rewrite memoryEnsureHasActiveProfile_run. f_equal.
  unfold repairWorld.
  assert (profilesOf (mkWorld (<[userId := ps]> P) A C D) userId = ps)
    as -> by (unfold profilesOf; simpl; by rewrite lookup_insert_eq).
  destruct ps as [|first rest].
  - by apply touch_present with (ps := []), lookup_insert_eq.
  - apply existsb_active_pos in Hact. rewrite Hact.
    by apply touch_present with (ps := first :: rest), lookup_insert_eq.
Qed.

Lemma ensureMemoryAccountRecord_fields userId fb dn P A C D :
  ∃ A' d record,
    ensureMemoryAccountRecord randomUUID userId fb dn (mkWorld P A C D)
    = (mkWorld P A' C (d + D), Returned record).
Proof.
  destruct (ensureMemoryAccountRecord_run randomUUID userId fb dn
              (mkWorld P A C D)) as (A' & d & r & H).
  by exists A', d, r.
Qed.

Lemma mapMi_saveLink_fields userId pid now ex links index P A C D :
  ∃ d records,
    mapMi (saveLink randomUUID userId pid now ex) index links
          (mkWorld P A C D)
    = (mkWorld P A C (d + D), Returned records).
Proof.
  destruct (mapMi_saveLink_run randomUUID userId pid now ex links index
              (mkWorld P A C D)) as (d & rs & H).
  by exists d, rs.
Qed.

Lemma touch_fields userId w :
  memoryAccounts (touch userId w) = memoryAccounts w
  ∧ clockReads (touch userId w) = clockReads w
  ∧ uuidDraws (touch userId w) = uuidDraws w
  ∧ ∀ ps, <[userId := ps]> (memoryProfiles (touch userId w))
          = <[userId := ps]> (memoryProfiles w).
Proof.
  unfold touch. destruct (memoryProfiles w !! userId); [done|]. simpl.
  repeat split. intros ps. by rewrite insert_insert_eq.
Qed.

(** Facts on [placed]. *)
Lemma placed_lookup userId payload w :
  (placed dateNow randomUUID userId payload w).2
    !! (placed dateNow randomUUID userId payload w).1.1
  = Some (placed dateNow randomUUID userId payload w).1.2.
Proof.
  unfold placed.
  destruct (findExisting payload (profilesOf w userId)) as [[i p]|] eqn:E.
  - simpl. unfold findExisting in E.
    destruct (ProfilePayload.id payload) as [pid|]; [|done].
    destruct (Js.truthy pid); [|done].
    apply list_find_Some in E as (Hi & _ & _).
    rewrite list_lookup_alter, decide_True by done. by rewrite Hi.
  - simpl. by rewrite lookup_app_r, Nat.sub_diag.
Qed.

Lemma placedWorld_fields userId payload w :
  placedWorld dateNow randomUUID userId payload w
  = mkWorld (<[userId := (placed dateNow randomUUID userId payload w).2]>
               (memoryProfiles w))
            (memoryAccounts w) (S (clockReads w))
            (match findExisting payload (profilesOf w userId) with
             | Some _ => 0 | None => 1 end + uuidDraws w).
Proof.
  unfold placedWorld.
  by destruct (findExisting payload (profilesOf w userId)).
Qed.

Lemma savedProfiles_lookup userId payload w newLinks :
  ∃ saved,
    savedProfiles dateNow randomUUID userId payload w newLinks
      !! (placed dateNow randomUUID userId payload w).1.1 = Some saved
    ∧ id saved = id (placed dateNow randomUUID userId payload w).1.2.
Proof.
  unfold savedProfiles, activation.
  pose proof (placed_lookup userId payload w) as Hl.
  set (pl := placed dateNow randomUUID userId payload w) in *.
  assert (alter (set_links newLinks) pl.1.1 pl.2 !! pl.1.1
          = Some (set_links newLinks pl.1.2)) as Hl2.
  { rewrite list_lookup_alter, decide_True by done. by rewrite Hl. }
  destruct (payloadActive payload).
  - rewrite list_lookup_fmap, Hl2. simpl. eexists. split; [done|].
    unfold promote. by destruct (String.eqb _ _).
  - destruct (existsb _ _).
    + rewrite Hl2. by eexists.
    + rewrite list_lookup_alter, decide_True by done. rewrite Hl2.
      by eexists.
Qed.

Lemma savedProfiles_active userId payload w newLinks :
  (1 ≤ countActive
         (savedProfiles dateNow randomUUID userId payload w newLinks))%nat.
Proof.
  unfold savedProfiles, activation.
  pose proof (placed_lookup userId payload w) as Hl.
  set (pl := placed dateNow randomUUID userId payload w) in *.
  assert (alter (set_links newLinks) pl.1.1 pl.2 !! pl.1.1
          = Some (set_links newLinks pl.1.2)) as Hl2.
  { rewrite list_lookup_alter, decide_True by done. by rewrite Hl. }
  set (ps2 := alter (set_links newLinks) pl.1.1 pl.2) in *.
  assert (∀ ps i p, ps !! i = Some p → is_active p = true →
                    (1 ≤ countActive ps)%nat) as Hcount.
  { intros ps i p Hp Ha. apply existsb_active_pos.
    apply existsb_exists. exists p. split; [|done].
    apply list_elem_of_In. by eapply list_elem_of_lookup_2. }
  destruct (payloadActive payload).
  - apply (Hcount _ pl.1.1 (promote (id pl.1.2) (dateNow (S (clockReads w)))
                              (set_links newLinks pl.1.2))).
    + by rewrite list_lookup_fmap, Hl2.
    + unfold promote. simpl. by rewrite String.eqb_refl.
  - destruct (existsb is_active ps2) eqn:E.
    + by apply existsb_active_pos.
    + apply (Hcount _ pl.1.1 (set_is_active true (set_links newLinks pl.1.2))).
      * rewrite list_lookup_alter, decide_True by done. by rewrite Hl2.
      * done.
Qed.

Lemma memorySaveProfileForUser_run userId payload w :
  validPayload payload →
  ∃ newLinks dl accs d saved,
    savedLinks dateNow randomUUID userId payload w
    = (withEnv (memoryAccounts w) dl
         (placedWorld dateNow randomUUID userId payload w),
       Returned newLinks)
    ∧ memorySaveProfileForUser dateNow randomUUID userId payload w
      = (mkWorld
           (<[userId := savedProfiles dateNow randomUUID userId payload w
                          newLinks]> (memoryProfiles w))
           accs
           ((if payloadActive payload then 2 else 1) + clockReads w)
           (d + uuidDraws w),
         Returned saved)
    ∧ savedProfiles dateNow randomUUID userId payload w newLinks
        !! (placed dateNow randomUUID userId payload w).1.1 = Some saved
    ∧ (findExisting payload (profilesOf w userId) = None → (1 ≤ d)%nat).
Proof.
  intros [Hname Hhandle].
  pose proof (placed_lookup userId payload w) as Hl.
  pose proof (placedWorld_fields userId payload w) as HW.
  destruct (mapMi_saveLink_fields userId
              (id (placed dateNow randomUUID userId payload w).1.2)
              (dateNow (clockReads w))
              (existingLinksOf (placed dateNow randomUUID userId payload w).1.2)
              (default [] (ProfilePayload.links payload)) 0%nat
              (<[userId := (placed dateNow randomUUID userId payload w).2]>
                 (memoryProfiles w))
              (memoryAccounts w) (S (clockReads w))
              (match findExisting payload (profilesOf w userId) with
               | Some _ => 0 | None => 1 end + uuidDraws w)%nat)
    as (dl & newLinks & HL).
  rewrite <- HW in HL.
  destruct (savedProfiles_lookup userId payload w newLinks)
    as (saved & Hsaved & Hsid).
  pose proof (savedProfiles_active userId payload w newLinks) as Hact.
  set (pl := placed dateNow randomUUID userId payload w) in *.
  set (k := match findExisting payload (profilesOf w userId) with
            | Some _ => 0%nat | None => 1%nat end) in *.
  assert (alter (set_links newLinks) pl.1.1 pl.2 !! pl.1.1
          = Some (set_links newLinks pl.1.2)) as Hl2.
  { rewrite list_lookup_alter, decide_True by done. by rewrite Hl. }
  destruct (ensureMemoryAccountRecord_fields userId
              (Some (handle (set_links newLinks pl.1.2)))
              (Some (name (set_links newLinks pl.1.2)))
              (<[userId := alter (set_links newLinks) pl.1.1 pl.2]>
                 (memoryProfiles w))
              (memoryAccounts w) (S (clockReads w))
              (dl + (k + uuidDraws w))%nat)
    as (A' & da & record & HA).
  exists newLinks, dl, A', (da + (dl + k))%nat, saved.
  split; [by rewrite HW|].
  split; [|split; [done|]].
  2:{ intros Hnone. subst k. rewrite Hnone. lia. }
  unfold memorySaveProfileForUser.
  change (default "" (Js.trim <$> ProfilePayload.name payload))
    with (payloadName payload).
  change (normaliseHandle (ProfilePayload.handle payload))
    with (payloadHandle payload).
  rewrite Hname, Hhandle. cbn [negb].
  unfold bind at 1. rewrite ensureMemoryProfiles_run.
  unfold bind at 1. unfold newDate at 1.
  destruct (touch_fields userId w) as (Ta & Tc & Td & Tp).
  rewrite Ta, Tc, Td.
  fold (findExisting payload (profilesOf w userId)).
  fold (payloadHeadline payload). fold (payloadTheme payload).
  match goal with
  | |- bind ?m _ ?W = _ =>
      assert (m W = (placedWorld dateNow randomUUID userId payload w,
                     Returned (pl.1.1, pl.1.2))) as Hplace
  end.
  { rewrite HW. subst pl k. unfold placed.
    destruct (findExisting payload (profilesOf w userId)) as [[i p]|].
    - unfold bind. rewrite mutateProfile_run. unfold ret, setProfiles.
      simpl. rewrite Tp.
      assert (∀ A C D,
        profilesOf (mkWorld (memoryProfiles (touch userId w)) A C D) userId
        = profilesOf w userId) as ->
        by (intros; exact (profilesOf_touch userId userId w)).
      done.
    - unfold bind, randomId, writeProfiles, ret. simpl. rewrite Tp. done. }
  unfold bind at 1. rewrite Hplace. cbn [fst snd].
  fold (existingLinksOf pl.1.2).
  unfold bind at 1. rewrite HL.
  unfold bind at 1. rewrite mutateProfile_present.
  unfold bind at 1. rewrite readProfile_present, Hl2.
  cbn [from_option Datatypes.id].
  unfold bind at 1. rewrite HA.
  fold (payloadActive payload).
  unfold savedProfiles, activation in Hsaved, Hact |- *. fold pl in Hsaved, Hact |- *.
  change (id (set_links newLinks pl.1.2)) with (id pl.1.2).
  destruct (payloadActive payload).
  - unfold bind at 1. rewrite memoryEnsureSingleActiveProfile_present.
    assert (existsb (λ p, String.eqb (id p) (id pl.1.2))
              (alter (set_links newLinks) pl.1.1 pl.2) = true) as ->.
    { apply existsb_exists. exists (set_links newLinks pl.1.2).
      split; [|apply String.eqb_refl].
      apply list_elem_of_In. by eapply list_elem_of_lookup_2. }
    unfold bind at 1.
    rewrite memoryEnsureHasActiveProfile_present by exact Hact.
    rewrite readProfile_present, Hsaved. cbn [from_option Datatypes.id].
    do 2 f_equal. lia.
  - unfold bind at 1. unfold bind at 1.
    rewrite ensureMemoryProfiles_present.
    destruct (existsb is_active (alter (set_links newLinks) pl.1.1 pl.2)).
    + unfold ret at 1. unfold bind at 1.
      rewrite memoryEnsureHasActiveProfile_present by exact Hact.
      rewrite readProfile_present, Hsaved. cbn [from_option Datatypes.id].
      do 2 f_equal. lia.
    + rewrite mutateProfile_present. unfold bind at 1.
      rewrite memoryEnsureHasActiveProfile_present by exact Hact.
      rewrite readProfile_present, Hsaved. cbn [from_option Datatypes.id].
      do 2 f_equal. lia.
Qed.
End SaveRunFacts.

(** ** Array updates, ids and active flags *)

Section ArrayFacts.
Import ProfileWithLinks.
Implicit Types (ps : list ProfileWithLinks.t) (p : ProfileWithLinks.t).

Lemma profileIds_alter f i ps :
  (∀ p, id (f p) = id p) → profileIds (alter f i ps) = profileIds ps.
Proof.
  intros Hf. unfold profileIds. revert i.
  induction ps as [|p ps IH]; intros [|i]; simpl; [done|done| |].
  - by rewrite Hf.
  - f_equal. apply IH.
Qed.

Lemma countActive_alter f i ps :
  (∀ p, is_active (f p) = is_active p) →
  countActive (alter f i ps) = countActive ps.
Proof.
  intros Hf. revert i.
  induction ps as [|p ps IH]; intros [|i]; simpl; [done|done| |].
  - by rewrite !countActive_cons, Hf.
  - rewrite !countActive_cons. f_equal. apply IH.
Qed.

Lemma countActive_activate i ps :
  countActive ps = 0%nat → (i < length ps)%nat →
  countActive (alter (set_is_active true) i ps) = 1%nat.
Proof.
  revert i. induction ps as [|p ps IH]; intros i H0 Hi; [simpl in Hi; lia|].
  rewrite countActive_cons in H0.
  destruct i as [|i].
  - change (alter (set_is_active true) 0%nat (p :: ps))
      with (set_is_active true p :: ps).
    rewrite countActive_cons. simpl. lia.
  - change (alter (set_is_active true) (S i) (p :: ps))
      with (p :: alter (set_is_active true) i ps).
    rewrite countActive_cons. simpl in Hi. rewrite IH; [|lia|lia].
    destruct (is_active p); simpl in *; lia.
Qed.

Lemma countActive_delete i ps :
  (countActive (delete i ps) ≤ countActive ps)%nat.
Proof.
  revert i. induction ps as [|p ps IH]; intros i; [by destruct i|].
  destruct i as [|i].
  - change (delete 0%nat (p :: ps)) with ps.
    rewrite countActive_cons. lia.
  - change (delete (S i) (p :: ps)) with (p :: delete i ps).
    specialize (IH i). rewrite !countActive_cons. lia.
Qed.

Lemma profileIds_delete i ps :
  profileIds (delete i ps) = delete i (profileIds ps).
Proof.
  unfold profileIds. revert i.
  induction ps as [|p ps IH]; intros [|i]; simpl; [done..|].
  f_equal. apply IH.
Qed.

Lemma profileIds_app ps1 ps2 :
  profileIds (ps1 ++ ps2) = (profileIds ps1 ++ profileIds ps2)%list.
Proof. unfold profileIds. apply fmap_app. Qed.
End ArrayFacts.

(** ** Sequences of operations on the store *)

Inductive Op :=
  | OpSave (userId : string) (payload : ProfilePayload.t)
  | OpActivate (userId profileId : string)
  | OpDelete (userId profileId : string).

Section Traces.
Context (dateNow : nat → Timestamp) (randomUUID : nat → string).
Import ProfileWithLinks.

Definition perform (op : Op) : M unit :=
  match op with
  | OpSave userId payload =>
      saveProfileForUser dateNow randomUUID userId payload ;;; ret tt
  | OpActivate userId profileId =>
      setActiveProfileForUser dateNow userId profileId ;;; ret tt
  | OpDelete userId profileId =>
      deleteProfileForUser dateNow userId profileId
  end.

Fixpoint runOps (ops : list Op) (w : World) : World :=
  match ops with
  | [] => w
  | op :: rest => runOps rest (perform op w).1
  end.

(** Every activation of the sequence returned normally. *)
Fixpoint activationsReturn (ops : list Op) (w : World) : Prop :=
  match ops with
  | [] => True
  | op :: rest =>
      match op with
      | OpActivate _ _ => (perform op w).2 = Returned tt
      | _ => True
      end
      ∧ activationsReturn rest (perform op w).1
  end.

(** Profile ids come from the UUID source, at most one profile of an
    account is active, and no account holds an id twice. *)
Definition wellFormed (w : World) : Prop :=
  ∀ u,
    NoDup (profileIds (profilesOf w u))
    ∧ (∀ x, x ∈ profileIds (profilesOf w u) →
            ∃ k, (k < uuidDraws w)%nat ∧ x = randomUUID k)
    ∧ (countActive (profilesOf w u) ≤ 1)%nat.

Lemma wellFormed_empty : wellFormed emptyWorld.
Proof.
  intros u. unfold profilesOf, emptyWorld. simpl. rewrite lookup_empty.
  simpl. split; [constructor|]. split; [|unfold countActive; simpl; lia].
  intros x Hx. by apply elem_of_nil in Hx.
Qed.

Hypothesis uuid_inj : ∀ i j, randomUUID i = randomUUID j → i = j.

Lemma placed_ids userId payload w :
  profileIds (placed dateNow randomUUID userId payload w).2
  = match findExisting payload (profilesOf w userId) with
    | Some _ => profileIds (profilesOf w userId)
    | None => (profileIds (profilesOf w userId)
               ++ [randomUUID (uuidDraws w)])%list
    end.
Proof.
  unfold placed.
  destruct (findExisting payload (profilesOf w userId)) as [[i p]|]; simpl.
  - by apply profileIds_alter.
  - by rewrite profileIds_app.
Qed.

Lemma placed_count userId payload w :
  countActive (placed dateNow randomUUID userId payload w).2
  = countActive (profilesOf w userId).
Proof.
  unfold placed.
  destruct (findExisting payload (profilesOf w userId)) as [[i p]|]; simpl.
  - by apply countActive_alter.
  - rewrite countActive_app. unfold countActive at 2. simpl. lia.
Qed.

Lemma savedProfiles_ids userId payload w newLinks :
  profileIds (savedProfiles dateNow randomUUID userId payload w newLinks)
  = profileIds (placed dateNow randomUUID userId payload w).2.
Proof.
  unfold savedProfiles, activation.
  destruct (payloadActive payload).
  - rewrite profileIds_promote. by apply profileIds_alter.
  - destruct (existsb _ _).
    + by apply profileIds_alter.
    + rewrite profileIds_alter by done. by apply profileIds_alter.
Qed.

Lemma savedProfiles_count userId payload w newLinks :
  NoDup (profileIds (placed dateNow randomUUID userId payload w).2) →
  (countActive (profilesOf w userId) ≤ 1)%nat →
  countActive (savedProfiles dateNow randomUUID userId payload w newLinks)
  = 1%nat.
Proof.
  intros Hnd Hle.
  pose proof (placed_lookup dateNow randomUUID userId payload w) as Hl.
  pose proof (placed_count userId payload w) as Hc.
  unfold savedProfiles, activation.
  set (pl := placed dateNow randomUUID userId payload w) in *.
  assert (profileIds (alter (set_links newLinks) pl.1.1 pl.2)
          = profileIds pl.2) as Hids by by apply profileIds_alter.
  assert (countActive (alter (set_links newLinks) pl.1.1 pl.2)
          = countActive pl.2) as Hcnt by by apply countActive_alter.
  destruct (payloadActive payload).
  - apply countActive_promote; rewrite Hids; [done|].
    unfold profileIds. apply list_elem_of_fmap. exists pl.1.2.
    split; [done|]. by eapply list_elem_of_lookup_2.
  - destruct (existsb is_active _) eqn:E.
    + apply existsb_active_pos in E. lia.
    + apply existsb_active_count in E.
      apply countActive_activate; [done|].
      rewrite length_alter. by eapply lookup_lt_Some.
Qed.

Lemma placed_wf userId payload w :
  wellFormed w →
  NoDup (profileIds (placed dateNow randomUUID userId payload w).2)
  ∧ ∀ x, x ∈ profileIds (placed dateNow randomUUID userId payload w).2 →
         ∃ k, (k < match findExisting payload (profilesOf w userId) with
                    | Some _ => 0 | None => 1 end + uuidDraws w)%nat
              ∧ x = randomUUID k.
Proof.
  intros Hwf. destruct (Hwf userId) as (Hnd & Hgen & _).
  rewrite placed_ids.
  destruct (findExisting payload (profilesOf w userId)) as [[i p]|].
  - split; [done|]. intros x Hx. destruct (Hgen x Hx) as (k & Hk & ->).
    exists k. split; [lia|done].
  - split.
    + apply NoDup_app. split; [done|]. split; [|apply NoDup_singleton].
      intros x Hx Hx'. apply list_elem_of_singleton in Hx'. subst x.
      destruct (Hgen _ Hx) as (k & Hk & Heq).
      apply uuid_inj in Heq. lia.
    + intros x Hx. apply elem_of_app in Hx as [Hx|Hx].
      * destruct (Hgen x Hx) as (k & Hk & ->). exists k. split; [lia|done].
      * apply list_elem_of_singleton in Hx. subst x.
        exists (uuidDraws w). split; [lia|done].
Qed.

Lemma wellFormed_other userId ps accs c d w :
  wellFormed w →
  NoDup (profileIds ps) →
  (∀ x, x ∈ profileIds ps → ∃ k, (k < d + uuidDraws w)%nat ∧ x = randomUUID k) →
  (countActive ps ≤ 1)%nat →
  wellFormed (mkWorld (<[userId := ps]> (memoryProfiles w)) accs c
                      (d + uuidDraws w)).
Proof.
  intros Hwf Hnd Hgen Hle u. unfold profilesOf. simpl.
  destruct (decide (u = userId)) as [->|Hne].
  - rewrite lookup_insert_eq. simpl. done.
  - rewrite lookup_insert_ne by done.
    destruct (Hwf u) as (Hnd' & Hgen' & Hle'). unfold profilesOf in *.
    split; [done|]. split; [|done].
    intros x Hx. destruct (Hgen' x Hx) as (k & Hk & ->).
    exists k. split; [lia|done].
Qed.

Lemma saveProfileForUser_step userId payload w :
  wellFormed w →
  let r := saveProfileForUser dateNow randomUUID userId payload w in
  wellFormed r.1
  ∧ (∀ u, singleActive (profilesOf w u) → singleActive (profilesOf r.1 u))
  ∧ ((∃ saved, r.2 = Returned saved) →
     singleActive (profilesOf r.1 userId))
  ∧ r.2 ≠ OutOfFuel.
Proof.
  intros Hwf. simpl. unfold saveProfileForUser.
  destruct (Js.truthy userId); simpl;
    [|split; [done|]; split; [done|]; split; [by intros [? ?]|done]].
  destruct (Js.truthy (payloadName payload)) eqn:Hn; cycle 1.
  { unfold memorySaveProfileForUser.
    change (default "" (Js.trim <$> ProfilePayload.name payload))
      with (payloadName payload).
    rewrite Hn. simpl.
    split; [done|]; split; [done|]; split; [by intros [? ?]|done]. }
  destruct (Js.truthy (payloadHandle payload)) eqn:Hh; cycle 1.
  { unfold memorySaveProfileForUser.
    change (default "" (Js.trim <$> ProfilePayload.name payload))
      with (payloadName payload).
    change (normaliseHandle (ProfilePayload.handle payload))
      with (payloadHandle payload).
    rewrite Hn, Hh. simpl.
    split; [done|]; split; [done|]; split; [by intros [? ?]|done]. }
  destruct (memorySaveProfileForUser_run dateNow randomUUID userId payload w
              (conj Hn Hh))
    as (newLinks & dl & accs & d & saved & _ & Hrun & _ & Hd).
  rewrite Hrun. simpl.
  destruct (placed_wf userId payload w Hwf) as (Hnd & Hgen).
  destruct (Hwf userId) as (_ & _ & Hle).
  pose proof (savedProfiles_count userId payload w newLinks Hnd Hle) as Hc.
  pose proof (savedProfiles_ids userId payload w newLinks) as Hids.
  set (sp := savedProfiles dateNow randomUUID userId payload w newLinks)
    in *.
  assert (∀ u, profilesOf
                 (mkWorld (<[userId := sp]> (memoryProfiles w)) accs
                    ((if payloadActive payload then 2 else 1) + clockReads w)
                    (d + uuidDraws w)) u
               = if decide (u = userId) then sp else profilesOf w u) as Hpo.
  { intros u. unfold profilesOf. simpl.
    destruct (decide (u = userId)) as [->|Hne].
    - by rewrite lookup_insert_eq.
    - by rewrite lookup_insert_ne. }
  assert (singleActive sp) as Hsingle.
  { unfold singleActive. rewrite Hc. destruct sp; [|done].
    unfold countActive in Hc. simpl in Hc. lia. }
  split; [|split; [|split; [|done]]].
  - apply wellFormed_other; [done|by rewrite Hids| |lia].
    rewrite Hids. intros x Hx. destruct (Hgen x Hx) as (k & Hk & ->).
    exists k. split; [|done].
    destruct (findExisting payload (profilesOf w userId)); [lia|].
    specialize (Hd eq_refl). lia.
  - intros u Hu. rewrite Hpo. by destruct (decide (u = userId)).
  - intros _. rewrite Hpo. by rewrite decide_True.
Qed.

Lemma setActiveProfileForUser_run userId profileId w :
  ∃ w' out,
    setActiveProfileForUser dateNow userId profileId w = (w', out)
    ∧ (∀ u, profilesOf w' u
            = if decide (u = userId)
              then promote profileId (dateNow (clockReads w))
                     <$> profilesOf w userId
              else profilesOf w u)
    ∧ uuidDraws w' = uuidDraws w
    ∧ (profileId ∈ profileIds (profilesOf w userId) →
       ∃ p, out = Returned p)
    ∧ (profileId ∉ profileIds (profilesOf w userId) →
       out = Thrown "Profile not found").
Proof.
  unfold setActiveProfileForUser, memorySetActiveProfileForUser.
  unfold bind at 1. rewrite memoryEnsureSingleActiveProfile_run.
  set (ps' := promote profileId (dateNow (clockReads w))
                <$> profilesOf w userId).
  destruct (existsb _ (profilesOf w userId)) eqn:Ex.
  - apply existsb_id_elem in Ex.
    unfold bind. rewrite ensureMemoryProfiles_run.
    rewrite touch_setProfiles, profilesOf_setProfiles_eq.
    destruct (list_find (λ p, ProfileWithLinks.id p = profileId) ps')
      as [[i p]|] eqn:Ef.
    + eexists _, _. split; [reflexivity|].
      split; [intros u; by rewrite profilesOf_setProfiles|].
      split; [done|]. split; [by eexists|]. by intros Hn.
    + exfalso. apply list_find_None in Ef.
      rewrite <- (profileIds_promote profileId (dateNow (clockReads w)))
        in Ex.
      fold ps' in Ex. unfold profileIds in Ex.
      apply list_elem_of_fmap in Ex as (p & Hp & Hin).
      eapply Forall_forall in Ef; [|exact Hin]. by apply Ef.
  - eexists _, _. split; [reflexivity|].
    split; [intros u; by rewrite profilesOf_setProfiles|].
    split; [done|]. split; [|done].
    intros Hin. apply existsb_id_elem in Hin. congruence.
Qed.

Lemma setActiveProfileForUser_step userId profileId w :
  wellFormed w →
  let r := setActiveProfileForUser dateNow userId profileId w in
  wellFormed r.1
  ∧ ((∃ p, r.2 = Returned p) →
     ∀ u, singleActive (profilesOf w u) → singleActive (profilesOf r.1 u))
  ∧ ((∃ p, r.2 = Returned p) → singleActive (profilesOf r.1 userId))
  ∧ r.2 ≠ OutOfFuel.
Proof.
  intros Hwf. simpl.
  destruct (setActiveProfileForUser_run userId profileId w)
    as (w' & out & Hrun & Hpo & Hdr & Hin & Hout).
  rewrite Hrun. simpl.
  destruct (Hwf userId) as (Hnd & Hgen & Hle).
  assert ((∃ p, out = Returned p) →
          singleActive (profilesOf w' userId)) as Hsingle.
  { intros [p ->].
    destruct (decide (profileId ∈ profileIds (profilesOf w userId)))
      as [Hi|Hn]; [|by specialize (Hout Hn)].
    rewrite Hpo, decide_True by done. unfold singleActive.
    rewrite countActive_promote by done.
    destruct (profilesOf w userId) as [|p0 ps0] eqn:E; [|done].
    by apply elem_of_nil in Hi. }
  split; [|split; [|split; [done|]]].
  - intros u. rewrite Hpo, Hdr.
    destruct (decide (u = userId)) as [->|Hne]; [|apply Hwf].
    rewrite profileIds_promote. split; [done|]. split; [done|].
    destruct (decide (profileId ∈ profileIds (profilesOf w userId)))
      as [Hi|Hn].
    + by rewrite countActive_promote.
    + rewrite promote_absent by done.
      rewrite countActive_all_inactive. lia.
  - intros Hret u Hu. destruct (decide (u = userId)) as [->|Hne].
    + by apply Hsingle.
    + rewrite Hpo. by rewrite decide_False.
  - destruct (decide (profileId ∈ profileIds (profilesOf w userId)))
      as [Hi|Hn].
    + destruct (Hin Hi) as [p ->]. done.
    + rewrite (Hout Hn). done.
Qed.

Lemma deleteProfileForUser_step userId profileId w :
  wellFormed w →
  let r := deleteProfileForUser dateNow userId profileId w in
  wellFormed r.1
  ∧ (∀ u, singleActive (profilesOf w u) → singleActive (profilesOf r.1 u))
  ∧ r.2 ≠ OutOfFuel.
Proof.
  intros Hwf. simpl. unfold deleteProfileForUser.
  destruct (negb (Js.truthy userId) || negb (Js.truthy profileId));
    [done|].
  unfold memoryDeleteProfileForUser, bind.
  rewrite ensureMemoryProfiles_run.
  destruct (list_find (λ p, ProfileWithLinks.id p = profileId)
              (profilesOf w userId)) as [[i p]|] eqn:Ef.
  - rewrite writeProfiles_run, setProfiles_touch.
    rewrite memoryEnsureHasActiveProfile_run. simpl.
    destruct (Hwf userId) as (Hnd & Hgen & Hle).
    set (ps := profilesOf w userId) in *.
    assert (∀ u, profilesOf
                   (repairWorld dateNow userId
                      (setProfiles userId (delete i ps) w)) u
                 = if decide (u = userId)
                   then repair (dateNow (clockReads w)) (delete i ps)
                   else profilesOf w u) as Hpo.
    { intros u. rewrite profilesOf_repairWorld.
      destruct (decide (u = userId)) as [->|Hne].
      - by rewrite profilesOf_setProfiles_eq.
      - by rewrite profilesOf_setProfiles_ne. }
    assert (singleActive (repair (dateNow (clockReads w)) (delete i ps)))
      as Hsingle.
    { apply repair_count. pose proof (countActive_delete i ps). lia. }
    split; [|split; [|done]].
    + intros u. rewrite Hpo, repairWorld_draws. simpl.
      destruct (decide (u = userId)) as [->|Hne]; [|apply Hwf].
      rewrite repair_ids, profileIds_delete.
      split; [|split; [|by apply singleActive_le]].
      * exact (sublist_NoDup _ _ Hnd (sublist_delete _ _)).
      * intros x Hx. apply Hgen. revert Hx. generalize (profileIds ps).
        generalize i. clear.
        intros i l. revert i.
        induction l as [|y l IH]; intros [|i] Hx; try done.
        -- by apply elem_of_cons; right.
        -- change (delete (S i) (y :: l)) with (y :: delete i l) in Hx.
           apply elem_of_cons in Hx as [->|Hx]; [by left|].
           right. by eapply IH.
    + intros u Hu. rewrite Hpo.
      by destruct (decide (u = userId)) as [->|Hne].
  - simpl. split; [|split; [|done]].
    + intros u. rewrite profilesOf_touch.
      assert (uuidDraws (touch userId w) = uuidDraws w) as ->;
        [|apply Hwf].
      unfold touch. by destruct (memoryProfiles w !! userId).
    + intros u Hu. by rewrite profilesOf_touch.
Qed.
End Traces.

Section TraceInvariant.
Context (dateNow : nat → Timestamp) (randomUUID : nat → string).
Hypothesis uuid_inj : ∀ i j, randomUUID i = randomUUID j → i = j.

Lemma perform_step op w :
  wellFormed randomUUID w →
  let r := perform dateNow randomUUID op w in
  wellFormed randomUUID r.1
  ∧ (match op with
     | OpActivate _ _ => r.2 = Returned tt
     | _ => True
     end →
     ∀ u, singleActive (profilesOf w u) → singleActive (profilesOf r.1 u))
  ∧ r.2 ≠ OutOfFuel.
Proof.
  intros Hwf. destruct op as [userId payload|userId profileId|userId profileId];
    simpl; unfold bind.
  - destruct (saveProfileForUser_step dateNow randomUUID uuid_inj
                userId payload w Hwf) as (H1 & H2 & _ & H4).
    destruct (saveProfileForUser dateNow randomUUID userId payload w)
      as [w' [saved|msg|]]; simpl in *; done.
  - destruct (setActiveProfileForUser_step dateNow randomUUID
                userId profileId w Hwf) as (H1 & H2 & _ & H4).
    destruct (setActiveProfileForUser dateNow userId profileId w)
      as [w' [saved|msg|]]; simpl in *; [|done|done].
    split; [done|]. split; [|done]. intros _. apply H2. by eexists.
  - destruct (deleteProfileForUser_step dateNow randomUUID
                userId profileId w Hwf) as (H1 & H2 & H4).
    done.
Qed.

Lemma runOps_invariant ops :
  ∀ w, wellFormed randomUUID w →
    wellFormed randomUUID (runOps dateNow randomUUID ops w)
    ∧ ((∀ u, singleActive (profilesOf w u)) →
       activationsReturn dateNow randomUUID ops w →
       ∀ u, singleActive
              (profilesOf (runOps dateNow randomUUID ops w) u)).
Proof.
  induction ops as [|op ops IH]; intros w Hwf; simpl; [done|].
  destruct (perform_step op w Hwf) as (Hwf' & Hs & _).
  destruct (IH _ Hwf') as (IH1 & IH2).
  split; [done|]. intros Hall [Hop Hrest]. apply IH2; [|done].
  intros u. apply Hs; [|done]. by destruct op.
Qed.
End TraceInvariant.

(** ** The single-active-profile invariant *)

(** C1, as the specification states it, fails: after a save and an
    activation of an unknown profile id the account has one profile and no
    active one, and a following delete of an unknown id returns normally
    and leaves it so. *)
Lemma single_active_counterexample :
  let ops := [OpSave "acc_1" Scenario.jess; OpActivate "acc_1" "nope"] in
  let w := runOps Scenario.clock Scenario.uuid ops emptyWorld in
  let r := perform Scenario.clock Scenario.uuid (OpDelete "acc_1" "nope") w in
  ¬ singleActive (profilesOf w "acc_1")
  ∧ r.2 = Returned tt
  ∧ ¬ singleActive (profilesOf r.1 "acc_1").
Proof.
  simpl. split; [|split].
  - vm_compute. discriminate.
  - by vm_compute.
  - vm_compute. discriminate.
Qed.

(** C1, amended.  Starting from the empty store, with a UUID source that
    never repeats, after every sequence of save, activate and delete
    operations each account has at most one active profile; and if no
    activation of the sequence threw, each account has exactly one active
    profile when it has a profile and none when it has no profile. *)
Theorem single_active_invariant
    (dateNow : nat → Timestamp) (randomUUID : nat → string)
    (ops : list Op) (userId : string) :
  (∀ i j, randomUUID i = randomUUID j → i = j) →
  let w := runOps dateNow randomUUID ops emptyWorld in
  (countActive (profilesOf w userId) ≤ 1)%nat
  ∧ (activationsReturn dateNow randomUUID ops emptyWorld →
     singleActive (profilesOf w userId)).
Proof.
  intros Hinj. simpl.
  destruct (runOps_invariant dateNow randomUUID Hinj ops emptyWorld
              (wellFormed_empty randomUUID)) as (Hwf & Hs).
  split; [apply Hwf|]. intros Hact. apply Hs; [|done].
  intros u. unfold profilesOf, emptyWorld. simpl. by rewrite lookup_empty.
Qed.

Lemma single_active_invariant_witness :
  let ops := [OpSave "acc_1" Scenario.jess; OpSave "acc_1" Scenario.work;
              OpActivate "acc_1" "id-0"; OpDelete "acc_1" "id-0"] in
  let w := runOps Scenario.clock Scenario.uuid ops emptyWorld in
  length (profilesOf w "acc_1") = 1%nat
  ∧ activationsReturn Scenario.clock Scenario.uuid ops emptyWorld
  ∧ singleActive (profilesOf w "acc_1").
Proof.
  cbv zeta. split; [by vm_compute|].
  assert (activationsReturn Scenario.clock Scenario.uuid
            [OpSave "acc_1" Scenario.jess; OpSave "acc_1" Scenario.work;
             OpActivate "acc_1" "id-0"; OpDelete "acc_1" "id-0"] emptyWorld)
    as Hact by (vm_compute; tauto).
  split; [exact Hact|].
  exact (proj2 (single_active_invariant Scenario.clock Scenario.uuid
                  [OpSave "acc_1" Scenario.jess; OpSave "acc_1" Scenario.work;
                   OpActivate "acc_1" "id-0"; OpDelete "acc_1" "id-0"]
                  "acc_1" Scenario_uuid_inj) Hact).
Defined.

(** ** The saved profile *)

Section SavedProfile.
Context (dateNow : nat → Timestamp) (randomUUID : nat → string).
Import ProfileWithLinks.

(** Two profiles that differ at most in [is_active] and [updated_at]. *)
Definition sameContent (p q : ProfileWithLinks.t) : Prop :=
  id p = id q ∧ user_id p = user_id q ∧ name p = name q
  ∧ handle p = handle q ∧ headline p = headline q ∧ theme p = theme q
  ∧ created_at p = created_at q ∧ links p = links q.

Lemma savedProfiles_content userId payload w newLinks saved :
  savedProfiles dateNow randomUUID userId payload w newLinks
    !! (placed dateNow randomUUID userId payload w).1.1 = Some saved →
  sameContent saved
    (set_links newLinks (placed dateNow randomUUID userId payload w).1.2).
Proof.
  unfold savedProfiles, activation.
  pose proof (placed_lookup dateNow randomUUID userId payload w) as Hl.
  set (pl := placed dateNow randomUUID userId payload w) in *.
  assert (alter (set_links newLinks) pl.1.1 pl.2 !! pl.1.1
          = Some (set_links newLinks pl.1.2)) as Hl2.
  { rewrite list_lookup_alter, decide_True by done. by rewrite Hl. }
  destruct (payloadActive payload).
  - rewrite list_lookup_fmap, Hl2. simpl. intros [= <-].
    unfold promote. by destruct (String.eqb _ _).
  - destruct (existsb _ _).
    + rewrite Hl2. by intros [= <-].
    + rewrite list_lookup_alter, decide_True by done. rewrite Hl2.
      by intros [= <-].
Qed.

Lemma placed_profile userId payload w :
  let profile := (placed dateNow randomUUID userId payload w).1.2 in
  name profile = payloadName payload
  ∧ handle profile = payloadHandle payload
  ∧ headline profile = payloadHeadline payload
  ∧ theme profile = payloadTheme payload
  ∧ updated_at profile = dateNow (clockReads w).
Proof.
  unfold placed.
  by destruct (findExisting payload (profilesOf w userId)) as [[i p]|].
Qed.

(** A save whose payload passes the two guards returns the saved
    profile; it is an element of the account's array and carries the
    normalised handle. *)
Lemma saveProfileForUser_returns userId payload w :
  Js.truthy userId = true → validPayload payload →
  ∃ w' saved,
    saveProfileForUser dateNow randomUUID userId payload w
    = (w', Returned saved)
    ∧ saved ∈ profilesOf w' userId
    ∧ name saved = payloadName payload
    ∧ handle saved = normaliseHandle (ProfilePayload.handle payload).
Proof.
  intros Hu Hv. unfold saveProfileForUser. rewrite Hu. simpl.
  destruct (memorySaveProfileForUser_run dateNow randomUUID userId payload w
              Hv)
    as (newLinks & dl & accs & d & saved & _ & Hrun & Hsaved & _).
  rewrite Hrun. eexists _, saved. split; [done|].
  destruct (savedProfiles_content _ _ _ _ _ Hsaved)
    as (_ & _ & Hn & Hh & _).
  destruct (placed_profile userId payload w) as (Hn' & Hh' & _).
  split; [|split].
  - unfold profilesOf. simpl. rewrite lookup_insert_eq. simpl.
    by eapply list_elem_of_lookup_2.
  - rewrite Hn. exact Hn'.
  - rewrite Hh. exact Hh'.
Qed.
End SavedProfile.

(** ** First-profile activation and explicit activation *)

(** C3.  On an account without profiles, a save that passes validation and
    does not set [active] returns the new profile with [is_active] true.
    A following save that creates a second profile with [active] true
    returns it with [is_active] true and leaves the first one stored with
    [is_active] false. *)
Theorem first_profile_then_explicit_activation
    (dateNow : nat → Timestamp) (randomUUID : nat → string)
    (userId : string) (p1 p2 : ProfilePayload.t) (w : World) :
  (∀ i j, randomUUID i = randomUUID j → i = j) →
  Js.truthy userId = true →
  profilesOf w userId = [] →
  validPayload p1 → payloadActive p1 = false →
  validPayload p2 → ProfilePayload.id p2 = None → payloadActive p2 = true →
  ∃ w1 first w2 second,
    saveProfileForUser dateNow randomUUID userId p1 w = (w1, Returned first)
    ∧ ProfileWithLinks.is_active first = true
    ∧ profilesOf w1 userId = [first]
    ∧ saveProfileForUser dateNow randomUUID userId p2 w1
      = (w2, Returned second)
    ∧ ProfileWithLinks.is_active second = true
    ∧ profilesOf w2 userId
      = [ProfileWithLinks.set_is_active false first; second].
Proof.
  intros Hinj Hu Hempty Hv1 Ha1 Hv2 Hid2 Ha2.
  unfold saveProfileForUser. rewrite Hu. simpl.
  destruct (memorySaveProfileForUser_run dateNow randomUUID userId p1 w Hv1)
    as (nl1 & dl1 & accs1 & d1 & first & _ & Hrun1 & Hs1 & Hd1).
  assert (findExisting p1 (profilesOf w userId) = None) as Hf1.
  { rewrite Hempty. unfold findExisting.
    destruct (ProfilePayload.id p1) as [pid|]; [|done].
    by destruct (Js.truthy pid). }
  specialize (Hd1 Hf1).
  assert (savedProfiles dateNow randomUUID userId p1 w nl1 = [first]
          ∧ ProfileWithLinks.is_active first = true
          ∧ ProfileWithLinks.id first = randomUUID (uuidDraws w))
    as (Hsp1 & Hact1 & Hid1).
  { revert Hs1. unfold savedProfiles, activation, placed.
    rewrite Hf1, Ha1, Hempty. simpl. intros [= <-]. done. }
  set (w1 := mkWorld (<[userId := savedProfiles dateNow randomUUID userId p1
                                    w nl1]> (memoryProfiles w)) accs1
               ((if payloadActive p1 then 2 else 1) + clockReads w)%nat
               (d1 + uuidDraws w)%nat).
  assert (profilesOf w1 userId = [first]) as Hpo1.
  { unfold profilesOf, w1. simpl. by rewrite lookup_insert_eq, Hsp1. }
  destruct (memorySaveProfileForUser_run dateNow randomUUID userId p2 w1 Hv2)
    as (nl2 & dl2 & accs2 & d2 & second & _ & Hrun2 & Hs2 & _).
  assert (findExisting p2 (profilesOf w1 userId) = None) as Hf2.
  { unfold findExisting. by rewrite Hid2. }
  assert (savedProfiles dateNow randomUUID userId p2 w1 nl2
          = [ProfileWithLinks.set_is_active false first; second]
          ∧ ProfileWithLinks.is_active second = true) as (Hsp2 & Hact2).
  { revert Hs2. unfold savedProfiles, activation, placed.
    rewrite Hf2, Ha2, Hpo1. simpl. unfold promote. simpl.
    rewrite String.eqb_refl.
    destruct (String.eqb (ProfileWithLinks.id first)
                (randomUUID (d1 + uuidDraws w))) eqn:E.
    - apply String.eqb_eq in E. rewrite Hid1 in E. apply Hinj in E. lia.
    - intros [= <-]. done. }
  eexists w1, first, _, second.
  split; [exact Hrun1|]. split; [done|]. split; [done|].
  split; [exact Hrun2|]. split; [done|].
  unfold profilesOf. simpl. by rewrite lookup_insert_eq, Hsp2.
Qed.

Lemma first_profile_then_explicit_activation_witness :
  ∃ w1 first w2 second,
    saveProfileForUser Scenario.clock Scenario.uuid "acc_1" Scenario.jess
      emptyWorld = (w1, Returned first)
    ∧ ProfileWithLinks.is_active first = true
    ∧ profilesOf w1 "acc_1" = [first]
    ∧ saveProfileForUser Scenario.clock Scenario.uuid "acc_1" Scenario.work w1
      = (w2, Returned second)
    ∧ ProfileWithLinks.is_active second = true
    ∧ profilesOf w2 "acc_1"
      = [ProfileWithLinks.set_is_active false first; second].
Proof.
  apply (first_profile_then_explicit_activation Scenario.clock Scenario.uuid
           "acc_1" Scenario.jess Scenario.work emptyWorld).
  - exact Scenario_uuid_inj.
  - reflexivity.
  - reflexivity.
  - split; reflexivity.
  - reflexivity.
  - split; reflexivity.
  - reflexivity.
  - reflexivity.
Defined.

(** ** Deleting the active profile *)

(** Modelled from the spec: the profile that the repair step is said to
    promote, "the most-recently-updated remaining profile" (the database
    branch selects it with [order("updated_at", { ascending: false })
    .limit(1)]).  Among equal instants the earliest in the list is kept. *)
Fixpoint specMostRecentlyUpdated (profiles : list ProfileWithLinks.t)
  : option ProfileWithLinks.t :=
  match profiles with
  | [] => None
  | p :: rest =>
      match specMostRecentlyUpdated rest with
      | Some q =>
          if (ProfileWithLinks.updated_at p <? ProfileWithLinks.updated_at q)%N
          then Some q else Some p
      | None => Some p
      end
  end.

Module DeleteScenario.
Definition second : ProfilePayload.t :=
  ProfilePayload.mk None (Some "Second") "second" None None None None.
Definition third : ProfilePayload.t :=
  ProfilePayload.mk None (Some "Third") "third" None None None None.

(** Three saves on the empty store: "id-0" (active), "id-2", "id-3". *)
Definition threeProfiles : World :=
  runOps Scenario.clock Scenario.uuid
    [OpSave "acc_1" Scenario.jess; OpSave "acc_1" second;
     OpSave "acc_1" third] emptyWorld.

Definition summary (p : ProfileWithLinks.t) : string * bool * Timestamp :=
  (ProfileWithLinks.id p, ProfileWithLinks.is_active p,
   ProfileWithLinks.updated_at p).
End DeleteScenario.

(** What a delete that finds the profile leaves for the account: the array
    without the element, repaired by [memoryEnsureHasActiveProfile], which
    activates the element at position 0 when none is active. *)
Lemma deleteProfileForUser_found
    (dateNow : nat → Timestamp) (userId profileId : string) (w : World)
    (i : nat) (p : ProfileWithLinks.t) :
  Js.truthy userId = true → Js.truthy profileId = true →
  list_find (λ q, ProfileWithLinks.id q = profileId) (profilesOf w userId)
  = Some (i, p) →
  let r := deleteProfileForUser dateNow userId profileId w in
  r.2 = Returned tt
  ∧ profilesOf r.1 userId
    = repair (dateNow (clockReads w)) (delete i (profilesOf w userId)).
Proof.
  intros Hu Hp Hf. simpl. unfold deleteProfileForUser. rewrite Hu, Hp. simpl.
  unfold memoryDeleteProfileForUser, bind.
  rewrite ensureMemoryProfiles_run, Hf.
  rewrite writeProfiles_run, setProfiles_touch.
  rewrite memoryEnsureHasActiveProfile_run. simpl. split; [done|].
  rewrite profilesOf_repairWorld, decide_True by done.
  by rewrite profilesOf_setProfiles_eq.
Qed.

(** With exactly two profiles, the first active and the second not,
    deleting the first makes the second active. *)
Lemma delete_active_of_two
    (dateNow : nat → Timestamp) (userId : string) (w : World)
    (p1 p2 : ProfileWithLinks.t) :
  Js.truthy userId = true → Js.truthy (ProfileWithLinks.id p1) = true →
  profilesOf w userId = [p1; p2] →
  ProfileWithLinks.is_active p2 = false →
  profilesOf
    (deleteProfileForUser dateNow userId (ProfileWithLinks.id p1) w).1 userId
  = [ProfileWithLinks.set_updated_at (dateNow (clockReads w))
       (ProfileWithLinks.set_is_active true p2)].
Proof.
  intros Hu Hp Hps Ha.
  destruct (deleteProfileForUser_found dateNow userId
              (ProfileWithLinks.id p1) w 0%nat p1 Hu Hp) as (_ & Hr).
  { rewrite Hps. simpl. by rewrite decide_True. }
  rewrite Hr, Hps. simpl. unfold repair. simpl. by rewrite Ha.
Qed.

(** C2, at the failing input.  The account holds "id-0" (active, updated
    at 1000), "id-2" (updated at 1001) and "id-3" (updated at 1002).
    After [deleteProfileForUser "acc_1" "id-0"] the most recently updated
    remaining profile is "id-3", yet the store has activated "id-2", the
    remaining profile at position 0. *)
Theorem delete_active_promotes_first_remaining :
  let w := DeleteScenario.threeProfiles in
  let r := deleteProfileForUser Scenario.clock "acc_1" "id-0" w in
  DeleteScenario.summary <$> profilesOf w "acc_1"
  = [("id-0", true, 1000%N); ("id-2", false, 1001%N); ("id-3", false, 1002%N)]
  ∧ ProfileWithLinks.id
      <$> specMostRecentlyUpdated (delete 0%nat (profilesOf w "acc_1"))
    = Some "id-3"
  ∧ r.2 = Returned tt
  ∧ (λ p, (ProfileWithLinks.id p, ProfileWithLinks.is_active p))
      <$> profilesOf r.1 "acc_1"
    = [("id-2", true); ("id-3", false)].
Proof. cbv zeta. repeat split; by vm_compute. Qed.

(** ** Handles *)

Module HandleScenario.
Definition mine : ProfilePayload.t :=
  ProfilePayload.mk None (Some "Mine") " My-Handle " None None None None.
Definition other : ProfilePayload.t :=
  ProfilePayload.mk None (Some "Other") "MY-HANDLE" None None None None.
Definition returnedHandle (o : Outcome ProfileWithLinks.t)
  : option string :=
  match o with
  | Returned p => Some (ProfileWithLinks.handle p)
  | _ => None
  end.
End HandleScenario.

(** C4, at the failing input.  The handle " My-Handle " is stored as
    "my-handle".  The following save of another new profile of the same
    account with handle "MY-HANDLE" is not rejected: it returns, and the
    account then holds two profiles with handle "my-handle". *)
Theorem duplicate_handle_is_persisted :
  let r1 := saveProfileForUser Scenario.clock Scenario.uuid "acc_1"
              HandleScenario.mine emptyWorld in
  let r2 := saveProfileForUser Scenario.clock Scenario.uuid "acc_1"
              HandleScenario.other r1.1 in
  HandleScenario.returnedHandle r1.2 = Some "my-handle"
  ∧ HandleScenario.returnedHandle r2.2 = Some "my-handle"
  ∧ (λ p, (ProfileWithLinks.id p, ProfileWithLinks.handle p))
      <$> profilesOf r2.1 "acc_1"
    = [("id-0", "my-handle"); ("id-1", "my-handle")].
Proof. simpl. repeat split; by vm_compute. Qed.

(** ** Sorting *)

Lemma insertBy_perm {A} (cmp : A → A → Z) (x : A) (l : list A) :
  insertBy cmp x l ≡ₚ x :: l.
Proof.
  induction l as [|y l IH]; simpl; [done|].
  destruct (cmp x y <=? 0)%Z; [done|].
  rewrite IH. apply Permutation_swap.
Qed.

Lemma sortBy_perm {A} (cmp : A → A → Z) (l : list A) : sortBy cmp l ≡ₚ l.
Proof.
  induction l as [|x l IH]; simpl; [done|].
  rewrite insertBy_perm. by rewrite IH.
Qed.

Lemma NoDup_fmap_same {A B} (f : A → B) (l : list A) (x y : A) :
  NoDup (f <$> l) → x ∈ l → y ∈ l → f x = f y → x = y.
Proof.
  induction l as [|z l IH]; intros Hnd Hx Hy Hf.
  - by apply elem_of_nil in Hx.
  - rewrite fmap_cons in Hnd. apply NoDup_cons in Hnd as [Hz Hnd].
    apply elem_of_cons in Hx as [->|Hx]; apply elem_of_cons in Hy as [->|Hy].
    + done.
    + exfalso. apply Hz. rewrite Hf. apply list_elem_of_fmap. by exists y.
    + exfalso. apply Hz. rewrite <- Hf. apply list_elem_of_fmap. by exists x.
    + by apply IH.
Qed.

(** ** Full replacement of the links *)

Module LinkScenario.
Definition linkA : LinkPayload.t :=
  LinkPayload.mk None (Some "A") (Some "https://a").
Definition linkB : LinkPayload.t :=
  LinkPayload.mk None (Some "B") (Some "https://b").

Definition shown (l : ProfileLinkRecord.t) : string * string * Z :=
  (ProfileLinkRecord.title l, ProfileLinkRecord.url l,
   ProfileLinkRecord.order_index l).

(** An earlier save of "acc_1" with three other links, and the save that
    replaces them. *)
Definition before : ProfilePayload.t :=
  ProfilePayload.mk None (Some "Jess") "jess" None None
    (Some [LinkPayload.mk None (Some "X") (Some "https://x");
           LinkPayload.mk None (Some "Y") (Some "https://y");
           LinkPayload.mk None (Some "Z") (Some "https://z")])
    None.
Definition replace : ProfilePayload.t :=
  ProfilePayload.mk (Some "id-0") (Some "Jess") "jess" None None
    (Some [linkA; linkB]) None.
Definition stored : World :=
  (saveProfileForUser Scenario.clock Scenario.uuid "acc_1" before
     emptyWorld).1.
End LinkScenario.

Section LinkReplace.
Context (dateNow : nat → Timestamp) (randomUUID : nat → string).

Lemma saveLinks_A_B userId profileId now existingLinks W :
  mapMi (saveLink randomUUID userId profileId now existingLinks) 0
        [LinkScenario.linkA; LinkScenario.linkB] W
  = (withEnv (memoryAccounts W) 2 W,
     Returned
       [ProfileLinkRecord.mk (randomUUID (uuidDraws W)) profileId userId
          "A" "https://a" 0 true now (Some now);
        ProfileLinkRecord.mk (randomUUID (S (uuidDraws W))) profileId
          userId "B" "https://b" 1 true now (Some now)]).
Proof. by destruct W. Qed.
End LinkReplace.

(** C5.  Whatever the store holds, a save that passes validation and
    carries the links [{title:"A",url:"https://a"},{title:"B",url:"https://b"}]
    returns, and [getProfilesForUser] then returns a list containing the
    saved profile, whose links are exactly A then B with order indexes 0
    and 1; sorting them with [byOrder] keeps that order.  When profile ids
    are distinct (well-formed store, UUIDs never repeated) it is the only
    loaded profile with that id. *)
Theorem full_replace_links_round_trip
    (dateNow : nat → Timestamp) (randomUUID : nat → string)
    (userId : string) (payload : ProfilePayload.t) (w : World) :
  Js.truthy userId = true →
  validPayload payload →
  ProfilePayload.links payload
  = Some [LinkScenario.linkA; LinkScenario.linkB] →
  ∃ w1 saved w2 loaded,
    saveProfileForUser dateNow randomUUID userId payload w
    = (w1, Returned saved)
    ∧ getProfilesForUser userId w1 = (w2, Returned loaded)
    ∧ saved ∈ loaded
    ∧ LinkScenario.shown <$> ProfileWithLinks.links saved
      = [("A", "https://a", 0%Z); ("B", "https://b", 1%Z)]
    ∧ sortBy byOrder (ProfileWithLinks.links saved)
      = ProfileWithLinks.links saved
    ∧ ((∀ i j, randomUUID i = randomUUID j → i = j) →
       wellFormed randomUUID w →
       ∀ p, p ∈ loaded →
            ProfileWithLinks.id p = ProfileWithLinks.id saved → p = saved).
Proof.
  intros Hu Hv Hlinks.
  destruct (memorySaveProfileForUser_run dateNow randomUUID userId payload w
              Hv)
    as (newLinks & dl & accs & d & saved & HL & Hrun & Hsaved & _).
  unfold savedLinks in HL. rewrite Hlinks in HL.
  cbn [from_option Datatypes.id] in HL.
  rewrite saveLinks_A_B in HL.
  apply (f_equal snd) in HL. cbn [snd] in HL. injection HL as HnewLinks.
  destruct (savedProfiles_content _ _ _ _ _ _ _ Hsaved)
    as (_ & _ & _ & _ & _ & _ & _ & Hlk).
  simpl in Hlk.
  set (sp := savedProfiles dateNow randomUUID userId payload w newLinks) in *.
  set (w1 := mkWorld (<[userId := sp]> (memoryProfiles w)) accs
               ((if payloadActive payload then 2 else 1) + clockReads w)%nat
               (d + uuidDraws w)%nat) in *.
  assert (profilesOf w1 userId = sp) as Hpo.
  { unfold profilesOf, w1. simpl. by rewrite lookup_insert_eq. }
  assert (saved ∈ sp) as Hin by by eapply list_elem_of_lookup_2.
  exists w1, saved. eexists _, _.
  split; [unfold saveProfileForUser; rewrite Hu; exact Hrun|].
  split.
  { unfold getProfilesForUser. rewrite Hu. simpl.
    unfold memoryGetProfiles, bind. rewrite ensureMemoryProfiles_run.
    reflexivity. }
  rewrite Hpo. split; [by rewrite sortBy_perm|].
  rewrite Hlk, <- HnewLinks. split; [reflexivity|]. split; [reflexivity|].
  intros Hinj Hwf p Hp Hid. rewrite sortBy_perm in Hp.
  apply (NoDup_fmap_same ProfileWithLinks.id sp); [|done..].
  fold (profileIds sp). unfold sp. rewrite savedProfiles_ids.
  by apply placed_wf.
Qed.

Lemma full_replace_links_round_trip_witness :
  ∃ w1 saved w2 loaded,
    saveProfileForUser Scenario.clock Scenario.uuid "acc_1"
      LinkScenario.replace LinkScenario.stored = (w1, Returned saved)
    ∧ getProfilesForUser "acc_1" w1 = (w2, Returned loaded)
    ∧ loaded = [saved]
    ∧ LinkScenario.shown <$> ProfileWithLinks.links saved
      = [("A", "https://a", 0%Z); ("B", "https://b", 1%Z)].
Proof.
  destruct (full_replace_links_round_trip Scenario.clock Scenario.uuid
              "acc_1" LinkScenario.replace LinkScenario.stored)
    as (w1 & saved & w2 & loaded & Hs & Hl & _ & Hshown & _).
  - reflexivity.
  - split; reflexivity.
  - reflexivity.
  - exists w1, saved, w2, loaded.
    split; [exact Hs|]. split; [exact Hl|]. split; [|exact Hshown].
    vm_compute in Hs. injection Hs as <- <-.
    vm_compute in Hl. by injection Hl as <- <-.
Defined.

(** * Lead form builder: field keys *)

Module LeadFormBuilder.

Inductive FieldType := text | email | phone | textarea | select | checkbox.

Record FieldValidation := mkValidation {
  minLength : option nat;
  emailFormat : option bool;
}.

(** [Omit<BuilderField, "id">] *)
Record FieldDraft := mkDraft {
  draft_key : string;
  draft_label : string;
  draft_type : FieldType;
  draft_required : bool;
  draft_enabled : bool;
  draft_hidden : bool;
  draft_placeholder : string;
  draft_options : list string;
  draft_validation : FieldValidation;
}.

Record BuilderField := mkField {
  id : string;
  key : string;
  label : string;
  type : FieldType;
  required : bool;
  enabled : bool;
  hidden : bool;
  placeholder : string;
  options : list string;
  validation : FieldValidation;
}.

(** [{ ...field, key: nextKey }] *)
Definition withKey (nextKey : string) (field : BuilderField)
  : BuilderField :=
  mkField (id field) nextKey (label field) (type field) (required field)
          (enabled field) (hidden field) (placeholder field)
          (options field) (validation field).

(** The class [[a-z0-9_]] of the regular expressions of [normalizeKey]. *)
Definition isKeyChar (c : ascii) : bool :=
  let n := N_of_ascii c in
  ((97 <=? n) && (n <=? 122) || (48 <=? n) && (n <=? 57) || (n =? 95))%N.

(** [.replace(/[^a-z0-9_]+/g, "_")]: each maximal run of other
    characters becomes one underscore.  [inRun] tells that the previous
    character belonged to such a run. *)
Fixpoint replaceRuns (inRun : bool) (s : string) : string :=
  match s with
  | EmptyString => EmptyString
  | String c r =>
      if isKeyChar c then String c (replaceRuns false r)
      else if inRun then replaceRuns true r
           else String "_" (replaceRuns true r)
  end.

Fixpoint dropUnderscores (s : string) : string :=
  match s with
  | String "_" r => dropUnderscores r
  | _ => s
  end.

(** [.replace(/^_+|_+$/g, "")] *)
Definition stripUnderscores (s : string) : string :=
  String.rev (dropUnderscores (String.rev (dropUnderscores s))).

Definition normalizeKey (value : string) : string :=
  Js.slice0 40
    (stripUnderscores (replaceRuns false (Js.toLowerCase (Js.trim value)))).

Definition ensureFieldDefaults (field : FieldDraft) : FieldDraft :=
  mkDraft
    (Js.orElse (draft_key field)
       (normalizeKey (Js.orElse (draft_label field) "field")))
    (Js.orElse (draft_label field) "Field")
    (draft_type field) (draft_required field) (draft_enabled field)
    (draft_hidden field) (draft_placeholder field) (draft_options field)
    (draft_validation field).

(** [buildTemplateField(label, type, overrides)] for the overrides used
    by the builder: an optional [key], [required] and [options]. *)
Definition buildTemplateField (fieldLabel : string) (fieldType : FieldType)
    (overrideKey : option string) (overrideRequired : option bool)
    (overrideOptions : option (list string)) : FieldDraft :=
  ensureFieldDefaults
    (mkDraft
       (default (Js.optOrElse overrideKey (normalizeKey fieldLabel))
                overrideKey)
       fieldLabel fieldType (default false overrideRequired) true false ""
       (default [] overrideOptions) (mkValidation None None)).

(** Candidates of the [while] loop: [stem], [stem_1], [stem_2], ... *)
Definition keyCandidate (stem : string) (counter : nat) : string :=
  match counter with
  | O => stem
  | S _ => stem +:+ "_" +:+ Js.numToString counter
  end.

(** The body of [fields.map] in [ensureUniqueKeys], threading the set
    [used]; [None] when the loop runs out of fuel. *)
Fixpoint ensureUniqueKeysFrom (used : gset string)
    (fields : list BuilderField) : option (list BuilderField) :=
  match fields with
  | [] => Some []
  | field :: rest =>
      let base :=
        normalizeKey (Js.orElse (Js.orElse (key field) (label field))
                                "field") in
      match Loop.firstFree used (keyCandidate (Js.orElse base "field")) with
      | None => None
      | Some nextKey =>
          match ensureUniqueKeysFrom ({[nextKey]} ∪ used) rest with
          | None => None
          | Some others => Some (withKey nextKey field :: others)
          end
      end
  end.

Definition ensureUniqueKeys (fields : list BuilderField)
  : option (list BuilderField) :=
  ensureUniqueKeysFrom ∅ fields.

(** [handleAddField]: the functional update given to [setFields];
    [newId] is the value of [createId()]. *)
Definition handleAddField (newId : string) (field : FieldDraft)
    (prev : list BuilderField) : option (list BuilderField) :=
  let d := ensureFieldDefaults field in
  let next :=
    mkField newId (draft_key d) (draft_label d) (draft_type d)
            (draft_required d) (draft_enabled d) (draft_hidden d)
            (draft_placeholder d) (draft_options d) (draft_validation d) in
  ensureUniqueKeys (prev ++ [next]).

(** The "Email" entry of the add-field menu. *)
Definition emailField : FieldDraft :=
  buildTemplateField "Email" email (Some "email") (Some true) None.

(** Two clicks on that entry, starting from an empty form. *)
Definition addEmailTwice : option (list BuilderField) :=
  match handleAddField "f1" emailField [] with
  | Some fields => handleAddField "f2" emailField fields
  | None => None
  end.

Definition keysOf (fields : list BuilderField) : list string :=
  key <$> fields.

End LeadFormBuilder.

Section UniqueKeys.
Import LeadFormBuilder.

Lemma keyCandidate_inj stem i j :
  keyCandidate stem i = keyCandidate stem j → i = j.
Proof.
  destruct i as [|i], j as [|j]; simpl; intros H; [done| | |].
  - apply (f_equal String.length) in H.
    rewrite string_length_app in H. simpl in H. lia.
  - apply (f_equal String.length) in H.
    rewrite string_length_app in H. simpl in H. lia.
  - apply (inj (String.app stem)) in H.
    apply (inj (String.app "_")) in H.
    unfold Js.numToString in H. by apply (inj pretty) in H.
Qed.

Lemma ensureUniqueKeysFrom_distinct fields :
  ∀ used,
  ∃ out,
    ensureUniqueKeysFrom used fields = Some out
    ∧ length out = length fields
    ∧ NoDup (key <$> out)
    ∧ (∀ k, k ∈ key <$> out → k ∉ used)
    ∧ id <$> out = id <$> fields.
Proof.
  induction fields as [|field rest IH]; intros used; simpl.
  - exists []. repeat split; [constructor|].
    intros k Hk. by apply elem_of_nil in Hk.
  - set (stem := Js.orElse (normalizeKey _) "field").
    destruct (firstFree_terminates used (keyCandidate stem)
                (keyCandidate_inj stem)) as [nextKey Hk].
    rewrite Hk. apply firstFree_fresh in Hk.
    destruct (IH ({[nextKey]} ∪ used))
      as (others & -> & Hlen & Hnd & Hfresh & Hids).
    eexists. split; [reflexivity|]. rewrite !fmap_cons.
    split; [simpl; by rewrite Hlen|]. split; [|split].
    + apply NoDup_cons. split; [|done].
      intros Hin. apply Hfresh in Hin. apply Hin.
      apply elem_of_union. left. by apply elem_of_singleton.
    + intros k Hin. apply elem_of_cons in Hin as [->|Hin]; [done|].
      apply Hfresh in Hin. intros Hu. apply Hin.
      apply elem_of_union. by right.
    + simpl. by f_equal.
Qed.
End UniqueKeys.

(** C8.  [ensureUniqueKeys] always returns; its result has one field per
    input field, in the same order, and its keys are pairwise distinct.
    Adding the "Email" field twice to an empty form yields the keys
    "email" and "email_1". *)
Theorem lead_field_keys_distinct :
  (∀ fields : list LeadFormBuilder.BuilderField,
     ∃ out : list LeadFormBuilder.BuilderField,
       LeadFormBuilder.ensureUniqueKeys fields = Some out
       ∧ length out = length fields
       ∧ LeadFormBuilder.id <$> out = LeadFormBuilder.id <$> fields
       ∧ NoDup (LeadFormBuilder.keysOf out))
  ∧ LeadFormBuilder.keysOf <$> LeadFormBuilder.addEmailTwice
    = Some ["email"; "email_1"].
Proof.
  split.
  - intros fields.
    destruct (ensureUniqueKeysFrom_distinct fields ∅)
      as (out & H & Hlen & Hnd & _ & Hids).
    by exists out.
  - by vm_compute.
Qed.

(** * Public lead form: [onSubmit] *)

Module PublicLeadForm.

Inductive FieldType := text | email | phone | textarea | select | checkbox.

Record DynamicField := mkField {
  id : string;
  key : option string;
  label : string;
  type : FieldType;
  required : bool;
  placeholder : option string;
  options : option (list string);
  is_hidden : option bool;
  order_index : Z;
}.

(** What [answers[key]] can evaluate to: a string or a boolean stored by
    [setAnswer], or a function inherited from [Object.prototype]. *)
Inductive Value := VString (s : string) | VBoolean (b : bool) | VFunction.

Record FormSettings := mkSettings {
  submitLabel : string;
  successMessage : string;
  redirectEnabled : bool;
  redirectUrl : string;
  consentEnabled : bool;
  consentLabel : string;
  spamProtection : bool;
}.

(** The component: its props, the loaded definitions, and the state that
    [onSubmit] reads and writes. *)
Record Form := mkForm {
  ownerId : option string;
  handle : string;
  sourceUrl : option string;
  fields : list DynamicField;
  settings : FormSettings;
  answers : gmap string Value;
  consentChecked : bool;
  trap : string;
  loading : bool;
}.

Inductive Variant := success | destructive.

Record Toast := mkToast {
  title : string;
  description : string;
  variant : Variant;
}.

(** The row sent to the [leads] table and to the two endpoints. *)
Module Lead.
Record t := mk {
  user_id : string;
  handle : string;
  name : string;
  email : string;
  phone : option string;
  company : option string;
  message : option string;
  source_url : option string;
  custom_fields : gmap string Value;
}.
End Lead.
Definition LeadPayload := Lead.t.

(** What the page does that is visible outside the component. *)
Inductive Effect :=
  | ShowToast (t : Toast)
  | InsertLead (p : LeadPayload)
  | PostSubmit (p : LeadPayload)
  | PostNotify (p : LeadPayload) (honeypot : option string)
  | Redirect (url : string)
  | ConsoleError.

(** Answers of the two requests of a submission. *)
Inductive InsertResult :=
  | InsertOk
  | InsertError (errorMessage : option string)
  | InsertThrows (thrown : string).

Inductive SubmitResult :=
  | SubmitOk
  | SubmitNotOk (infoError : option string)
  | SubmitThrows (thrown : string).

Record Network := mkNetwork {
  insertResult : InsertResult;
  submitResult : SubmitResult;
}.

(** Same text as [normalizeKey] of the form builder. *)
Definition normalizeKey (value : string) : string :=
  LeadFormBuilder.normalizeKey value.

Definition fieldKey (field : DynamicField) : string :=
  normalizeKey
    (Js.orElse (Js.orElse (default "" (key field)) (label field))
               (id field)).

(** [answers[key]] on the plain object [answers].  A key is a result of
    [normalizeKey], hence made of [a-z0-9_] without a leading
    underscore; the only such property of [Object.prototype] is
    [constructor]. *)
Definition readAnswer (a : gmap string Value) (k : string)
  : option Value :=
  match a !! k with
  | Some v => Some v
  | None => if String.eqb k "constructor" then Some VFunction else None
  end.

Definition truthyValue (v : option Value) : bool :=
  match v with
  | Some (VString s) => Js.truthy s
  | Some (VBoolean b) => b
  | Some VFunction => true
  | None => false
  end.

(** [String(value)] *)
Definition toStringValue (v : Value) : string :=
  match v with
  | VString s => s
  | VBoolean true => "true"
  | VBoolean false => "false"
  | VFunction => "function Object() { [native code] }"
  end.

Definition isMissing (f : Form) (field : DynamicField) : bool :=
  if negb (required field) then false
  else
    let value := readAnswer (answers f) (fieldKey field) in
    match type field with
    | checkbox =>
        match value with Some (VBoolean true) => false | _ => true end
    | _ =>
        negb (truthyValue value)
        || match value with
           | Some v =>
               (String.length (Js.trim (toStringValue v)) =? 0)%nat
           | None => true
           end
    end.

Inductive Validation := Ok | NotOk (message : string).

Definition validateRequired (f : Form) : Validation :=
  let missing := List.filter (isMissing f) (fields f) in
  if consentEnabled (settings f) && negb (consentChecked f)
  then NotOk "Please accept the consent checkbox."
  else if (0 <? length missing)%nat
       then NotOk "Please fill in the required fields."
       else Ok.

Definition resetForm (f : Form) : Form :=
  mkForm (ownerId f) (handle f) (sourceUrl f) (fields f) (settings f)
         ∅ false "" (loading f).

Definition setLoading (b : bool) (f : Form) : Form :=
  mkForm (ownerId f) (handle f) (sourceUrl f) (fields f) (settings f)
         (answers f) (consentChecked f) (trap f) b.

Definition thanks (f : Form) : Toast :=
  mkToast "Thanks!" (successMessage (settings f)) success.

(** [a || b] on values that may be [undefined]. *)
Definition orValue (a b : option Value) : option Value :=
  if truthyValue a then a else b.

(** [value.trim()]; only strings have the method. *)
Definition trimValue (v : option Value) : option string :=
  match v with
  | Some (VString s) => Some (Js.trim s)
  | _ => None
  end.

Definition joinSpace (parts : list string) : string :=
  match parts with
  | [] => ""
  | p :: rest => fold_left (λ acc q, acc +:+ " " +:+ q) rest p
  end.

Definition combineName (first last : option Value) : string :=
  let parts :=
    List.filter (λ v, truthyValue (Some v))
      [default (VString "") (orValue first (Some (VString "")));
       default (VString "") (orValue last (Some (VString "")))] in
  Js.trim (joinSpace (toStringValue <$> parts)).

Definition valuesOf (f : Form) : gmap string Value :=
  fold_left
    (λ values field,
       let k := fieldKey field in
       <[k := match readAnswer (answers f) k with
              | Some v => v
              | None =>
                  match type field with
                  | checkbox => VBoolean false
                  | _ => VString ""
                  end
              end]> values)
    (fields f) ∅.

Definition emptyToNull (s : string) : option string :=
  if Js.truthy s then Some s else None.

(** [buildLeadPayload()] with the fields of the request added; [None]
    is the [TypeError] of calling [trim] on a value that is no string. *)
Definition buildLeadPayload (owner : string) (f : Form)
  : option LeadPayload :=
  let values := valuesOf f in
  let get k := values !! k in
  let nameValue :=
    orValue
      (orValue
         (orValue (get "name")
            (Some (VString
                     (combineName (get "first_name") (get "last_name")))))
         (get "full_name"))
      (Some (VString "")) in
  let emailValue := orValue (get "email") (Some (VString "")) in
  let phoneValue := orValue (get "phone") (Some (VString "")) in
  let companyValue :=
    orValue (orValue (get "company") (get "school"))
            (Some (VString "")) in
  let messageValue :=
    orValue (orValue (get "message") (get "notes"))
            (Some (VString "")) in
  match trimValue nameValue, trimValue emailValue, trimValue phoneValue,
        trimValue companyValue, trimValue messageValue with
  | Some n, Some e, Some p, Some c, Some m =>
      Some (Lead.mk owner (handle f) n e (emptyToNull p)
              (emptyToNull c) (emptyToNull m) (sourceUrl f) values)
  | _, _, _, _, _ => None
  end.

Record Result := mkResult {
  effects : list Effect;
  after : Form;
  uncaught : bool;
}.

(** The [try] block: what is done, and the message of the exception
    caught, if any. *)
Definition attempt (net : Network) (f : Form) (payload : LeadPayload)
  : list Effect * option string :=
  let done : list Effect :=
    PostNotify payload (emptyToNull (trap f))
    :: ShowToast (thanks f)
    :: (if redirectEnabled (settings f)
           && Js.truthy (redirectUrl (settings f))
        then [Redirect (redirectUrl (settings f))] else []) in
  match insertResult net with
  | InsertOk => (InsertLead payload :: done, None)
  | InsertThrows msg => ([InsertLead payload], Some msg)
  | InsertError errorMessage =>
      match submitResult net with
      | SubmitOk => (InsertLead payload :: PostSubmit payload :: done, None)
      | SubmitThrows msg =>
          ([InsertLead payload; PostSubmit payload], Some msg)
      | SubmitNotOk infoError =>
          ([InsertLead payload; PostSubmit payload],
           Some (Js.orElse
                   (Js.orElse (default "" infoError)
                              (default "" errorMessage))
                   "Insert failed"))
      end
  end.

Definition onSubmit (net : Network) (f : Form) : Result :=
  match ownerId f with
  | None =>
      mkResult [ShowToast (mkToast "Unavailable" "Owner not found."
                             destructive)] f false
  | Some owner =>
      if negb (Js.truthy owner)
      then mkResult [ShowToast (mkToast "Unavailable" "Owner not found."
                                  destructive)] f false
      else
        match validateRequired f with
        | NotOk msg =>
            mkResult [ShowToast (mkToast "Missing info" msg destructive)]
                     f false
        | Ok =>
            if (0 <? String.length (Js.trim (trap f)))%nat
            then mkResult [ShowToast (thanks f)] (resetForm f) false
            else
              match buildLeadPayload owner f with
              | None => mkResult [] f true
              | Some payload =>
                  if negb (Js.truthy (Lead.name payload))
                     || negb (Js.truthy (Lead.email payload))
                  then
                    mkResult
                      [ShowToast (mkToast "Missing info"
                                    "Name and email required."
                                    destructive)] f false
                  else
                    match attempt net f payload with
                    | (done, None) =>
                        mkResult done (setLoading false (resetForm f))
                                 false
                    | (done, Some msg) =>
                        mkResult
                          (done ++ [ConsoleError;
                                    ShowToast (mkToast "Could not submit"
                                                 msg destructive)])%list
                          (setLoading false f) false
                    end
              end
        end
  end.

(** Effects that store the lead or send it to a server. *)
Definition forwards (e : Effect) : bool :=
  match e with
  | InsertLead _ | PostSubmit _ | PostNotify _ _ => true
  | _ => false
  end.

Definition honeypotFilled (f : Form) : Prop :=
  (0 < String.length (Js.trim (trap f)))%nat.


End PublicLeadForm.

Module LeadScenario.
Import PublicLeadForm.

Definition nameField : DynamicField :=
  mkField "fld-1" (Some "name") "Name" text true None None None 1.
Definition emailField : DynamicField :=
  mkField "fld-2" (Some "email") "Email" email true None None None 2.

Definition defaults : FormSettings :=
  mkSettings "Send" "Thanks! I'll reach out soon." false "" false
             "I agree to share my info." false.

Definition online : Network := mkNetwork InsertOk SubmitOk.



(** A visitor filled the visible inputs only. *)
Definition genuine : Form :=
  mkForm (Some "owner-1") "jess" None [nameField; emailField] defaults
    (<["name" := VString "Ann"]> (<["email" := VString "ann@x.io"]> ∅))
    false "" false.


End LeadScenario.


Section Honeypot.
Import PublicLeadForm.


End Honeypot.



(** * Further properties of the modelled code *)

(** ** Strings seen as lists of code units *)

Fixpoint dropWhileL (p : ascii → bool) (l : list ascii) : list ascii :=
match l with
| c :: r => if p c then dropWhileL p r else l
| [] => []
end.

Lemma string_list_inj (s t : string) :
  list_ascii_of_string s = list_ascii_of_string t → s = t.
Proof.
  intros H. rewrite <- (string_of_list_ascii_of_string s).
  rewrite <- (string_of_list_ascii_of_string t). by rewrite H.
Qed.

Lemma list_of_rev_app (s t : string) :
  list_ascii_of_string (String.rev_app s t)
  = (reverse (list_ascii_of_string s) ++ list_ascii_of_string t)%list.
Proof.
  revert t. induction s as [|a s IH]; intros t; simpl; [done|].
  rewrite IH. simpl. rewrite reverse_cons. by rewrite <- app_assoc.
Qed.

Lemma list_of_rev (s : string) :
  list_ascii_of_string (String.rev s) = reverse (list_ascii_of_string s).
Proof. unfold String.rev. rewrite list_of_rev_app. simpl. apply app_nil_r. Qed.

Lemma list_of_trimStart (s : string) :
  list_ascii_of_string (Js.trimStart s)
  = dropWhileL Js.isWhiteSpace (list_ascii_of_string s).
Proof.
  induction s as [|a s IH]; simpl; [done|].
  by destruct (Js.isWhiteSpace a).
Qed.

Lemma list_of_trimEnd (s : string) :
  list_ascii_of_string (Js.trimEnd s)
  = reverse (dropWhileL Js.isWhiteSpace (reverse (list_ascii_of_string s))).
Proof.
  unfold Js.trimEnd. by rewrite list_of_rev, list_of_trimStart, list_of_rev.
Qed.

Lemma list_of_toLowerCase (s : string) :
  list_ascii_of_string (Js.toLowerCase s)
  = Js.toLowerChar <$> list_ascii_of_string s.
Proof. induction s as [|a s IH]; simpl; [done|]. by rewrite IH. Qed.

Lemma list_of_app (s t : string) :
  list_ascii_of_string (s +:+ t)
  = (list_ascii_of_string s ++ list_ascii_of_string t)%list.
Proof.
  induction s as [|a s IH]; [done|].
  change (String a s +:+ t) with (String a (s +:+ t)). simpl. by rewrite IH.
Qed.

Lemma list_of_slice0 (n : nat) (s : string) :
  list_ascii_of_string (Js.slice0 n s) = take n (list_ascii_of_string s).
Proof.
  revert s. induction n as [|n IH]; intros [|a s]; simpl; try done.
  by rewrite IH.
Qed.


Section DropWhile.
Context (p : ascii → bool).

(** A list that neither starts nor ends with a character satisfying [p]. *)
Definition cleanEnds (l : list ascii) : Prop :=
  (∀ c r, l = c :: r → p c = false)
  ∧ (∀ c r, l = (r ++ [c])%list → p c = false).

Definition trimL (l : list ascii) : list ascii :=
  reverse (dropWhileL p (reverse (dropWhileL p l))).

Lemma dropWhileL_head l c r : dropWhileL p l = c :: r → p c = false.
Proof.
  induction l as [|x l IH]; simpl; [done|].
  destruct (p x) eqn:E; [done|]. by intros [= <- <-].
Qed.

Lemma dropWhileL_keep c r : p c = false → dropWhileL p (c :: r) = c :: r.
Proof. intros H. simpl. by rewrite H. Qed.

Lemma dropWhileL_snoc l c :
  p c = false → dropWhileL p (l ++ [c]) = (dropWhileL p l ++ [c])%list.
Proof.
  intros Hc. induction l as [|x l IH]; simpl; [by rewrite Hc|].
  by destruct (p x).
Qed.

Lemma dropWhileL_all l : Forall (λ c, p c = true) l → dropWhileL p l = [].
Proof.
  induction 1 as [|x l Hx _ IH]; simpl; [done|]. by rewrite Hx.
Qed.

Lemma dropWhileL_suffix l : ∃ k, l = (k ++ dropWhileL p l)%list
                                 ∧ Forall (λ c, p c = true) k.
Proof.
  induction l as [|x l (k & IH & Hk)]; simpl; [by exists []|].
  destruct (p x) eqn:E.
  - exists (x :: k). split; [simpl; by f_equal|]. by constructor.
  - by exists [].
Qed.

Lemma trimL_cleanEnds l : cleanEnds (trimL l).
Proof.
  unfold trimL. set (m := dropWhileL p l).
  assert (∀ c r, m = c :: r → p c = false) as Hm
    by (intros c r; apply dropWhileL_head).
  split.
  - intros c r Heq. destruct m as [|c0 r0]; [done|].
    pose proof (Hm _ _ eq_refl) as Hc0.
    rewrite reverse_cons, dropWhileL_snoc in Heq by done.
    rewrite reverse_app, reverse_singleton in Heq. simpl in Heq.
    by injection Heq as <- _.
  - intros c r Heq. apply (f_equal reverse) in Heq.
    rewrite reverse_involutive, reverse_app, reverse_singleton in Heq.
    simpl in Heq. by apply dropWhileL_head in Heq.
Qed.

Lemma cleanEnds_trimL l : cleanEnds l → trimL l = l.
Proof.
  intros [Hh Ht]. unfold trimL.
  assert (dropWhileL p l = l) as ->.
  { destruct l as [|c r]; [done|]. apply dropWhileL_keep. by eapply Hh. }
  destruct (reverse l) as [|y t] eqn:Er.
  { apply (f_equal reverse) in Er. rewrite reverse_involutive in Er.
    by subst l. }
  apply (f_equal reverse) in Er. rewrite reverse_involutive in Er.
  rewrite reverse_cons in Er.
  rewrite dropWhileL_keep by (by eapply Ht).
  by rewrite reverse_cons.
Qed.

Lemma trimL_idem l : trimL (trimL l) = trimL l.
Proof. apply cleanEnds_trimL, trimL_cleanEnds. Qed.
End DropWhile.

Lemma list_of_trim (s : string) :
  list_ascii_of_string (Js.trim s)
  = trimL Js.isWhiteSpace (list_ascii_of_string s).
Proof. unfold Js.trim. by rewrite list_of_trimEnd, list_of_trimStart. Qed.

Lemma trim_idem (s : string) : Js.trim (Js.trim s) = Js.trim s.
Proof.
  apply string_list_inj. rewrite !list_of_trim. apply trimL_idem.
Qed.

Lemma toLowerChar_idem (c : ascii) :
  Js.toLowerChar (Js.toLowerChar c) = Js.toLowerChar c.
Proof. by destruct c as [[] [] [] [] [] [] [] []]. Qed.

Lemma toLowerChar_space (c : ascii) :
  Js.isWhiteSpace (Js.toLowerChar c) = Js.isWhiteSpace c.
Proof. by destruct c as [[] [] [] [] [] [] [] []]. Qed.

Lemma toLowerCase_idem (s : string) :
  Js.toLowerCase (Js.toLowerCase s) = Js.toLowerCase s.
Proof.
  induction s as [|a s IH]; simpl; [done|].
  by rewrite toLowerChar_idem, IH.
Qed.

Lemma dropWhileL_lower (l : list ascii) :
  dropWhileL Js.isWhiteSpace (Js.toLowerChar <$> l)
  = Js.toLowerChar <$> dropWhileL Js.isWhiteSpace l.
Proof.
  induction l as [|c l IH]; simpl; [done|].
  rewrite toLowerChar_space. by destruct (Js.isWhiteSpace c).
Qed.

Lemma trim_toLowerCase (s : string) :
  Js.trim (Js.toLowerCase s) = Js.toLowerCase (Js.trim s).
Proof.
  apply string_list_inj.
  rewrite list_of_trim, !list_of_toLowerCase, list_of_trim. unfold trimL.
  rewrite dropWhileL_lower, <- fmap_reverse, dropWhileL_lower.
  by rewrite fmap_reverse.
Qed.

(** ** Handles are normalised once and for all *)

Lemma normaliseHandle_idem (handle : string) :
  normaliseHandle (normaliseHandle handle) = normaliseHandle handle.
Proof.
  unfold normaliseHandle.
  by rewrite trim_toLowerCase, toLowerCase_idem, trim_idem.
Qed.

(** X1.  [normaliseHandle] is idempotent: a handle that went through it
    (such as a stored profile handle) is left unchanged by another pass. *)
Theorem normaliseHandle_idempotent (handle : string) :
  normaliseHandle (normaliseHandle handle) = normaliseHandle handle.
Proof. apply normaliseHandle_idem. Qed.

(** ** How a save ends *)

Lemma saveProfileForUser_cases
    (dateNow : nat → Timestamp) (randomUUID : nat → string)
    (userId : string) (payload : ProfilePayload.t) (w : World) :
  let r := saveProfileForUser dateNow randomUUID userId payload w in
  (Js.truthy userId = true ∧ validPayload payload
   ∧ ∃ saved, r.2 = Returned saved)
  ∨ (¬ (Js.truthy userId = true ∧ validPayload payload)
     ∧ r.1 = w
     ∧ (r.2 = Thrown "userId is required"
        ∨ r.2 = Thrown "Profile name is required"
        ∨ r.2 = Thrown "Handle is required")).
Proof.
  simpl. destruct (Js.truthy userId) eqn:Hu.
  - destruct (Js.truthy (payloadName payload)) eqn:Hn.
    + destruct (Js.truthy (payloadHandle payload)) eqn:Hh.
      * left. split; [done|]. split; [done|].
        destruct (saveProfileForUser_returns dateNow randomUUID userId
                    payload w Hu (conj Hn Hh)) as (w' & saved & -> & _).
        by exists saved.
      * right. split; [intros [_ [_ H]]; congruence|].
        unfold saveProfileForUser, memorySaveProfileForUser. rewrite Hu.
        change (default "" (Js.trim <$> ProfilePayload.name payload))
          with (payloadName payload).
        change (normaliseHandle (ProfilePayload.handle payload))
          with (payloadHandle payload).
        rewrite Hn, Hh. simpl. auto.
    + right. split; [intros [_ [H _]]; congruence|].
      unfold saveProfileForUser, memorySaveProfileForUser. rewrite Hu.
      change (default "" (Js.trim <$> ProfilePayload.name payload))
        with (payloadName payload).
      rewrite Hn. simpl. auto.
  - right. split; [intros [H _]; congruence|].
    unfold saveProfileForUser. rewrite Hu. simpl. auto.
Qed.

(** X2.  [saveProfileForUser] either returns the saved profile, which
    happens exactly when the user id, the trimmed name and the normalised
    handle are non-empty, or it throws one of its three validation errors
    and leaves the whole module state as it was. *)
Theorem save_returns_or_rejects_untouched
    (dateNow : nat → Timestamp) (randomUUID : nat → string)
    (userId : string) (payload : ProfilePayload.t) (w : World) :
  let r := saveProfileForUser dateNow randomUUID userId payload w in
  (Js.truthy userId = true ∧ validPayload payload
   ∧ ∃ saved, r.2 = Returned saved)
  ∨ (¬ (Js.truthy userId = true ∧ validPayload payload)
     ∧ r.1 = w
     ∧ (r.2 = Thrown "userId is required"
        ∨ r.2 = Thrown "Profile name is required"
        ∨ r.2 = Thrown "Handle is required")).
Proof. apply saveProfileForUser_cases. Qed.

(** ** Create or update in place *)

Section SaveShape.
Context (dateNow : nat → Timestamp) (randomUUID : nat → string).
Import ProfileWithLinks.

Lemma fmap_alter_same {B} (g : ProfileWithLinks.t → B)
    (f : ProfileWithLinks.t → ProfileWithLinks.t) i
    (ps : list ProfileWithLinks.t) :
  (∀ p, g (f p) = g p) → g <$> alter f i ps = g <$> ps.
Proof.
  intros Hf. revert i.
  induction ps as [|p ps IH]; intros [|i]; simpl; [done|done| |].
  - by rewrite Hf.
  - f_equal. apply IH.
Qed.

Lemma fmap_promote_same {B} (g : ProfileWithLinks.t → B) d now
    (ps : list ProfileWithLinks.t) :
  (∀ p b, g (set_is_active b p) = g p) →
  (∀ p ts, g (set_updated_at ts p) = g p) →
  g <$> (promote d now <$> ps) = g <$> ps.
Proof.
  intros H1 H2. rewrite <- list_fmap_compose. apply list_fmap_ext.
  intros _ p _. simpl. unfold promote.
  destruct (String.eqb _ _); by rewrite ?H2, ?H1.
Qed.

Lemma savedProfiles_created_at userId payload w newLinks :
  created_at <$> savedProfiles dateNow randomUUID userId payload w newLinks
  = created_at <$> (placed dateNow randomUUID userId payload w).2.
Proof.
  unfold savedProfiles, activation.
  destruct (payloadActive payload).
  - rewrite fmap_promote_same by done. by apply fmap_alter_same.
  - destruct (existsb _ _).
    + by apply fmap_alter_same.
    + rewrite fmap_alter_same by done. by apply fmap_alter_same.
Qed.

Lemma placed_created_at userId payload w :
  created_at <$> (placed dateNow randomUUID userId payload w).2
  = match findExisting payload (profilesOf w userId) with
    | Some _ => created_at <$> profilesOf w userId
    | None => ((created_at <$> profilesOf w userId)
               ++ [dateNow (clockReads w)])%list
    end.
Proof.
  unfold placed.
  destruct (findExisting payload (profilesOf w userId)) as [[i p]|]; simpl.
  - by apply fmap_alter_same.
  - by rewrite fmap_app.
Qed.

Lemma save_profiles_after userId payload w :
  Js.truthy userId = true → validPayload payload →
  ∃ newLinks saved,
    profilesOf (saveProfileForUser dateNow randomUUID userId payload w).1
               userId
    = savedProfiles dateNow randomUUID userId payload w newLinks
    ∧ (saveProfileForUser dateNow randomUUID userId payload w).2
      = Returned saved
    ∧ savedProfiles dateNow randomUUID userId payload w newLinks
        !! (placed dateNow randomUUID userId payload w).1.1 = Some saved
    ∧ (savedLinks dateNow randomUUID userId payload w).2
      = Returned newLinks
    ∧ (∀ u, u ≠ userId →
         profilesOf
           (saveProfileForUser dateNow randomUUID userId payload w).1 u
         = profilesOf w u).
Proof.
  intros Hu Hv. unfold saveProfileForUser. rewrite Hu. simpl.
  destruct (memorySaveProfileForUser_run dateNow randomUUID userId payload w
              Hv)
    as (newLinks & dl & accs & d & saved & HL & Hrun & Hsaved & _).
  rewrite Hrun. exists newLinks, saved. simpl.
  split; [unfold profilesOf; simpl; by rewrite lookup_insert_eq|].
  split; [done|]. split; [done|]. split; [by rewrite HL|].
  intros u Hne. unfold profilesOf. simpl. by rewrite lookup_insert_ne.
Qed.
End SaveShape.

(** X3.  A valid save whose payload id names one of the account's profiles
    updates it in place: the ids and creation times of the account's
    profiles, in order, are unchanged.  Otherwise (no id, an empty id, or
    an id that matches no profile of the account) exactly one profile is
    appended, with a generated id, never the payload's, and the current
    time as creation time. *)
Theorem save_updates_in_place_or_appends
    (dateNow : nat → Timestamp) (randomUUID : nat → string)
    (userId : string) (payload : ProfilePayload.t) (w : World) :
  Js.truthy userId = true → validPayload payload →
  let before := profilesOf w userId in
  let after :=
    profilesOf (saveProfileForUser dateNow randomUUID userId payload w).1
               userId in
  match findExisting payload before with
  | Some _ =>
      profileIds after = profileIds before
      ∧ ProfileWithLinks.created_at <$> after
        = ProfileWithLinks.created_at <$> before
  | None =>
      profileIds after
      = (profileIds before ++ [randomUUID (uuidDraws w)])%list
      ∧ ProfileWithLinks.created_at <$> after
        = ((ProfileWithLinks.created_at <$> before)
           ++ [dateNow (clockReads w)])%list
  end.
Proof.
  intros Hu Hv. simpl.
  destruct (save_profiles_after dateNow randomUUID userId payload w Hu Hv)
    as (newLinks & saved & -> & _).
  rewrite savedProfiles_ids, placed_ids.
  rewrite savedProfiles_created_at, placed_created_at.
  by destruct (findExisting payload (profilesOf w userId)).
Qed.

Module ShapeScenario.
(** A payload whose id matches no profile of the account. *)
Definition unknownId : ProfilePayload.t :=
  ProfilePayload.mk (Some "made-up") (Some "Work") "work" None None None None.
End ShapeScenario.

Lemma save_updates_in_place_or_appends_witness :
  profileIds
    (profilesOf
       (saveProfileForUser Scenario.clock Scenario.uuid "acc_1"
          ShapeScenario.unknownId Scenario.afterJess).1 "acc_1")
  = ["id-0"; "id-2"].
Proof.
  pose proof (save_updates_in_place_or_appends Scenario.clock Scenario.uuid
                "acc_1" ShapeScenario.unknownId Scenario.afterJess
                eq_refl (conj eq_refl eq_refl)) as H.
  simpl in H.
  assert (findExisting ShapeScenario.unknownId
            (profilesOf Scenario.afterJess "acc_1") = None) as Hf
    by by vm_compute.
  rewrite Hf in H. destruct H as [H _]. rewrite H. by vm_compute.
Defined.

(** ** Accounts are independent *)

Definition opUser (op : Op) : string :=
match op with
| OpSave userId _ | OpActivate userId _ | OpDelete userId _ => userId
end.

(** X4.  A save, an activation or a delete for one account, whether it
    returns or throws, leaves the profiles of every other account
    untouched. *)
Theorem operations_leave_other_accounts
    (dateNow : nat → Timestamp) (randomUUID : nat → string)
    (op : Op) (w : World) (u : string) :
  u ≠ opUser op →
  profilesOf (perform dateNow randomUUID op w).1 u = profilesOf w u.
Proof.
  intros Hne. destruct op as [userId payload|userId pid|userId pid];
    simpl in Hne; unfold perform, bind.
  - destruct (saveProfileForUser_cases dateNow randomUUID userId
                payload w) as [(Hu & Hv & _)|(_ & Hw & _)].
    + destruct (save_profiles_after dateNow randomUUID userId payload w
                  Hu Hv) as (_ & _ & _ & _ & _ & _ & Hother).
      specialize (Hother u Hne).
      by destruct (saveProfileForUser dateNow randomUUID userId payload w)
        as [w' [?|?|]].
    + simpl in Hw.
      destruct (saveProfileForUser dateNow randomUUID userId payload w)
        as [w' [?|?|]]; simpl in *; by subst.
  - destruct (setActiveProfileForUser_run dateNow userId pid w)
      as (w' & out & -> & Hpo & _).
    specialize (Hpo u). rewrite decide_False in Hpo by done.
    by destruct out.
  - unfold deleteProfileForUser.
    destruct (negb (Js.truthy userId) || negb (Js.truthy pid)); [done|].
    unfold memoryDeleteProfileForUser, bind.
    rewrite ensureMemoryProfiles_run.
    destruct (list_find _ (profilesOf w userId)) as [[i p]|].
    + rewrite writeProfiles_run, setProfiles_touch.
      rewrite memoryEnsureHasActiveProfile_run. simpl.
      rewrite profilesOf_repairWorld, decide_False by done.
      by rewrite profilesOf_setProfiles_ne.
    + simpl. apply profilesOf_touch.
Qed.

Lemma operations_leave_other_accounts_witness :
  profilesOf
    (perform Scenario.clock Scenario.uuid (OpActivate "acc_2" "id-0")
       Scenario.afterJess).1 "acc_1"
  = profilesOf Scenario.afterJess "acc_1".
Proof.
  apply (operations_leave_other_accounts Scenario.clock Scenario.uuid
           (OpActivate "acc_2" "id-0") Scenario.afterJess "acc_1").
  simpl. discriminate.
Defined.

(** ** The links of a saved profile *)

Section SavedLinks.
Context (dateNow : nat → Timestamp) (randomUUID : nat → string).

(** The link [existingLinks.get(link.id)] of [saveLink]. *)
Definition existingFor (existingLinks : gmap string ProfileLinkRecord.t)
    (link : LinkPayload.t) : option ProfileLinkRecord.t :=
  if Js.truthy (default "" (LinkPayload.id link))
  then existingLinks !! default "" (LinkPayload.id link) else None.

(** What [saveLink] stores for a payload link, except for the id. *)
Definition rebuilt (userId profileId : string) (now : Timestamp)
    (existingLinks : gmap string ProfileLinkRecord.t)
    (index : nat) (link : LinkPayload.t) (rec : ProfileLinkRecord.t)
  : Prop :=
  ProfileLinkRecord.profile_id rec = profileId
  ∧ ProfileLinkRecord.user_id rec = userId
  ∧ ProfileLinkRecord.order_index rec = Z.of_nat index
  ∧ ProfileLinkRecord.title rec
    = Js.optOrElse (Js.trim <$> LinkPayload.title link)
        ("Link " +:+ Js.numToString (S index))
  ∧ ProfileLinkRecord.url rec
    = Js.optOrElse (Js.trim <$> LinkPayload.url link) ""
  ∧ ProfileLinkRecord.updated_at rec = Some now
  ∧ ProfileLinkRecord.is_active rec
    = default true
        (ProfileLinkRecord.is_active <$> existingFor existingLinks link)
  ∧ ProfileLinkRecord.created_at rec
    = default now
        (ProfileLinkRecord.created_at <$> existingFor existingLinks link)
  ∧ (if Js.truthy
          (Js.orElse
             (default "" (ProfileLinkRecord.id
                            <$> existingFor existingLinks link))
             (default "" (LinkPayload.id link)))
     then ProfileLinkRecord.id rec
          = Js.orElse
              (default "" (ProfileLinkRecord.id
                             <$> existingFor existingLinks link))
              (default "" (LinkPayload.id link))
     else ∃ n, ProfileLinkRecord.id rec = randomUUID n).

Lemma saveLink_rebuilt userId profileId now existingLinks index link w :
  ∃ d rec,
    saveLink randomUUID userId profileId now existingLinks index link w
    = (withEnv (memoryAccounts w) d w, Returned rec)
    ∧ rebuilt userId profileId now existingLinks index link rec.
Proof.
  assert (w = withEnv (memoryAccounts w) 0 w) as Hw by by destruct w.
  unfold saveLink, bind, rebuilt, existingFor.
  destruct (Js.truthy (Js.orElse _ _)) eqn:E.
  - eexists 0%nat, _. unfold ret. rewrite <- Hw. split; [reflexivity|].
    simpl. by repeat split.
  - eexists 1%nat, _. unfold randomId, ret. split; [reflexivity|].
    simpl. repeat split. by eexists.
Qed.

Lemma mapMi_saveLink_rebuilt userId profileId now existingLinks links :
  ∀ index w w' records,
    mapMi (saveLink randomUUID userId profileId now existingLinks)
          index links w = (w', Returned records) →
    length records = length links
    ∧ ∀ i link, links !! i = Some link →
        ∃ rec, records !! i = Some rec
               ∧ rebuilt userId profileId now existingLinks
                         (index + i) link rec.
Proof.
  induction links as [|link links IH]; intros index w w' records.
  - simpl. unfold ret. intros [= _ <-]. split; [done|].
    intros i l Hl. by rewrite lookup_nil in Hl.
  - simpl. unfold bind at 1.
    destruct (saveLink_rebuilt userId profileId now existingLinks index
                link w) as (d & rec & -> & Hrec).
    unfold bind at 1.
    destruct (mapMi_saveLink_run randomUUID userId profileId now
                existingLinks links (S index)
                (withEnv (memoryAccounts w) d w)) as (d2 & rs & Hrs).
    rewrite Hrs. unfold ret. intros [= _ <-].
    destruct (IH _ _ _ _ Hrs) as (Hlen & Hall).
    split; [simpl; by rewrite Hlen|].
    intros [|i] l Hl; simpl in Hl.
    + injection Hl as <-. exists rec. rewrite Nat.add_0_r. by split.
    + destruct (Hall i l Hl) as (r & Hr & Hb). exists r. split; [done|].
      by rewrite Nat.add_succ_r.
Qed.

Lemma sortBy_byOrder_increasing (records : list ProfileLinkRecord.t) :
  ∀ base,
    (∀ i rec, records !! i = Some rec →
              ProfileLinkRecord.order_index rec = Z.of_nat (base + i)) →
    sortBy byOrder records = records.
Proof.
  induction records as [|x records IH]; intros base Hidx; [done|].
  simpl. rewrite (IH (S base)).
  2:{ intros i rec Hrec. rewrite (Hidx (S i) rec Hrec). f_equal. lia. }
  destruct records as [|y records]; [done|]. simpl.
  pose proof (Hidx 0%nat x eq_refl) as Hx.
  pose proof (Hidx 1%nat y eq_refl) as Hy.
  unfold byOrder. rewrite Hx, Hy.
  assert ((Z.of_nat (base + 0) - Z.of_nat (base + 1) =? 0)%Z = false) as ->
    by (apply Z.eqb_neq; lia).
  assert ((Z.of_nat (base + 0) - Z.of_nat (base + 1) <=? 0)%Z = true) as ->
    by (apply Z.leb_le; lia).
  done.
Qed.

Lemma existingLinksOf_lookup (profile : ProfileWithLinks.t) (k : string) :
  match existingLinksOf profile !! k with
  | Some e => e ∈ ProfileWithLinks.links profile ∧ ProfileLinkRecord.id e = k
  | None => k ∉ ProfileLinkRecord.id <$> ProfileWithLinks.links profile
  end.
Proof.
  unfold existingLinksOf.
  destruct (list_to_map _ !! k) as [e|] eqn:E.
  - apply elem_of_list_to_map_2 in E. rewrite elem_of_reverse in E.
    apply list_elem_of_fmap in E as (l & [= -> ->] & Hl). done.
  - apply not_elem_of_list_to_map in E. intros Hin. apply E.
    rewrite fmap_reverse, elem_of_reverse, <- list_fmap_compose.
    apply list_elem_of_fmap in Hin as (l & -> & Hl).
    apply list_elem_of_fmap. by exists l.
Qed.

(** The links stored by a valid save, position by position. *)
Lemma save_links_rebuilt userId payload w :
  Js.truthy userId = true → validPayload payload →
  ∃ saved,
    (saveProfileForUser dateNow randomUUID userId payload w).2
    = Returned saved
    ∧ length (ProfileWithLinks.links saved)
      = length (default [] (ProfilePayload.links payload))
    ∧ ∀ i link,
        default [] (ProfilePayload.links payload) !! i = Some link →
        ∃ rec, ProfileWithLinks.links saved !! i = Some rec
               ∧ rebuilt userId (ProfileWithLinks.id saved)
                   (dateNow (clockReads w))
                   (existingLinksOf
                      (placed dateNow randomUUID userId payload w).1.2)
                   i link rec.
Proof.
  intros Hu Hv.
  destruct (save_profiles_after dateNow randomUUID userId payload w Hu Hv)
    as (newLinks & saved & _ & Hret & Hsaved & HL & _).
  exists saved. split; [done|].
  destruct (savedProfiles_content _ _ _ _ _ _ _ Hsaved)
    as (Hid & _ & _ & _ & _ & _ & _ & Hlk).
  simpl in Hlk, Hid. rewrite Hlk, Hid.
  unfold savedLinks in HL.
  destruct (mapMi _ _ _ _) as [w' out] eqn:Hm. simpl in HL. subst out.
  destruct (mapMi_saveLink_rebuilt _ _ _ _ _ _ _ _ _ Hm) as (Hlen & Hall).
  split; [done|]. intros i link Hl.
  destruct (Hall i link Hl) as (rec & Hr & Hb). by exists rec.
Qed.
End SavedLinks.

(** X5.  A valid save replaces the links of the profile by the payload's:
    the saved profile has one link per payload link, the link at position
    [i] has [order_index] [i], belongs to the saved profile and to the
    account, carries the trimmed title (or "Link i+1" when the title is
    missing or blank) and the trimmed url (or the empty string), and
    sorting the links with [byOrder] leaves them in payload order. *)
Theorem save_rebuilds_links_in_payload_order
    (dateNow : nat → Timestamp) (randomUUID : nat → string)
    (userId : string) (payload : ProfilePayload.t) (w : World) :
  Js.truthy userId = true → validPayload payload →
  ∃ saved,
    (saveProfileForUser dateNow randomUUID userId payload w).2
    = Returned saved
    ∧ length (ProfileWithLinks.links saved)
      = length (default [] (ProfilePayload.links payload))
    ∧ (∀ i link,
         default [] (ProfilePayload.links payload) !! i = Some link →
         ∃ rec,
           ProfileWithLinks.links saved !! i = Some rec
           ∧ ProfileLinkRecord.order_index rec = Z.of_nat i
           ∧ ProfileLinkRecord.profile_id rec = ProfileWithLinks.id saved
           ∧ ProfileLinkRecord.user_id rec = userId
           ∧ ProfileLinkRecord.title rec
             = Js.optOrElse (Js.trim <$> LinkPayload.title link)
                 ("Link " +:+ Js.numToString (S i))
           ∧ ProfileLinkRecord.url rec
             = Js.optOrElse (Js.trim <$> LinkPayload.url link) "")
    ∧ sortBy byOrder (ProfileWithLinks.links saved)
      = ProfileWithLinks.links saved.
Proof.
  intros Hu Hv.
  destruct (save_links_rebuilt dateNow randomUUID userId payload w Hu Hv)
    as (saved & Hret & Hlen & Hall).
  exists saved. split; [done|]. split; [done|]. split.
  - intros i link Hl. destruct (Hall i link Hl)
      as (rec & Hr & Hp & Hus & Ho & Ht & Hurl & _).
    exists rec. by repeat split.
  - apply (sortBy_byOrder_increasing _ 0). intros i rec Hr.
    assert (i < length (default [] (ProfilePayload.links payload)))%nat
      as Hi by (rewrite <- Hlen; by eapply lookup_lt_Some).
    apply lookup_lt_is_Some in Hi as [link Hl].
    destruct (Hall i link Hl) as (rec' & Hr' & _ & _ & Ho & _).
    rewrite Hr in Hr'. by injection Hr' as <-.
Qed.

Module LinksScenario.
(** A blank title, padded texts. *)
Definition padded : ProfilePayload.t :=
  ProfilePayload.mk None (Some "Jess") "jess" None None
    (Some [LinkPayload.mk None (Some "   ") (Some " https://a ");
           LinkPayload.mk None (Some " Shop ") None])
    None.

Definition shown (p : ProfileWithLinks.t) : list (string * string * Z) :=
  (λ l, (ProfileLinkRecord.title l, ProfileLinkRecord.url l,
         ProfileLinkRecord.order_index l)) <$> ProfileWithLinks.links p.
End LinksScenario.

Lemma save_rebuilds_links_in_payload_order_witness :
  ∃ saved,
    (saveProfileForUser Scenario.clock Scenario.uuid "acc_1"
       LinksScenario.padded emptyWorld).2 = Returned saved
    ∧ LinksScenario.shown saved
      = [("Link 1", "https://a", 0%Z); ("Shop", "", 1%Z)].
Proof.
  destruct (save_rebuilds_links_in_payload_order Scenario.clock
              Scenario.uuid "acc_1" LinksScenario.padded emptyWorld
              eq_refl (conj eq_refl eq_refl)) as (saved & Hret & _).
  exists saved. split; [exact Hret|].
  vm_compute in Hret. by injection Hret as <-.
Defined.

(** X6.  Link identity across the replacement.  In a valid save, a payload
    link that carries a non-empty id keeps that id.  If the profile had a
    link with that id before the save, the stored link keeps the creation
    time and the [is_active] flag of such a link; otherwise, and for a
    link without id, the creation time is the time of the save and the
    link is active.  A link without id gets a generated id. *)
Theorem save_reuses_link_identity
    (dateNow : nat → Timestamp) (randomUUID : nat → string)
    (userId : string) (payload : ProfilePayload.t) (w : World)
    (i : nat) (link : LinkPayload.t) :
  Js.truthy userId = true → validPayload payload →
  default [] (ProfilePayload.links payload) !! i = Some link →
  let prior :=
    match findExisting payload (profilesOf w userId) with
    | Some (_, p) => ProfileWithLinks.links p
    | None => []
    end in
  let k := default "" (LinkPayload.id link) in
  ∃ saved rec,
    (saveProfileForUser dateNow randomUUID userId payload w).2
    = Returned saved
    ∧ ProfileWithLinks.links saved !! i = Some rec
    ∧ (Js.truthy k = true → ProfileLinkRecord.id rec = k)
    ∧ (Js.truthy k = false → ∃ n, ProfileLinkRecord.id rec = randomUUID n)
    ∧ ((Js.truthy k = true ∧ k ∈ ProfileLinkRecord.id <$> prior) →
       ∃ e, e ∈ prior ∧ ProfileLinkRecord.id e = k
            ∧ ProfileLinkRecord.created_at rec
              = ProfileLinkRecord.created_at e
            ∧ ProfileLinkRecord.is_active rec
              = ProfileLinkRecord.is_active e)
    ∧ (¬ (Js.truthy k = true ∧ k ∈ ProfileLinkRecord.id <$> prior) →
       ProfileLinkRecord.created_at rec = dateNow (clockReads w)
       ∧ ProfileLinkRecord.is_active rec = true).
Proof.
  intros Hu Hv Hl. simpl.
  destruct (save_links_rebuilt dateNow randomUUID userId payload w Hu Hv)
    as (saved & Hret & _ & Hall).
  destruct (Hall i link Hl)
    as (rec & Hr & _ & _ & _ & _ & _ & _ & Hact & Hcr & Hid).
  exists saved, rec. split; [done|]. split; [done|].
  assert (ProfileWithLinks.links
            (placed dateNow randomUUID userId payload w).1.2
          = match findExisting payload (profilesOf w userId) with
            | Some (_, p) => ProfileWithLinks.links p
            | None => []
            end) as Hprior.
  { unfold placed.
    by destruct (findExisting payload (profilesOf w userId)) as [[j p]|]. }
  set (prior := match findExisting payload (profilesOf w userId) with
                | Some (_, p) => ProfileWithLinks.links p
                | None => []
                end) in *.
  set (k := default "" (LinkPayload.id link)) in *.
  pose proof (existingLinksOf_lookup
                (placed dateNow randomUUID userId payload w).1.2 k) as Hex.
  rewrite Hprior in Hex. unfold existingFor in *. fold k in Hact, Hcr, Hid.
  destruct (Js.truthy k) eqn:Hk.
  - destruct (existingLinksOf _ !! k) as [e|] eqn:He; simpl in *.
    + destruct Hex as [Hin Heid]. rewrite Heid in Hid.
      unfold Js.orElse in Hid. rewrite Hk in Hid. rewrite Hk in Hid.
      split; [done|]. split; [done|]. split.
      * intros _. by exists e.
      * intros Hn. exfalso. apply Hn. split; [done|].
        apply list_elem_of_fmap. by exists e.
    + unfold Js.orElse in Hid. simpl in Hid. rewrite Hk in Hid.
      split; [done|]. split; [done|]. split; [|done].
      intros [_ Hin]. contradiction.
  - simpl in *. unfold Js.orElse in Hid. simpl in Hid. rewrite Hk in Hid.
    split; [done|]. split; [done|]. split; [by intros [? _]|done].
Qed.

Module IdentityScenario.
(** The profile "id-0" of [Scenario.afterJess] has the link "id-1",
    created at 1000.  The update sends that link again, renamed, after a
    new one. *)
Definition update : ProfilePayload.t :=
  ProfilePayload.mk (Some "id-0") (Some "Jess") "jess" None None
    (Some [LinkPayload.mk None (Some "New") (Some "https://new");
           LinkPayload.mk (Some "id-1") (Some "Site 2")
             (Some "https://jess.dev")])
    None.
End IdentityScenario.

Lemma save_reuses_link_identity_witness :
  ∃ saved rec,
    (saveProfileForUser Scenario.clock Scenario.uuid "acc_1"
       IdentityScenario.update Scenario.afterJess).2 = Returned saved
    ∧ ProfileWithLinks.links saved !! 1%nat = Some rec
    ∧ ProfileLinkRecord.id rec = "id-1"
    ∧ ProfileLinkRecord.created_at rec = 1000%N
    ∧ ProfileLinkRecord.title rec = "Site 2".
Proof.
  destruct (save_reuses_link_identity Scenario.clock Scenario.uuid "acc_1"
              IdentityScenario.update Scenario.afterJess 1%nat
              (LinkPayload.mk (Some "id-1") (Some "Site 2")
                 (Some "https://jess.dev"))
              eq_refl (conj eq_refl eq_refl) eq_refl)
    as (saved & rec & Hret & Hrec & Hid & _ & _ & _).
  exists saved, rec. split; [exact Hret|]. split; [exact Hrec|].
  split; [exact (Hid eq_refl)|].
  vm_compute in Hret. injection Hret as <-.
  vm_compute in Hrec. by injection Hrec as <-.
Defined.

(** ** Deleting *)

(** X7.  Deleting a profile id that the account does not have changes no
    profile of any account, no account record and reads no clock; it
    returns normally (or throws "userId and profileId are required" when
    one of the two ids is empty).  In particular it does not run the
    repair step. *)
Theorem delete_unknown_is_noop
    (dateNow : nat → Timestamp) (userId profileId : string) (w : World) :
  profileId ∉ profileIds (profilesOf w userId) →
  let r := deleteProfileForUser dateNow userId profileId w in
  (∀ u, profilesOf r.1 u = profilesOf w u)
  ∧ memoryAccounts r.1 = memoryAccounts w
  ∧ clockReads r.1 = clockReads w
  ∧ r.2 = (if Js.truthy userId && Js.truthy profileId
           then Returned tt
           else Thrown "userId and profileId are required").
Proof.
  intros Hid. simpl. unfold deleteProfileForUser.
  destruct (Js.truthy userId), (Js.truthy profileId); simpl; try done.
  unfold memoryDeleteProfileForUser, bind. rewrite ensureMemoryProfiles_run.
  destruct (list_find _ (profilesOf w userId)) as [[i p]|] eqn:Ef.
  - exfalso. apply list_find_Some in Ef as (Hi & Hp & _). apply Hid.
    unfold profileIds. apply list_elem_of_fmap. exists p.
    split; [done|]. by eapply list_elem_of_lookup_2.
  - simpl. destruct (touch_fields userId w) as (Ha & Hc & _ & _).
    split; [intros u; apply profilesOf_touch|]. done.
Qed.

Lemma delete_unknown_is_noop_witness :
  let r := deleteProfileForUser Scenario.clock "acc_1" "nope"
             Scenario.afterJess in
  r.2 = Returned tt
  ∧ profilesOf r.1 "acc_1" = profilesOf Scenario.afterJess "acc_1".
Proof.
  destruct (delete_unknown_is_noop Scenario.clock "acc_1" "nope"
              Scenario.afterJess) as (Hpo & _ & _ & Hret).
  - vm_compute. intros Hin. inversion Hin as [|? ? ? Hin']. inversion Hin'.
  - split; [exact Hret|apply Hpo].
Defined.





(** ** Activating *)

(** X9.  Activating a profile id of the account returns a stored profile
    with that id and [is_active] true; afterwards a profile of the account
    is active exactly when it has that id, and the ids are unchanged. *)
Theorem set_active_promotes_only_that_id
    (dateNow : nat → Timestamp) (userId profileId : string) (w : World) :
  profileId ∈ profileIds (profilesOf w userId) →
  let r := setActiveProfileForUser dateNow userId profileId w in
  let after := profilesOf r.1 userId in
  (∃ p, r.2 = Returned p ∧ p ∈ after
        ∧ ProfileWithLinks.id p = profileId
        ∧ ProfileWithLinks.is_active p = true
        ∧ ProfileWithLinks.updated_at p = dateNow (clockReads w))
  ∧ (∀ q, q ∈ after →
          (ProfileWithLinks.is_active q = true
           ↔ ProfileWithLinks.id q = profileId))
  ∧ profileIds after = profileIds (profilesOf w userId).
Proof.
  intros Hin. simpl.
  set (ps' := promote profileId (dateNow (clockReads w))
                <$> profilesOf w userId).
  assert (∃ i p,
            list_find (λ q, ProfileWithLinks.id q = profileId) ps'
            = Some (i, p)
            ∧ setActiveProfileForUser dateNow userId profileId w
              = (setProfiles userId ps' (tick w), Returned p))
    as (i & p & Ef & Hrun).
  { unfold setActiveProfileForUser, memorySetActiveProfileForUser.
    unfold bind at 1. rewrite memoryEnsureSingleActiveProfile_run.
    apply existsb_id_elem in Hin as Hex. rewrite Hex.
    unfold bind. rewrite ensureMemoryProfiles_run.
    rewrite touch_setProfiles, profilesOf_setProfiles_eq. fold ps'.
    destruct (list_find (λ q, ProfileWithLinks.id q = profileId) ps')
      as [[i p]|] eqn:Ef; [by exists i, p|].
    exfalso. apply list_find_None in Ef.
    rewrite <- (profileIds_promote profileId (dateNow (clockReads w)))
      in Hin.
    fold ps' in Hin. unfold profileIds in Hin.
    apply list_elem_of_fmap in Hin as (q & Hq & Hqin).
    eapply Forall_forall in Ef; [|exact Hqin]. by apply Ef. }
  rewrite Hrun. simpl. rewrite profilesOf_setProfiles_eq.
  assert (∀ q, q ∈ ps' →
            (ProfileWithLinks.is_active q = true
             ↔ ProfileWithLinks.id q = profileId)
            ∧ (ProfileWithLinks.id q = profileId →
               ProfileWithLinks.updated_at q = dateNow (clockReads w)))
    as Hall.
  { intros q Hq. apply list_elem_of_fmap in Hq as (q0 & -> & _).
    unfold promote. destruct (String.eqb _ _) eqn:E; simpl.
    - apply String.eqb_eq in E. by split.
    - apply String.eqb_neq in E. split; [|done]. by split. }
  apply list_find_Some in Ef as (Hi & Hp & _).
  assert (p ∈ ps') as Hpin by by eapply list_elem_of_lookup_2.
  destruct (Hall p Hpin) as [Hact Hupd].
  split; [|split].
  - exists p. split; [done|]. split; [done|]. split; [done|].
    split; [by apply Hact|by apply Hupd].
  - intros q Hq. by apply Hall.
  - apply profileIds_promote.
Qed.

Lemma set_active_promotes_only_that_id_witness :
  let r := setActiveProfileForUser Scenario.clock "acc_1" "id-3"
             DeleteScenario.threeProfiles in
  (λ p, (ProfileWithLinks.id p, ProfileWithLinks.is_active p))
    <$> profilesOf r.1 "acc_1"
  = [("id-0", false); ("id-2", false); ("id-3", true)].
Proof.
  destruct (set_active_promotes_only_that_id Scenario.clock "acc_1" "id-3"
              DeleteScenario.threeProfiles) as (_ & _ & Hids).
  - vm_compute. right. right. by left.
  - by vm_compute.
Defined.

(** ** Listing the profiles of an account *)

(** Non-decreasing keys along a list. *)
Fixpoint increasingBy {A} (key : A → Timestamp) (l : list A) : Prop :=
  match l with
  | [] => True
  | x :: r => Forall (λ y, (key x ≤ key y)%N) r ∧ increasingBy key r
  end.

Lemma localeCompare_le (a b : Timestamp) :
  (localeCompare a b <=? 0)%Z = true ↔ (a ≤ b)%N.
Proof.
  unfold localeCompare. destruct (N.compare_spec a b) as [->|H|H]; simpl.
  - split; [lia|done].
  - split; [lia|done].
  - split; [done|lia].
Qed.

Lemma insertBy_increasing {A} (key : A → Timestamp) (x : A) (l : list A) :
  increasingBy key l →
  increasingBy key (insertBy (λ a b, localeCompare (key a) (key b)) x l).
Proof.
  induction l as [|y r IH]; intros Hl; simpl.
  - by split.
  - destruct Hl as [Hy Hr].
    destruct (localeCompare (key x) (key y) <=? 0)%Z eqn:E.
    + apply localeCompare_le in E. simpl. split; [|by split].
      constructor; [done|].
      eapply Forall_impl; [exact Hy|]. simpl. intros z Hz. lia.
    + assert (key y ≤ key x)%N as Hyx.
      { destruct (N.le_gt_cases (key x) (key y)) as [Hle|Hgt]; [|lia].
        apply localeCompare_le in Hle. congruence. }
      simpl. split; [|by apply IH].
      rewrite (insertBy_perm _ x r). by constructor.
Qed.

Lemma sortBy_increasing {A} (key : A → Timestamp) (l : list A) :
  increasingBy key (sortBy (λ a b, localeCompare (key a) (key b)) l).
Proof.
  induction l as [|x l IH]; [done|]. simpl. by apply insertBy_increasing.
Qed.

Lemma increasingBy_lookup {A} (key : A → Timestamp) (l : list A) :
  increasingBy key l →
  ∀ i j a b, (i ≤ j)%nat → l !! i = Some a → l !! j = Some b →
             (key a ≤ key b)%N.
Proof.
  induction l as [|x r IH]; intros Hl i j a b Hij Ha Hb; [done|].
  destruct Hl as [Hx Hr].
  destruct i as [|i], j as [|j]; simpl in Ha, Hb.
  - injection Ha as <-. injection Hb as <-. lia.
  - injection Ha as <-. eapply Forall_forall in Hx; [exact Hx|].
    by eapply list_elem_of_lookup_2.
  - lia.
  - eapply (IH Hr i j); [lia|done|done].
Qed.

(** X10.  [getProfilesForUser] throws "userId is required" on an empty
    user id and changes nothing.  Otherwise it returns the stored profiles
    of the account, each exactly once, ordered by non-decreasing
    [created_at], and leaves every stored array as it was. *)
Theorem get_profiles_lists_by_creation_time (userId : string) (w : World) :
  let r := getProfilesForUser userId w in
  if Js.truthy userId
  then ∃ listed,
         r.2 = Returned listed
         ∧ listed ≡ₚ profilesOf w userId
         ∧ (∀ i j a b, (i ≤ j)%nat →
              listed !! i = Some a → listed !! j = Some b →
              (ProfileWithLinks.created_at a
               ≤ ProfileWithLinks.created_at b)%N)
         ∧ (∀ u, profilesOf r.1 u = profilesOf w u)
         ∧ memoryAccounts r.1 = memoryAccounts w
  else r = (w, Thrown "userId is required").
Proof.
  simpl. unfold getProfilesForUser.
  destruct (Js.truthy userId); [|done]. simpl.
  unfold memoryGetProfiles, bind. rewrite ensureMemoryProfiles_run.
  unfold ret. simpl. eexists. split; [done|].
  split; [apply sortBy_perm|].
  split; [apply increasingBy_lookup, sortBy_increasing|].
  split; [intros u; apply profilesOf_touch|].
  by destruct (touch_fields userId w) as (Ha & _).
Qed.

(** ** The active profile of an account *)

Section ActiveProfile.
Import ProfileWithLinks.

(** [memoryGetActiveProfileForUser]: the first profile of the array whose
    [is_active] is set, or [null]. *)
Definition memoryGetActiveProfileForUser (userId : string)
  : M (option ProfileWithLinks.t) :=
  profiles <- ensureMemoryProfiles userId ;;
  ret (snd <$> list_find (λ profile, is_active profile = true) profiles).

(** [getActiveProfileForUser], with [SUPABASE_ENABLED] false. *)
Definition getActiveProfileForUser (userId : string)
  : M (option ProfileWithLinks.t) :=
  memoryGetActiveProfileForUser userId.

Lemma getActiveProfileForUser_run userId w :
  getActiveProfileForUser userId w
  = (touch userId w,
     Returned (snd <$> list_find (λ profile, is_active profile = true)
                         (profilesOf w userId))).
Proof.
  unfold getActiveProfileForUser, memoryGetActiveProfileForUser, bind.
  by rewrite ensureMemoryProfiles_run.
Qed.

(** After [memoryEnsureSingleActiveProfile], the first active profile is
    the first profile with the desired id. *)
Lemma list_find_promote desired now (ps : list ProfileWithLinks.t) :
  list_find (λ profile, is_active profile = true)
            (promote desired now <$> ps)
  = list_find (λ profile, id profile = desired)
              (promote desired now <$> ps).
Proof.
  induction ps as [|p ps IH]; [done|].
  cbn [fmap list_fmap list_find]. rewrite IH.
  assert (is_active (promote desired now p) = true
          ↔ id (promote desired now p) = desired) as Hiff.
  { unfold promote. destruct (String.eqb (id p) desired) eqn:E; simpl.
    - apply String.eqb_eq in E. by split.
    - apply String.eqb_neq in E. by split. }
  destruct (decide (is_active (promote desired now p) = true)) as [Ha|Ha],
           (decide (id (promote desired now p) = desired)) as [Hd|Hd];
    try done.
  - exfalso. by apply Hd, Hiff.
  - exfalso. by apply Ha, Hiff.
Qed.

Lemma list_find_active_repair now (ps : list ProfileWithLinks.t) :
  list_find (λ profile, is_active profile = true) (repair now ps) = None
  ↔ ps = [].
Proof.
  split; [|by intros ->].
  intros Hnone. destruct ps as [|first rest]; [done|]. exfalso.
  apply list_find_None in Hnone.
  assert (1 ≤ countActive (repair now (first :: rest)))%nat as Hact.
  { unfold repair. destruct (existsb is_active (first :: rest)) eqn:E.
    - by apply existsb_active_pos.
    - rewrite countActive_cons. simpl. lia. }
  apply existsb_active_pos, existsb_exists in Hact as (q & Hq & Hqa).
  apply list_elem_of_In in Hq.
  eapply Forall_forall in Hnone; [|exact Hq]. by apply Hnone.
Qed.
End ActiveProfile.

(** What [setActiveProfileForUser] does, found or not. *)
Lemma setActiveProfileForUser_exact
    (dateNow : nat → Timestamp) (userId profileId : string) (w : World) :
  setActiveProfileForUser dateNow userId profileId w
  = (setProfiles userId
       (promote profileId (dateNow (clockReads w)) <$> profilesOf w userId)
       (tick w),
     match list_find (λ q, ProfileWithLinks.id q = profileId)
             (promote profileId (dateNow (clockReads w))
                <$> profilesOf w userId)
     with
     | Some (_, p) => Returned p
     | None => Thrown "Profile not found"
     end).
Proof.
  set (ps' := promote profileId (dateNow (clockReads w))
                <$> profilesOf w userId).
  unfold setActiveProfileForUser, memorySetActiveProfileForUser.
  unfold bind at 1. rewrite memoryEnsureSingleActiveProfile_run.
  fold ps'.
  destruct (existsb (λ p, String.eqb (ProfileWithLinks.id p) profileId)
              (profilesOf w userId)) eqn:Hex.
  - unfold bind. rewrite ensureMemoryProfiles_run.
    rewrite touch_setProfiles, profilesOf_setProfiles_eq.
    by destruct (list_find _ ps') as [[i p]|].
  - destruct (list_find (λ q, ProfileWithLinks.id q = profileId) ps')
      as [[i p]|] eqn:Ef; [|done].
    exfalso. apply list_find_Some in Ef as (Hi & Hp & _).
    assert (profileId ∈ profileIds (profilesOf w userId)) as Hin.
    { rewrite <- (profileIds_promote profileId
                   (dateNow (clockReads w))).
      unfold profileIds. apply list_elem_of_fmap. exists p.
      split; [done|]. by eapply list_elem_of_lookup_2. }
    apply existsb_id_elem in Hin. congruence.
Qed.

(** X11.  [getActiveProfileForUser] agrees with
    [setActiveProfileForUser]: after an activation that returned a
    profile it returns that very profile, and after one that threw
    "Profile not found" it returns [null], since the failed call has
    deactivated every profile of the account. *)
Theorem active_profile_follows_set_active
    (dateNow : nat → Timestamp) (userId profileId : string) (w : World) :
  let r := setActiveProfileForUser dateNow userId profileId w in
  (getActiveProfileForUser userId r.1).2
  = Returned (match r.2 with Returned p => Some p | _ => None end)
  ∧ (r.2 = Thrown "Profile not found" ∨ ∃ p, r.2 = Returned p).
Proof.
  simpl. rewrite setActiveProfileForUser_exact. cbn [fst snd].
  rewrite getActiveProfileForUser_run. cbn [snd].
  rewrite profilesOf_setProfiles_eq.
  rewrite list_find_promote.
  destruct (list_find (λ q, ProfileWithLinks.id q = profileId) _)
    as [[i p]|]; simpl.
  - split; [done|]. right. by exists p.
  - split; [done|]. by left.
Qed.

(** X12.  Deleting a profile the account has leaves it with an active
    profile whenever a profile remains, whatever the flags were before
    (none active after a failed activation, say):
    [getActiveProfileForUser] then returns [null] exactly when the
    account has no profile left. *)
Theorem delete_leaves_an_active_profile
    (dateNow : nat → Timestamp) (userId profileId : string) (w : World) :
  Js.truthy userId = true → Js.truthy profileId = true →
  profileId ∈ profileIds (profilesOf w userId) →
  let r := deleteProfileForUser dateNow userId profileId w in
  r.2 = Returned tt
  ∧ ((getActiveProfileForUser userId r.1).2 = Returned None
     ↔ length (profilesOf w userId) = 1%nat)
  ∧ ∀ p, (getActiveProfileForUser userId r.1).2 = Returned (Some p) →
         p ∈ profilesOf r.1 userId ∧ ProfileWithLinks.is_active p = true.
Proof.
  intros Hu Hp Hin. simpl.
  destruct (list_find (λ q, ProfileWithLinks.id q = profileId)
              (profilesOf w userId)) as [[i p]|] eqn:Ef.
  2:{ exfalso. apply list_find_None in Ef. unfold profileIds in Hin.
      apply list_elem_of_fmap in Hin as (q & -> & Hq).
      eapply Forall_forall in Ef; [|exact Hq]. by apply Ef. }
  destruct (deleteProfileForUser_found dateNow userId profileId w i p
              Hu Hp Ef) as (Hret & Hafter).
  split; [done|].
  rewrite getActiveProfileForUser_run. cbn [snd]. rewrite Hafter.
  apply list_find_Some in Ef as (Hi & _ & _).
  assert (i < length (profilesOf w userId))%nat as Hlt
    by by eapply lookup_lt_Some.
  split.
  - split.
    + intros [= Hnone].
      destruct (list_find _ (repair _ _)) as [[j q]|] eqn:Ef; [done|].
      apply list_find_active_repair in Ef.
      apply (f_equal length) in Ef. rewrite length_delete in Ef
        by (by eexists). simpl in Ef. lia.
    + intros Hlen.
      assert (delete i (profilesOf w userId) = []) as ->.
      { apply length_zero_iff_nil. rewrite length_delete by (by eexists).
        lia. }
      done.
  - intros q Hq.
    destruct (list_find _ (repair _ _)) as [[j q']|] eqn:Ef; [|done].
    simpl in Hq. injection Hq as ->.
    apply list_find_Some in Ef as (Hj & Ha & _).
    split; [by eapply list_elem_of_lookup_2|done].
Qed.

Lemma delete_leaves_an_active_profile_witness :
  let failed := (setActiveProfileForUser Scenario.clock "acc_1" "nope"
                   DeleteScenario.threeProfiles).1 in
  (getActiveProfileForUser "acc_1" failed).2 = Returned None
  ∧ ∃ p, (getActiveProfileForUser "acc_1"
            (deleteProfileForUser Scenario.clock "acc_1" "id-2" failed).1).2
         = Returned (Some p)
         ∧ ProfileWithLinks.id p = "id-0".
Proof.
  split; [by vm_compute|].
  destruct (delete_leaves_an_active_profile Scenario.clock "acc_1" "id-2"
              (setActiveProfileForUser Scenario.clock "acc_1" "nope"
                 DeleteScenario.threeProfiles).1)
    as (_ & _ & Hsome).
  - done.
  - done.
  - vm_compute. right. by left.
  - eexists. split; [by vm_compute|done].
Defined.

Lemma list_find_single_active (ps : list ProfileWithLinks.t) :
  ∀ i p,
    countActive ps = 1%nat → ps !! i = Some p →
    ProfileWithLinks.is_active p = true →
    list_find (λ profile, ProfileWithLinks.is_active profile = true) ps
    = Some (i, p).
Proof.
  induction ps as [|x r IH]; intros i p Hc Hi Hp; [done|].
  rewrite countActive_cons in Hc. cbn [list_find].
  destruct i as [|i]; simpl in Hi.
  - injection Hi as ->. by rewrite decide_True.
  - destruct (ProfileWithLinks.is_active x) eqn:Ex.
    + exfalso. assert (1 ≤ countActive r)%nat; [|lia].
      apply existsb_active_pos, existsb_exists. exists p.
      split; [|done]. apply list_elem_of_In.
      by eapply list_elem_of_lookup_2.
    + rewrite decide_False by done. by rewrite (IH i p).
Qed.

(** X13.  In a store whose ids are distinct and where at most one
    profile per account is active, a valid save that asks for activation,
    or that finds no active profile in the account, returns a profile
    with [is_active] true, and [getActiveProfileForUser] then returns
    that very profile. *)
Theorem saved_profile_is_served
    (dateNow : nat → Timestamp) (randomUUID : nat → string)
    (userId : string) (payload : ProfilePayload.t) (w : World) :
  (∀ i j, randomUUID i = randomUUID j → i = j) →
  wellFormed randomUUID w →
  Js.truthy userId = true → validPayload payload →
  ProfilePayload.active payload = Some true
  ∨ countActive (profilesOf w userId) = 0%nat →
  let r := saveProfileForUser dateNow randomUUID userId payload w in
  ∃ saved,
    r.2 = Returned saved
    ∧ ProfileWithLinks.is_active saved = true
    ∧ (getActiveProfileForUser userId r.1).2 = Returned (Some saved).
Proof.
  intros Hinj Hwf Hu Hv Hcase. simpl.
  unfold saveProfileForUser. rewrite Hu. simpl.
  destruct (memorySaveProfileForUser_run dateNow randomUUID userId payload w
              Hv)
    as (newLinks & dl & accs & d & saved & _ & Hrun & Hsaved & _).
  rewrite Hrun. cbn [fst snd]. exists saved. split; [done|].
  rewrite getActiveProfileForUser_run. cbn [snd].
  assert (∀ A C D,
    profilesOf (mkWorld (<[userId := savedProfiles dateNow randomUUID userId
                                       payload w newLinks]>
                           (memoryProfiles w)) A C D) userId
    = savedProfiles dateNow randomUUID userId payload w newLinks) as ->.
  { intros. unfold profilesOf. simpl. by rewrite lookup_insert_eq. }
  destruct (placed_wf dateNow randomUUID Hinj userId payload w Hwf)
    as [Hnd _].
  destruct (Hwf userId) as (_ & _ & Hle).
  pose proof (savedProfiles_count dateNow randomUUID userId payload w
                newLinks Hnd Hle) as Hone.
  assert (ProfileWithLinks.is_active saved = true) as Hact.
  { pose proof (placed_lookup dateNow randomUUID userId payload w) as Hl.
    pose proof (placed_count dateNow randomUUID userId payload w) as Hc.
    unfold savedProfiles, activation in Hsaved.
    set (pl := placed dateNow randomUUID userId payload w) in *.
    assert (alter (ProfileWithLinks.set_links newLinks) pl.1.1 pl.2
              !! pl.1.1
            = Some (ProfileWithLinks.set_links newLinks pl.1.2)) as Hl2.
    { rewrite list_lookup_alter, decide_True by done. by rewrite Hl. }
    destruct Hcase as [Hyes|Hzero].
    - unfold payloadActive in Hsaved. rewrite Hyes in Hsaved.
      simpl in Hsaved. rewrite list_lookup_fmap, Hl2 in Hsaved.
      simpl in Hsaved. injection Hsaved as <-.
      unfold promote. simpl. by rewrite String.eqb_refl.
    - destruct (payloadActive payload).
      + rewrite list_lookup_fmap, Hl2 in Hsaved.
        simpl in Hsaved. injection Hsaved as <-.
        unfold promote. simpl. by rewrite String.eqb_refl.
      + assert (existsb ProfileWithLinks.is_active
                  (alter (ProfileWithLinks.set_links newLinks) pl.1.1 pl.2)
                = false) as E.
        { apply existsb_active_count.
          rewrite countActive_alter by done. lia. }
        rewrite E in Hsaved.
        rewrite list_lookup_alter, decide_True in Hsaved by done.
        rewrite Hl2 in Hsaved. simpl in Hsaved. by injection Hsaved as <-. }
  split; [done|].
  by rewrite (list_find_single_active _ _ saved Hone Hsaved Hact).
Qed.

Lemma saved_profile_is_served_witness :
  ∃ saved,
    (saveProfileForUser Scenario.clock Scenario.uuid "acc_1"
       Scenario.work Scenario.afterJess).2 = Returned saved
    ∧ (getActiveProfileForUser "acc_1"
         (saveProfileForUser Scenario.clock Scenario.uuid "acc_1"
            Scenario.work Scenario.afterJess).1).2
      = Returned (Some saved).
Proof.
  destruct (saved_profile_is_served Scenario.clock Scenario.uuid "acc_1"
              Scenario.work Scenario.afterJess Scenario_uuid_inj)
    as (saved & Hret & _ & Hget).
  - exact (proj1 (saveProfileForUser_step Scenario.clock Scenario.uuid
                    Scenario_uuid_inj "acc_1" Scenario.jess emptyWorld
                    (wellFormed_empty Scenario.uuid))).
  - done.
  - by split.
  - by left.
  - exists saved. split; [exact Hret|exact Hget].
Defined.

(** ** Account records *)

(** The set [existing] of [generateMemoryHandle]: the usernames of all
    account records. *)
Definition usernames (accounts : gmap string AccountRecord.t)
  : gset string :=
  list_to_set ((λ kv, AccountRecord.username kv.2) <$> map_to_list accounts).

Lemma elem_of_usernames (accounts : gmap string AccountRecord.t) x :
  x ∈ usernames accounts
  ↔ ∃ u r, accounts !! u = Some r ∧ AccountRecord.username r = x.
Proof.
  unfold usernames. rewrite elem_of_list_to_set, list_elem_of_fmap. split.
  - intros ([u r] & -> & H). apply elem_of_map_to_list in H.
    by exists u, r.
  - intros (u & r & H & <-). exists (u, r). split; [done|].
    by apply elem_of_map_to_list.
Qed.

Section LoopLeast.
Import Loop.
Context (used : gset string) (cand : nat → string).

Lemma whileUsed_least fuel :
  ∀ k s, whileUsed used cand fuel k = Some s →
    ∃ j, (k ≤ j)%nat ∧ s = cand j ∧ (s ∉ used)
         ∧ (∀ i, (k ≤ i < j)%nat → cand i ∈ used).
Proof.
  induction fuel as [|fuel IH]; intros k s; simpl;
    destruct (decide (cand k ∈ used)) as [Hin|Hout].
  - done.
  - intros [= <-]. exists k. repeat split; try done. intros i Hi. lia.
  - intros H. destruct (IH _ _ H) as (j & Hj & -> & Hf & Hbelow).
    exists j. split; [lia|]. split; [done|]. split; [done|].
    intros i Hi. destruct (decide (i = k)) as [->|]; [done|].
    apply Hbelow. lia.
  - intros [= <-]. exists k. repeat split; try done. intros i Hi. lia.
Qed.

Lemma firstFree_least s :
  firstFree used cand = Some s →
  ∃ j, s = cand j ∧ (s ∉ used) ∧ (∀ i, (i < j)%nat → cand i ∈ used).
Proof.
  intros H. apply whileUsed_least in H as (j & _ & -> & Hf & Hb).
  exists j. split; [done|]. split; [done|]. intros i Hi. apply Hb. lia.
Qed.
End LoopLeast.

Lemma orElse_empty (a : string) : Js.orElse a "" = a.
Proof.
  unfold Js.orElse, Js.truthy. destruct (String.eqb_spec a ""); by subst.
Qed.

Lemma truthy_slice0 (s : string) :
  Js.truthy s = true → Js.truthy (Js.slice0 8 s) = true.
Proof. by destruct s. Qed.

Section Accounts.
Context (dateNow : nat → Timestamp) (randomUUID : nat → string).
Import ProfileWithLinks.

(** The constant [seed] of [generateMemoryHandle] when no random id is
    needed: the normalised preferred handle, or "user-" followed by the
    first eight characters of the user id. *)
Definition seedFor (userId : string) (preferred : option string)
  : string :=
  let base := normaliseHandle (Js.optOrElse preferred "") in
  if Js.truthy base then base else "user-" +:+ Js.slice0 8 userId.

(** The handle the loop of [generateMemoryHandle] stops at. *)
Definition handleFor (userId : string) (preferred : option string)
    (accounts : gmap string AccountRecord.t) : string :=
  default "" (Loop.firstFree (usernames accounts)
                (handleCandidate (seedFor userId preferred))).

(** The record [ensureMemoryAccountRecord] returns and stores. *)
Definition accountFor (userId : string)
    (fallbackHandle displayName : option string)
    (accounts : gmap string AccountRecord.t) : AccountRecord.t :=
  match accounts !! userId with
  | Some existing =>
      if Js.truthy (default "" displayName)
         && negb (Js.truthy (default "" (AccountRecord.display_name existing)))
      then AccountRecord.mk (AccountRecord.user_id existing)
             (AccountRecord.username existing) displayName
             (AccountRecord.avatar_url existing)
             (AccountRecord.avatar_updated_at existing)
      else existing
  | None =>
      AccountRecord.mk userId (handleFor userId fallbackHandle accounts)
        displayName None None
  end.

(** [getAccountHandleForUser], with [SUPABASE_ENABLED] false. *)
Definition getAccountHandleForUser (userId : string) : M string :=
  if negb (Js.truthy userId) then throw "userId is required"
  else
    record <- ensureMemoryAccountRecord randomUUID userId None None ;;
    ret (AccountRecord.username record).

Lemma generateMemoryHandle_no_draw userId preferred w :
  Js.truthy (normaliseHandle (Js.optOrElse preferred "")) = true
  ∨ Js.truthy userId = true →
  generateMemoryHandle randomUUID userId preferred w
  = (w, Returned (handleFor userId preferred (memoryAccounts w))).
Proof.
  intros H. unfold generateMemoryHandle, handleFor, seedFor.
  assert (∀ seed,
    (accounts <- getAccounts ;;
     match Loop.firstFree
             (list_to_set ((λ kv, AccountRecord.username kv.2)
                             <$> map_to_list accounts))
             (handleCandidate seed) with
     | Some candidate => ret candidate
     | None => outOfFuel
     end) w
    = (w, Returned (default "" (Loop.firstFree
                                  (usernames (memoryAccounts w))
                                  (handleCandidate seed))))) as Hloop.
  { intros seed. unfold bind, getAccounts.
    fold (usernames (memoryAccounts w)).
    destruct (firstFree_terminates (usernames (memoryAccounts w))
                (handleCandidate seed) (handleCandidate_inj seed))
      as [s Hs].
    by rewrite Hs. }
  destruct (Js.truthy (normaliseHandle (Js.optOrElse preferred ""))).
  - unfold bind at 1. unfold ret at 1. apply Hloop.
  - destruct H as [H|H]; [done|].
    rewrite (truthy_slice0 _ H).
    unfold bind at 1. unfold bind at 1. unfold ret at 1. unfold ret at 1.
    apply Hloop.
Qed.

Lemma ensureMemoryAccountRecord_no_draw userId fb dn w :
  Js.truthy (normaliseHandle (Js.optOrElse fb "")) = true
  ∨ Js.truthy userId = true →
  ensureMemoryAccountRecord randomUUID userId fb dn w
  = (withEnv (<[userId := accountFor userId fb dn (memoryAccounts w)]>
                (memoryAccounts w)) 0 w,
     Returned (accountFor userId fb dn (memoryAccounts w))).
Proof.
  intros H. unfold ensureMemoryAccountRecord, accountFor.
  unfold bind at 1. unfold getAccounts at 1.
  destruct (memoryAccounts w !! userId) as [existing|] eqn:E.
  - destruct (_ && _).
    + unfold bind, setAccount, ret. done.
    + unfold ret. rewrite insert_id by done. by destruct w.
  - unfold bind. rewrite (generateMemoryHandle_no_draw _ _ _ H).
    unfold setAccount, ret. done.
Qed.

(** The accounts after a save that passes the guards. *)
Lemma memorySaveProfileForUser_run_accounts userId payload w :
  validPayload payload →
  ∃ newLinks d saved,
    memorySaveProfileForUser dateNow randomUUID userId payload w
    = (mkWorld
         (<[userId := savedProfiles dateNow randomUUID userId payload w
                        newLinks]> (memoryProfiles w))
         (<[userId := accountFor userId (Some (payloadHandle payload))
                        (Some (payloadName payload)) (memoryAccounts w)]>
            (memoryAccounts w))
         ((if payloadActive payload then 2 else 1) + clockReads w)
         (d + uuidDraws w),
       Returned saved).
Proof.
  intros [Hname Hhandle].
  pose proof (placed_lookup dateNow randomUUID userId payload w) as Hl.
  pose proof (placedWorld_fields dateNow randomUUID userId payload w) as HW.
  destruct (placed_profile dateNow randomUUID userId payload w)
    as (Hpn & Hph & _).
  destruct (mapMi_saveLink_fields randomUUID userId
              (id (placed dateNow randomUUID userId payload w).1.2)
              (dateNow (clockReads w))
              (existingLinksOf (placed dateNow randomUUID userId payload w).1.2)
              (default [] (ProfilePayload.links payload)) 0%nat
              (<[userId := (placed dateNow randomUUID userId payload w).2]>
                 (memoryProfiles w))
              (memoryAccounts w) (S (clockReads w))
              (match findExisting payload (profilesOf w userId) with
               | Some _ => 0 | None => 1 end + uuidDraws w)%nat)
    as (dl & newLinks & HL).
  rewrite <- HW in HL.
  destruct (savedProfiles_lookup dateNow randomUUID userId payload w
              newLinks) as (saved & Hsaved & Hsid).
  pose proof (savedProfiles_active dateNow randomUUID userId payload w
                newLinks) as Hact.
  set (pl := placed dateNow randomUUID userId payload w) in *.
  set (k := match findExisting payload (profilesOf w userId) with
            | Some _ => 0%nat | None => 1%nat end) in *.
  assert (alter (set_links newLinks) pl.1.1 pl.2 !! pl.1.1
          = Some (set_links newLinks pl.1.2)) as Hl2.
  { rewrite list_lookup_alter, decide_True by done. by rewrite Hl. }
  assert (Js.truthy (normaliseHandle
                       (Js.optOrElse (Some (payloadHandle payload)) ""))
          = true) as Hseed.
  { simpl. rewrite orElse_empty. unfold payloadHandle.
    rewrite normaliseHandle_idem. exact Hhandle. }
  pose proof (ensureMemoryAccountRecord_no_draw userId
                (Some (payloadHandle payload)) (Some (payloadName payload))
                (mkWorld
                   (<[userId := alter (set_links newLinks) pl.1.1 pl.2]>
                      (memoryProfiles w))
                   (memoryAccounts w) (S (clockReads w))
                   (dl + (k + uuidDraws w))%nat)
                (or_introl Hseed)) as HA.
  unfold withEnv in HA. cbn [memoryProfiles memoryAccounts clockReads
                             uuidDraws Nat.add] in HA.
  exists newLinks, (dl + k)%nat, saved.
  unfold memorySaveProfileForUser.
  change (default "" (Js.trim <$> ProfilePayload.name payload))
    with (payloadName payload).
  change (normaliseHandle (ProfilePayload.handle payload))
    with (payloadHandle payload).
  rewrite Hname, Hhandle. cbn [negb].
  unfold bind at 1. rewrite ensureMemoryProfiles_run.
  unfold bind at 1. unfold newDate at 1.
  destruct (touch_fields userId w) as (Ta & Tc & Td & Tp).
  rewrite Ta, Tc, Td.
  fold (findExisting payload (profilesOf w userId)).
  fold (payloadHeadline payload). fold (payloadTheme payload).
  match goal with
  | |- bind ?m _ ?W = _ =>
      assert (m W = (placedWorld dateNow randomUUID userId payload w,
                     Returned (pl.1.1, pl.1.2))) as Hplace
  end.
  { rewrite HW. subst pl k. unfold placed.
    destruct (findExisting payload (profilesOf w userId)) as [[i p]|].
    - unfold bind. rewrite mutateProfile_run. unfold ret, setProfiles.
      simpl. rewrite Tp.
      assert (∀ A C D,
        profilesOf (mkWorld (memoryProfiles (touch userId w)) A C D) userId
        = profilesOf w userId) as ->
        by (intros; exact (profilesOf_touch userId userId w)).
      done.
    - unfold bind, randomId, writeProfiles, ret. simpl. rewrite Tp. done. }
  unfold bind at 1. rewrite Hplace. cbn [fst snd].
  fold (existingLinksOf pl.1.2).
  unfold bind at 1. unfold savedLinks in HL. fold pl in HL. rewrite HW in HL.
  rewrite HW. rewrite HL.
  unfold bind at 1. rewrite mutateProfile_present.
  unfold bind at 1. rewrite readProfile_present, Hl2.
  cbn [from_option Datatypes.id].
  change (handle (set_links newLinks pl.1.2)) with (handle pl.1.2).
  change (name (set_links newLinks pl.1.2)) with (name pl.1.2).
  rewrite Hph, Hpn.
  unfold bind at 1. rewrite HA.
  fold (payloadActive payload).
  unfold savedProfiles, activation in Hsaved, Hact |- *.
  fold pl in Hsaved, Hact |- *.
  change (id (set_links newLinks pl.1.2)) with (id pl.1.2).
  destruct (payloadActive payload).
  - unfold bind at 1. rewrite memoryEnsureSingleActiveProfile_present.
    assert (existsb (λ p, String.eqb (id p) (id pl.1.2))
              (alter (set_links newLinks) pl.1.1 pl.2) = true) as ->.
    { apply existsb_exists. exists (set_links newLinks pl.1.2).
      split; [|apply String.eqb_refl].
      apply list_elem_of_In. by eapply list_elem_of_lookup_2. }
    unfold bind at 1.
    rewrite memoryEnsureHasActiveProfile_present by exact Hact.
    rewrite readProfile_present, Hsaved. cbn [from_option Datatypes.id].
    do 2 f_equal. lia.
  - unfold bind at 1. unfold bind at 1.
    rewrite ensureMemoryProfiles_present.
    destruct (existsb is_active (alter (set_links newLinks) pl.1.1 pl.2)).
    + unfold ret at 1. unfold bind at 1.
      rewrite memoryEnsureHasActiveProfile_present by exact Hact.
      rewrite readProfile_present, Hsaved. cbn [from_option Datatypes.id].
      do 2 f_equal. lia.
    + rewrite mutateProfile_present. unfold bind at 1.
      rewrite memoryEnsureHasActiveProfile_present by exact Hact.
      rewrite readProfile_present, Hsaved. cbn [from_option Datatypes.id].
      do 2 f_equal. lia.
Qed.
End Accounts.

(** No two account records carry the same username. *)
Definition distinctUsernames (accounts : gmap string AccountRecord.t)
  : Prop :=
  ∀ u1 u2 r1 r2,
    accounts !! u1 = Some r1 → accounts !! u2 = Some r2 →
    AccountRecord.username r1 = AccountRecord.username r2 → u1 = u2.

Lemma accountFor_existing userId fb dn
    (accounts : gmap string AccountRecord.t) existing :
  accounts !! userId = Some existing →
  AccountRecord.username (accountFor userId fb dn accounts)
  = AccountRecord.username existing
  ∧ AccountRecord.user_id (accountFor userId fb dn accounts)
    = AccountRecord.user_id existing.
Proof. unfold accountFor. intros ->. by destruct (_ && _). Qed.

Lemma handleFor_least userId fb (accounts : gmap string AccountRecord.t) :
  ∃ k, handleFor userId fb accounts
       = handleCandidate (seedFor userId fb) k
       ∧ (handleFor userId fb accounts ∉ usernames accounts)
       ∧ (∀ j, (j < k)%nat →
               handleCandidate (seedFor userId fb) j ∈ usernames accounts).
Proof.
  unfold handleFor.
  destruct (firstFree_terminates (usernames accounts)
              (handleCandidate (seedFor userId fb))
              (handleCandidate_inj (seedFor userId fb))) as [s Hs].
  rewrite Hs. simpl.
  destruct (firstFree_least _ _ _ Hs) as (j & -> & Hf & Hb). by exists j.
Qed.

Lemma distinctUsernames_accountFor userId fb dn
    (accounts : gmap string AccountRecord.t) :
  distinctUsernames accounts →
  distinctUsernames (<[userId := accountFor userId fb dn accounts]> accounts).
Proof.
  intros Hd u1 u2 r1 r2 H1 H2 Heq.
  destruct (accounts !! userId) as [existing|] eqn:E.
  - destruct (accountFor_existing userId fb dn accounts existing E)
      as [Hn _].
    assert (∀ u r,
      <[userId := accountFor userId fb dn accounts]> accounts !! u = Some r →
      ∃ r0, accounts !! u = Some r0
            ∧ AccountRecord.username r0 = AccountRecord.username r)
      as Hback.
    { intros u r. destruct (decide (u = userId)) as [->|Hne].
      - rewrite lookup_insert_eq. intros [= <-]. exists existing.
        by rewrite Hn.
      - rewrite lookup_insert_ne by done. intros H. by exists r. }
    destruct (Hback _ _ H1) as (r1' & H1' & Hn1).
    destruct (Hback _ _ H2) as (r2' & H2' & Hn2).
    apply (Hd u1 u2 r1' r2' H1' H2'). congruence.
  - destruct (handleFor_least userId fb accounts) as (k & _ & Hfresh & _).
    assert (AccountRecord.username (accountFor userId fb dn accounts)
            = handleFor userId fb accounts) as Hn
      by (unfold accountFor; by rewrite E).
    destruct (decide (u1 = userId)) as [->|Hne1],
             (decide (u2 = userId)) as [->|Hne2]; [done| | |].
    + rewrite lookup_insert_eq in H1. injection H1 as <-.
      rewrite lookup_insert_ne in H2 by done. exfalso. apply Hfresh.
      apply elem_of_usernames. exists u2, r2. split; [done|]. congruence.
    + rewrite lookup_insert_eq in H2. injection H2 as <-.
      rewrite lookup_insert_ne in H1 by done. exfalso. apply Hfresh.
      apply elem_of_usernames. exists u1, r1. split; [done|]. congruence.
    + rewrite lookup_insert_ne in H1 by done.
      rewrite lookup_insert_ne in H2 by done. by eapply Hd.
Qed.

Lemma repairWorld_accounts
    (dateNow : nat → Timestamp) (userId : string) (w : World) :
  memoryAccounts (repairWorld dateNow userId w) = memoryAccounts w.
Proof.
  unfold repairWorld, touch.
  destruct (profilesOf w userId); [by destruct (memoryProfiles w !! userId)|].
  destruct (existsb _ _); [by destruct (memoryProfiles w !! userId)|done].
Qed.

(** The account records after one operation. *)
Lemma perform_accounts
    (dateNow : nat → Timestamp) (randomUUID : nat → string)
    (op : Op) (w : World) :
  memoryAccounts (perform dateNow randomUUID op w).1
  = match op with
    | OpSave userId payload =>
        if (Js.truthy userId && Js.truthy (payloadName payload))
           && Js.truthy (payloadHandle payload)
        then <[userId := accountFor userId (Some (payloadHandle payload))
                           (Some (payloadName payload)) (memoryAccounts w)]>
               (memoryAccounts w)
        else memoryAccounts w
    | _ => memoryAccounts w
    end.
Proof.
  destruct op as [userId payload|userId pid|userId pid]; unfold perform.
  - unfold bind.
    destruct (saveProfileForUser_cases dateNow randomUUID userId payload w)
      as [(Hu & [Hn Hh] & _)|(Hnot & Hw & _)].
    + rewrite Hu, Hn, Hh. simpl. unfold saveProfileForUser. rewrite Hu.
      simpl.
      destruct (memorySaveProfileForUser_run_accounts dateNow randomUUID
                  userId payload w (conj Hn Hh)) as (nl & d & saved & ->).
      done.
    + assert ((Js.truthy userId && Js.truthy (payloadName payload))
              && Js.truthy (payloadHandle payload) = false) as ->.
      { destruct (Js.truthy userId) eqn:E1; [|done].
        destruct (Js.truthy (payloadName payload)) eqn:E2; [|done].
        destruct (Js.truthy (payloadHandle payload)) eqn:E3; [|done].
        exfalso. apply Hnot. by repeat split. }
      simpl in Hw.
      destruct (saveProfileForUser dateNow randomUUID userId payload w)
        as [w' [?|?|]]; simpl in *; by subst.
  - unfold bind. rewrite setActiveProfileForUser_exact.
    by destruct (list_find _ _) as [[i p]|].
  - unfold deleteProfileForUser.
    destruct (negb (Js.truthy userId) || negb (Js.truthy pid)); [done|].
    unfold memoryDeleteProfileForUser, bind.
    rewrite ensureMemoryProfiles_run.
    destruct (touch_fields userId w) as (Ha & _).
    destruct (list_find _ (profilesOf w userId)) as [[i p]|]; [|done].
    rewrite writeProfiles_run, setProfiles_touch.
    rewrite memoryEnsureHasActiveProfile_run. simpl.
    by rewrite repairWorld_accounts.
Qed.

Module AccountScenario.
(** A second user asks for the handle the first one holds. *)
Definition sameHandle : ProfilePayload.t :=
  ProfilePayload.mk None (Some "Jessica") " JESS " None None None None.

Definition twoUsers : list Op :=
  [OpSave "acc_1" Scenario.jess; OpSave "acc_2" sameHandle].

Definition usernameOf (w : World) (userId : string) : option string :=
  AccountRecord.username <$> memoryAccounts w !! userId.
End AccountScenario.

(** X14.  Account usernames stay pairwise distinct under any sequence of
    saves, activations and deletions, whether the calls return or throw:
    a save never gives an account the username of another one, even when
    both ask for the same handle. *)
Theorem account_usernames_stay_distinct
    (dateNow : nat → Timestamp) (randomUUID : nat → string)
    (ops : list Op) (w : World) :
  distinctUsernames (memoryAccounts w) →
  distinctUsernames (memoryAccounts (runOps dateNow randomUUID ops w)).
Proof.
  revert w. induction ops as [|op ops IH]; intros w Hd; [done|].
  simpl. apply IH. rewrite perform_accounts.
  destruct op as [userId payload|userId pid|userId pid]; [|done|done].
  destruct (_ && _); [|done].
  by apply distinctUsernames_accountFor.
Qed.

Lemma account_usernames_stay_distinct_witness :
  let w := runOps Scenario.clock Scenario.uuid AccountScenario.twoUsers
             emptyWorld in
  distinctUsernames (memoryAccounts w)
  ∧ AccountScenario.usernameOf w "acc_1" = Some "jess"
  ∧ AccountScenario.usernameOf w "acc_2" = Some "jess-1".
Proof.
  split; [|split; by vm_compute].
  apply (account_usernames_stay_distinct Scenario.clock Scenario.uuid
           AccountScenario.twoUsers emptyWorld).
  intros u1 u2 r1 r2 H1. simpl in H1. by rewrite lookup_empty in H1.
Defined.

(** X15.  The username and the user id of an account record never change
    once the record exists: no save (whatever handle or name it carries),
    activation or deletion alters them. *)
Theorem account_username_is_permanent
    (dateNow : nat → Timestamp) (randomUUID : nat → string)
    (ops : list Op) (w : World) (u : string) (record : AccountRecord.t) :
  memoryAccounts w !! u = Some record →
  ∃ record',
    memoryAccounts (runOps dateNow randomUUID ops w) !! u = Some record'
    ∧ AccountRecord.username record' = AccountRecord.username record
    ∧ AccountRecord.user_id record' = AccountRecord.user_id record.
Proof.
  revert w record. induction ops as [|op ops IH]; intros w record Hr.
  { by exists record. }
  simpl.
  assert (∃ r1, memoryAccounts (perform dateNow randomUUID op w).1 !! u
                = Some r1
                ∧ AccountRecord.username r1 = AccountRecord.username record
                ∧ AccountRecord.user_id r1 = AccountRecord.user_id record)
    as (r1 & Hr1 & Hn1 & Hu1).
  { rewrite perform_accounts.
    destruct op as [userId payload|userId pid|userId pid];
      [|by exists record|by exists record].
    destruct (_ && _); [|by exists record].
    destruct (decide (u = userId)) as [->|Hne].
    - rewrite lookup_insert_eq. eexists. split; [done|].
      by apply accountFor_existing.
    - rewrite lookup_insert_ne by done. by exists record. }
  destruct (IH _ r1 Hr1) as (r' & Hr' & Hn' & Hu').
  exists r'. split; [done|]. split; congruence.
Qed.

Module RenameScenario.
(** The first user saves again, under another handle and name. *)
Definition renamed : ProfilePayload.t :=
  ProfilePayload.mk (Some "id-0") (Some "J. Doe") "jdoe" None None None None.
End RenameScenario.

Lemma account_username_is_permanent_witness :
  ∃ record',
    memoryAccounts
      (runOps Scenario.clock Scenario.uuid
         [OpSave "acc_1" RenameScenario.renamed] Scenario.afterJess)
      !! "acc_1" = Some record'
    ∧ AccountRecord.username record' = "jess".
Proof.
  destruct (account_username_is_permanent Scenario.clock Scenario.uuid
              [OpSave "acc_1" RenameScenario.renamed] Scenario.afterJess
              "acc_1"
              (AccountRecord.mk "acc_1" "jess" (Some "Jess") None None))
    as (r & Hr & Hn & _).
  - by vm_compute.
  - exists r. split; [exact Hr|exact Hn].
Defined.

(** X16.  The first valid save of a user without an account record
    creates the record: its display name is the trimmed profile name and
    its username is the normalised handle, or, when other accounts hold
    that username, the handle followed by "-k" for the least counter [k]
    that is free.  The records of the other users are left as they
    were. *)
Theorem first_save_names_the_account
    (dateNow : nat → Timestamp) (randomUUID : nat → string)
    (userId : string) (payload : ProfilePayload.t) (w : World) :
  Js.truthy userId = true → validPayload payload →
  memoryAccounts w !! userId = None →
  let r := saveProfileForUser dateNow randomUUID userId payload w in
  ∃ k,
    memoryAccounts r.1 !! userId
    = Some (AccountRecord.mk userId
              (handleCandidate (payloadHandle payload) k)
              (Some (payloadName payload)) None None)
    ∧ (handleCandidate (payloadHandle payload) k
         ∉ usernames (memoryAccounts w))
    ∧ (∀ j, (j < k)%nat →
            handleCandidate (payloadHandle payload) j
              ∈ usernames (memoryAccounts w))
    ∧ (∀ u, u ≠ userId → memoryAccounts r.1 !! u = memoryAccounts w !! u).
Proof.
  intros Hu Hv Hnone. simpl.
  pose proof (perform_accounts dateNow randomUUID (OpSave userId payload) w)
    as Hacc.
  unfold perform, bind in Hacc.
  assert (memoryAccounts
            (saveProfileForUser dateNow randomUUID userId payload w).1
          = <[userId := accountFor userId (Some (payloadHandle payload))
                          (Some (payloadName payload)) (memoryAccounts w)]>
              (memoryAccounts w)) as ->.
  { destruct Hv as [Hn Hh]. rewrite Hu, Hn, Hh in Hacc. simpl in Hacc.
    rewrite <- Hacc.
    by destruct (saveProfileForUser dateNow randomUUID userId payload w)
      as [w' [?|?|]]. }
  destruct (handleFor_least userId (Some (payloadHandle payload))
              (memoryAccounts w)) as (k & Hk & Hfresh & Hleast).
  assert (seedFor userId (Some (payloadHandle payload))
          = payloadHandle payload) as Hseed.
  { unfold seedFor. simpl. rewrite orElse_empty. unfold payloadHandle.
    rewrite normaliseHandle_idem. destruct Hv as [_ Hh].
    unfold payloadHandle in Hh. by rewrite Hh. }
  rewrite Hseed in Hk, Hleast. rewrite Hk in Hfresh.
  exists k. split; [|split; [done|split; [done|]]].
  - rewrite lookup_insert_eq. unfold accountFor. by rewrite Hnone, Hk.
  - intros u Hne. by rewrite lookup_insert_ne.
Qed.

Lemma first_save_names_the_account_witness :
  AccountScenario.usernameOf
    (saveProfileForUser Scenario.clock Scenario.uuid "acc_2"
       AccountScenario.sameHandle Scenario.afterJess).1 "acc_2"
  = Some "jess-1".
Proof.
  destruct (first_save_names_the_account Scenario.clock Scenario.uuid
              "acc_2" AccountScenario.sameHandle Scenario.afterJess)
    as (k & Hrec & _).
  - done.
  - by split.
  - by vm_compute.
  - by vm_compute.
Defined.

Lemma getAccountHandleForUser_run
    (randomUUID : nat → string) (userId : string) (w : World) :
  Js.truthy userId = true →
  getAccountHandleForUser randomUUID userId w
  = (withEnv (<[userId := accountFor userId None None (memoryAccounts w)]>
                (memoryAccounts w)) 0 w,
     Returned (AccountRecord.username
                 (accountFor userId None None (memoryAccounts w)))).
Proof.
  intros Hu. unfold getAccountHandleForUser. rewrite Hu. simpl.
  unfold bind.
  by rewrite (ensureMemoryAccountRecord_no_draw randomUUID userId None None
                w (or_intror Hu)).
Qed.

(** X17.  [getAccountHandleForUser] throws "userId is required" on an
    empty user id and changes nothing.  Otherwise it returns a handle,
    touches no profile, and is stable: a second call returns the same
    handle and changes nothing any more; for a user who has an account
    record it returns the stored username and leaves the state as it
    is. *)
Theorem account_handle_is_stable
    (randomUUID : nat → string) (userId : string) (w : World) :
  let r := getAccountHandleForUser randomUUID userId w in
  if Js.truthy userId
  then ∃ h,
         r.2 = Returned h
         ∧ getAccountHandleForUser randomUUID userId r.1
           = (r.1, Returned h)
         ∧ memoryProfiles r.1 = memoryProfiles w
         ∧ (∀ record, memoryAccounts w !! userId = Some record →
                      h = AccountRecord.username record ∧ r.1 = w)
  else r = (w, Thrown "userId is required").
Proof.
  simpl. destruct (Js.truthy userId) eqn:Hu.
  2:{ unfold getAccountHandleForUser. by rewrite Hu. }
  rewrite (getAccountHandleForUser_run randomUUID userId w Hu).
  set (rec := accountFor userId None None (memoryAccounts w)).
  exists (AccountRecord.username rec). cbn [fst snd].
  split; [done|]. split; [|split; [done|]].
  - rewrite (getAccountHandleForUser_run randomUUID userId _ Hu).
    unfold withEnv. cbn [memoryProfiles memoryAccounts clockReads uuidDraws
                         Nat.add].
    assert (accountFor userId None None
              (<[userId := rec]> (memoryAccounts w)) = rec) as ->.
    { unfold accountFor at 1. by rewrite lookup_insert_eq. }
    by rewrite insert_insert_eq.
  - intros record Hrec.
    assert (rec = record) as ->.
    { unfold rec, accountFor. by rewrite Hrec. }
    split; [done|]. unfold withEnv. rewrite insert_id by done.
    by destruct w.
Qed.

(** X18.  For a user without an account record (and a non-empty id)
    [getAccountHandleForUser] creates one whose username is "user-"
    followed by the first eight characters of the user id, with the
    suffix "-k" for the least free counter [k] when other accounts hold
    that username; the handle it returns is not the username of any other
    account. *)
Theorem account_handle_defaults_to_user_prefix
    (randomUUID : nat → string) (userId : string) (w : World) :
  Js.truthy userId = true →
  memoryAccounts w !! userId = None →
  let r := getAccountHandleForUser randomUUID userId w in
  let seed := "user-" +:+ Js.slice0 8 userId in
  ∃ k,
    r.2 = Returned (handleCandidate seed k)
    ∧ memoryAccounts r.1 !! userId
      = Some (AccountRecord.mk userId (handleCandidate seed k)
                None None None)
    ∧ (handleCandidate seed k ∉ usernames (memoryAccounts w))
    ∧ (∀ j, (j < k)%nat →
            handleCandidate seed j ∈ usernames (memoryAccounts w))
    ∧ (∀ u, u ≠ userId → memoryAccounts r.1 !! u = memoryAccounts w !! u).
Proof.
  intros Hu Hnone. simpl.
  rewrite (getAccountHandleForUser_run randomUUID userId w Hu).
  cbn [fst snd]. unfold withEnv. cbn [memoryAccounts].
  destruct (handleFor_least userId None (memoryAccounts w))
    as (k & Hk & Hfresh & Hleast).
  assert (seedFor userId None = "user-" +:+ Js.slice0 8 userId) as Hseed
    by done.
  rewrite Hseed in Hk, Hleast. rewrite Hk in Hfresh.
  assert (accountFor userId None None (memoryAccounts w)
          = AccountRecord.mk userId
              (handleCandidate ("user-" +:+ Js.slice0 8 userId) k)
              None None None) as ->.
  { unfold accountFor. by rewrite Hnone, Hk. }
  exists k. split; [done|]. split; [by rewrite lookup_insert_eq|].
  split; [done|]. split; [done|].
  intros u Hne. by rewrite lookup_insert_ne.
Qed.

Lemma account_handle_defaults_to_user_prefix_witness :
  (getAccountHandleForUser Scenario.uuid "0123456789abcdef" emptyWorld).2
  = Returned "user-01234567".
Proof.
  destruct (account_handle_defaults_to_user_prefix Scenario.uuid
              "0123456789abcdef" emptyWorld) as (k & Hret & _).
  - done.
  - done.
  - by vm_compute.
Defined.

(** ** Lead-form keys *)

Section KeyShape.
Import LeadFormBuilder.

Definition isUnderscore (c : ascii) : bool := Ascii.eqb c "_".

(** A key over [a-z0-9_] of at most 40 characters that neither starts
    nor ends with an underscore. *)
Definition cleanKey (s : string) : Prop :=
  let l := list_ascii_of_string s in
  Forall (λ c, isKeyChar c = true) l
  ∧ (length l ≤ 40)%nat
  ∧ head l ≠ Some "_"%char
  ∧ last l ≠ Some "_"%char.

Lemma list_of_dropUnderscores (s : string) :
  list_ascii_of_string (dropUnderscores s)
  = dropWhileL isUnderscore (list_ascii_of_string s).
Proof.
  induction s as [|a s IH]; [done|].
  destruct a as [[] [] [] [] [] [] [] []]; done.
Qed.

Lemma list_of_stripUnderscores (s : string) :
  list_ascii_of_string (stripUnderscores s)
  = trimL isUnderscore (list_ascii_of_string s).
Proof.
  unfold stripUnderscores, trimL.
  by rewrite list_of_rev, list_of_dropUnderscores, list_of_rev,
             list_of_dropUnderscores.
Qed.

Lemma replaceRuns_keyChars (s : string) :
  ∀ inRun, Forall (λ c, isKeyChar c = true)
             (list_ascii_of_string (replaceRuns inRun s)).
Proof.
  induction s as [|a s IH]; intros inRun; simpl; [constructor|].
  destruct (isKeyChar a) eqn:E; simpl.
  - constructor; [done|apply IH].
  - destruct inRun; [apply IH|]. simpl. constructor; [done|apply IH].
Qed.


Lemma replaceRuns_fixed (s : string) :
  Forall (λ c, isKeyChar c = true) (list_ascii_of_string s) →
  ∀ inRun, replaceRuns inRun s = s.
Proof.
  induction s as [|a s IH]; intros Hk inRun; simpl; [done|].
  simpl in Hk. apply Forall_cons in Hk as [Ha Hs].
  rewrite Ha. by rewrite IH.
Qed.

Lemma dropWhileL_Forall (P : ascii → Prop) (p : ascii → bool)
    (l : list ascii) :
  Forall P l → Forall P (dropWhileL p l).
Proof.
  induction 1 as [|c l Hc Hl IH]; simpl; [constructor|].
  destruct (p c); [done|by constructor].
Qed.

Lemma dropWhileL_length (p : ascii → bool) (l : list ascii) :
  (length (dropWhileL p l) ≤ length l)%nat.
Proof.
  induction l as [|c l IH]; simpl; [done|]. destruct (p c); simpl; lia.
Qed.

Lemma trimL_Forall (P : ascii → Prop) (p : ascii → bool) (l : list ascii) :
  Forall P l → Forall P (trimL p l).
Proof.
  intros H. unfold trimL.
  by apply Forall_reverse, dropWhileL_Forall, Forall_reverse,
           dropWhileL_Forall.
Qed.

Lemma trimL_length (p : ascii → bool) (l : list ascii) :
  (length (trimL p l) ≤ length l)%nat.
Proof.
  unfold trimL. rewrite length_reverse.
  etrans; [apply dropWhileL_length|]. rewrite length_reverse.
  apply dropWhileL_length.
Qed.

Lemma isKeyChar_lower (c : ascii) :
  isKeyChar c = true → Js.toLowerChar c = c.
Proof. destruct c as [[] [] [] [] [] [] [] []]; by vm_compute. Qed.

Lemma isKeyChar_space (c : ascii) :
  isKeyChar c = true → Js.isWhiteSpace c = false.
Proof. destruct c as [[] [] [] [] [] [] [] []]; by vm_compute. Qed.

Lemma head_cleanEnds (p : ascii → bool) (l : list ascii) (c : ascii) :
  cleanEnds p l → p c = true → head l ≠ Some c ∧ last l ≠ Some c.
Proof.
  intros [Hh Hl] Hp. split.
  - destruct l as [|x r]; [done|]. simpl. intros [= ->].
    specialize (Hh c r eq_refl). congruence.
  - intros Hlast. apply last_Some in Hlast as [r ->].
    specialize (Hl c r eq_refl). congruence.
Qed.

Lemma cleanEnds_of_head_last (l : list ascii) :
  head l ≠ Some "_"%char → last l ≠ Some "_"%char →
  cleanEnds isUnderscore l.
Proof.
  intros Hh Hl. split.
  - intros c r -> . simpl in Hh. unfold isUnderscore.
    destruct (Ascii.eqb_spec c "_"); [by subst|done].
  - intros c r ->. rewrite last_snoc in Hl. unfold isUnderscore.
    destruct (Ascii.eqb_spec c "_"); [by subst|done].
Qed.

Lemma cleanEnds_keyChars (l : list ascii) :
  Forall (λ c, isKeyChar c = true) l → cleanEnds Js.isWhiteSpace l.
Proof.
  intros Hk. split.
  - intros c r ->. apply Forall_cons in Hk as [Hc _].
    by apply isKeyChar_space.
  - intros c r ->. apply Forall_app in Hk as [_ Hc].
    apply Forall_cons in Hc as [Hc _]. by apply isKeyChar_space.
Qed.

Lemma list_of_normalizeKey (value : string) :
  list_ascii_of_string (normalizeKey value)
  = take 40
      (trimL isUnderscore
         (list_ascii_of_string
            (replaceRuns false (Js.toLowerCase (Js.trim value))))).
Proof.
  unfold normalizeKey. by rewrite list_of_slice0, list_of_stripUnderscores.
Qed.

Lemma normalizeKey_keyChars (value : string) :
  Forall (λ c, isKeyChar c = true)
         (list_ascii_of_string (normalizeKey value)).
Proof.
  rewrite list_of_normalizeKey.
  apply Forall_take, trimL_Forall, replaceRuns_keyChars.
Qed.



Lemma isUnderscore_true : isUnderscore "_" = true.
Proof. done. Qed.

(** On a string over [a-z0-9_], only the underscores at the ends and the
    characters after the fortieth are removed. *)
Lemma normalizeKey_on_keyChars (s : string) :
  Forall (λ c, isKeyChar c = true) (list_ascii_of_string s) →
  list_ascii_of_string (normalizeKey s)
  = take 40 (trimL isUnderscore (list_ascii_of_string s)).
Proof.
  intros Hk. rewrite list_of_normalizeKey.
  assert (Js.trim s = s) as ->.
  { apply string_list_inj. rewrite list_of_trim.
    by apply cleanEnds_trimL, cleanEnds_keyChars. }
  assert (Js.toLowerCase s = s) as ->.
  { apply string_list_inj. rewrite list_of_toLowerCase.
    induction Hk as [|c l Hc Hl IH]; [done|].
    rewrite fmap_cons, IH. by rewrite isKeyChar_lower. }
  by rewrite replaceRuns_fixed.
Qed.

Lemma normalizeKey_clean (s : string) : cleanKey s → normalizeKey s = s.
Proof.
  intros (Hk & Hlen & Hh & Hl). apply string_list_inj.
  rewrite normalizeKey_on_keyChars by done.
  rewrite (cleanEnds_trimL isUnderscore)
    by by apply cleanEnds_of_head_last.
  by apply take_ge.
Qed.
End KeyShape.


(** X20.  The keys [normalizeKey] leaves unchanged are exactly the
    strings over [a-z0-9_] of at most 40 characters that neither start
    nor end with an underscore. *)
Theorem normalizeKey_fixed_points (s : string) :
  LeadFormBuilder.normalizeKey s = s ↔ cleanKey s.
Proof.
  split; [|apply normalizeKey_clean].
  intros Hfix.
  assert (Forall (λ c, LeadFormBuilder.isKeyChar c = true)
            (list_ascii_of_string s)) as Hk
    by (rewrite <- Hfix; apply normalizeKey_keyChars).
  pose proof (normalizeKey_on_keyChars s Hk) as Hl. rewrite Hfix in Hl.
  unfold cleanKey. cbv zeta.
  set (l := list_ascii_of_string s) in *.
  pose proof (trimL_length isUnderscore l) as Hle.
  pose proof (f_equal length Hl) as Hlen. rewrite length_take in Hlen.
  assert (trimL isUnderscore l = l) as Htrim.
  { rewrite take_ge in Hl by lia. done. }
  pose proof (trimL_cleanEnds isUnderscore l) as Hclean.
  rewrite Htrim in Hclean.
  destruct (head_cleanEnds isUnderscore l "_" Hclean isUnderscore_true)
    as [Hh Hlast].
  split; [done|]. split; [lia|]. by split.
Qed.

Lemma normalizeKey_fixed_points_witness :
  LeadFormBuilder.normalizeKey "first_name" = "first_name"
  ∧ ¬ cleanKey "name_".
Proof.
  split.
  - apply (normalizeKey_fixed_points "first_name").
    split; [|split; [|split]].
    + repeat constructor.
    + simpl. lia.
    + discriminate.
    + discriminate.
  - intros H. apply (normalizeKey_fixed_points "name_") in H.
    vm_compute in H. discriminate.
Defined.

(** ** [ensureUniqueKeys] *)

Section UniqueKeysShape.
Import LeadFormBuilder.


Lemma firstFree_first (used : gset string) (cand : nat → string) :
  cand 0%nat ∉ used → Loop.firstFree used cand = Some (cand 0%nat).
Proof.
  intros H. unfold Loop.firstFree.
  destruct (size used); simpl; by rewrite decide_False.
Qed.





Lemma ensureUniqueKeysFrom_clean (fields : list BuilderField) :
  ∀ used,
    NoDup (keysOf fields) →
    (∀ k, k ∈ keysOf fields →
          (k ∉ used) ∧ normalizeKey k = k ∧ Js.truthy k = true) →
    ensureUniqueKeysFrom used fields = Some fields.
Proof.
  induction fields as [|field rest IH]; intros used Hnd Hall; [done|].
  unfold keysOf in Hnd, Hall. rewrite fmap_cons in Hnd, Hall.
  apply NoDup_cons in Hnd as [Hnotin Hnd].
  destruct (Hall (key field)) as (Hfresh & Hnorm & Ht); [by left|].
  simpl.
  assert (Js.orElse (Js.orElse (key field) (label field)) "field"
          = key field) as ->
    by (unfold Js.orElse; by rewrite Ht, Ht).
  rewrite Hnorm.
  assert (Js.orElse (key field) "field" = key field) as ->
    by (unfold Js.orElse; by rewrite Ht).
  rewrite (firstFree_first used (keyCandidate (key field))) by done.
  simpl. rewrite IH; [by destruct field|done|].
  intros k Hk. destruct (Hall k) as (Hf & Hn & Htk); [by right|].
  split; [|done]. intros Hin.
  apply elem_of_union in Hin as [Hin|Hin]; [|done].
  apply elem_of_singleton in Hin. subst k. by apply Hnotin.
Qed.
End UniqueKeysShape.


(** X22.  Fields whose keys are pairwise distinct, non-empty and already
    normalised (over [a-z0-9_], at most 40 characters, no underscore at
    either end) go through [ensureUniqueKeys] unchanged. *)
Theorem unique_clean_keys_are_kept
    (fields : list LeadFormBuilder.BuilderField) :
  NoDup (LeadFormBuilder.keysOf fields) →
  (∀ k, k ∈ LeadFormBuilder.keysOf fields →
        cleanKey k ∧ Js.truthy k = true) →
  LeadFormBuilder.ensureUniqueKeys fields = Some fields.
Proof.
  intros Hnd Hall. apply ensureUniqueKeysFrom_clean; [done|].
  intros k Hk. destruct (Hall k Hk) as [Hc Ht].
  split; [apply not_elem_of_empty|]. split; [|done].
  by apply normalizeKey_clean.
Qed.

Module KeysScenario.
Import LeadFormBuilder.
Definition nameField : BuilderField :=
  mkField "f1" "name" "Name" text true true false "" []
    (mkValidation None None).
Definition emailField : BuilderField :=
  mkField "f2" "email" "Email" email true true false "" []
    (mkValidation None None).
End KeysScenario.

Lemma unique_clean_keys_are_kept_witness :
  LeadFormBuilder.ensureUniqueKeys
    [KeysScenario.nameField; KeysScenario.emailField]
  = Some [KeysScenario.nameField; KeysScenario.emailField].
Proof.
  apply (unique_clean_keys_are_kept
           [KeysScenario.nameField; KeysScenario.emailField]).
  - unfold LeadFormBuilder.keysOf. simpl.
    apply NoDup_cons. split; [|apply NoDup_singleton].
    intros H. apply list_elem_of_singleton in H. discriminate.
  - intros k Hk. unfold LeadFormBuilder.keysOf in Hk. simpl in Hk.
    apply elem_of_cons in Hk as [->|Hk].
    + split; [|done]. split; [repeat constructor|].
      split; [simpl; lia|]. split; discriminate.
    + apply list_elem_of_singleton in Hk. subst k.
      split; [|done]. split; [repeat constructor|].
      split; [simpl; lia|]. split; discriminate.
Defined.

(** ** The public lead form *)

Section LeadSubmission.
Import PublicLeadForm.

Lemma attempt_effects net f payload done msg e :
  attempt net f payload = (done, msg) →
  e ∈ done → forwards e = true →
  (e = InsertLead payload ∨ e = PostSubmit payload
   ∨ e = PostNotify payload (emptyToNull (trap f)))
  ∧ head done = Some (InsertLead payload).
Proof.
  unfold attempt. intros Ha Hin Hf.
  assert (∀ tail : list Effect,
            e ∈ PostNotify payload (emptyToNull (trap f))
                :: ShowToast (thanks f) :: tail →
            Forall (λ x, forwards x = false) tail →
            e = PostNotify payload (emptyToNull (trap f))) as Hdone.
  { intros tail Hx Htail.
    apply elem_of_cons in Hx as [->|Hx]; [done|].
    apply elem_of_cons in Hx as [->|Hx]; [done|].
    eapply Forall_forall in Htail; [|exact Hx]. congruence. }
  assert (Forall (λ x, forwards x = false)
            (if redirectEnabled (settings f)
                && Js.truthy (redirectUrl (settings f))
             then [Redirect (redirectUrl (settings f))] else []))
    as Htail by (destruct (_ && _); repeat constructor).
  destruct (insertResult net).
  - injection Ha as <- <-. split; [|done].
    apply elem_of_cons in Hin as [->|Hin]; [by left|].
    right. right. by apply (Hdone _ Hin).
  - destruct (submitResult net); injection Ha as <- <-; (split; [|done]).
    + apply elem_of_cons in Hin as [->|Hin]; [by left|].
      apply elem_of_cons in Hin as [->|Hin]; [right; by left|].
      right. right. by apply (Hdone _ Hin).
    + apply elem_of_cons in Hin as [->|Hin]; [by left|].
      apply list_elem_of_singleton in Hin as ->. right. by left.
    + apply elem_of_cons in Hin as [->|Hin]; [by left|].
      apply list_elem_of_singleton in Hin as ->. right. by left.
  - injection Ha as <- <-. split; [|done].
    apply list_elem_of_singleton in Hin as ->. by left.
Qed.


Lemma trimValue_trimmed (v : option Value) (s : string) :
  trimValue v = Some s → Js.trim s = s.
Proof.
  unfold trimValue. destruct v as [[x|b|]|]; try done.
  intros [= <-]. apply trim_idem.
Qed.

Lemma buildLeadPayload_fields owner f payload :
  buildLeadPayload owner f = Some payload →
  Lead.user_id payload = owner
  ∧ Lead.handle payload = handle f
  ∧ Lead.source_url payload = sourceUrl f
  ∧ Lead.custom_fields payload = valuesOf f
  ∧ Js.trim (Lead.name payload) = Lead.name payload
  ∧ Js.trim (Lead.email payload) = Lead.email payload.
Proof.
  unfold buildLeadPayload. cbv zeta. intros H.
  repeat case_match; try done. injection H as <-. simpl.
  repeat split; eauto using trimValue_trimmed.
Qed.

(** One step of the [forEach] of [buildLeadPayload]. *)
Definition valueStep (f : Form) (values : gmap string Value)
    (field : DynamicField) : gmap string Value :=
  let k := fieldKey field in
  <[k := match readAnswer (answers f) k with
         | Some v => v
         | None =>
             match type field with
             | checkbox => VBoolean false
             | _ => VString ""
             end
         end]> values.

Lemma valuesOf_fold (f : Form) :
  valuesOf f = fold_left (valueStep f) (fields f) ∅.
Proof. done. Qed.

Lemma fold_valueStep (f : Form) (l : list DynamicField) (k : string) :
  (is_Some (fold_left (valueStep f) l ∅ !! k) ↔ k ∈ fieldKey <$> l)
  ∧ ∀ v, fold_left (valueStep f) l ∅ !! k = Some v →
         match readAnswer (answers f) k with
         | Some a => v = a
         | None => v = VBoolean false ∨ v = VString ""
         end.
Proof.
  induction l as [|field l IH] using rev_ind.
  - simpl. rewrite lookup_empty. split.
    + split; [by intros [? ?]|]. intros H. by apply elem_of_nil in H.
    + done.
  - rewrite fold_left_app. simpl. destruct IH as [IHdom IHval].
    unfold valueStep at 1 3. cbv zeta.
    rewrite fmap_app. simpl.
    destruct (decide (k = fieldKey field)) as [->|Hne].
    + rewrite lookup_insert_eq. split.
      * split; [|by eexists]. intros _. apply elem_of_app. right.
        by apply list_elem_of_singleton.
      * intros v [= <-].
        destruct (readAnswer (answers f) (fieldKey field)); [done|].
        destruct (type field); auto.
    + rewrite lookup_insert_ne by done. split; [|done].
      rewrite IHdom, elem_of_app, list_elem_of_singleton.
      split; [by left|]. by intros [?|?].
Qed.
End LeadSubmission.

(** X23.  [onSubmit] stores or posts a lead only after every check has
    passed: whenever one of its effects is the insert or one of the two
    posts, the owner id is known, [validateRequired] succeeded, the
    hidden input is blank, and the row sent is the one [buildLeadPayload]
    built: it carries the owner id as [user_id], the form's handle, a
    non-empty trimmed name and email, and as custom fields the values of
    the form.  The insert is always the first effect. *)
Theorem lead_is_sent_only_after_all_checks
    (net : PublicLeadForm.Network) (f : PublicLeadForm.Form)
    (e : PublicLeadForm.Effect) :
  e ∈ PublicLeadForm.effects (PublicLeadForm.onSubmit net f) →
  PublicLeadForm.forwards e = true →
  ∃ owner payload,
    PublicLeadForm.ownerId f = Some owner ∧ Js.truthy owner = true
    ∧ PublicLeadForm.validateRequired f = PublicLeadForm.Ok
    ∧ ¬ PublicLeadForm.honeypotFilled f
    ∧ PublicLeadForm.buildLeadPayload owner f = Some payload
    ∧ PublicLeadForm.Lead.user_id payload = owner
    ∧ PublicLeadForm.Lead.handle payload = PublicLeadForm.handle f
    ∧ PublicLeadForm.Lead.custom_fields payload = PublicLeadForm.valuesOf f
    ∧ Js.truthy (PublicLeadForm.Lead.name payload) = true
    ∧ Js.trim (PublicLeadForm.Lead.name payload)
      = PublicLeadForm.Lead.name payload
    ∧ Js.truthy (PublicLeadForm.Lead.email payload) = true
    ∧ Js.trim (PublicLeadForm.Lead.email payload)
      = PublicLeadForm.Lead.email payload
    ∧ (e = PublicLeadForm.InsertLead payload
       ∨ e = PublicLeadForm.PostSubmit payload
       ∨ e = PublicLeadForm.PostNotify payload
               (PublicLeadForm.emptyToNull (PublicLeadForm.trap f)))
    ∧ head (PublicLeadForm.effects (PublicLeadForm.onSubmit net f))
      = Some (PublicLeadForm.InsertLead payload).
Proof.
  unfold PublicLeadForm.onSubmit.
  assert (∀ t, e ∈ [PublicLeadForm.ShowToast t] →
               PublicLeadForm.forwards e = true → False) as Htoast.
  { intros t Hin Hf. apply list_elem_of_singleton in Hin. by subst e. }
  destruct (PublicLeadForm.ownerId f) as [owner|] eqn:Eo;
    [|intros Hin Hf; exfalso; by eapply Htoast].
  destruct (Js.truthy owner) eqn:Et; simpl;
    [|intros Hin Hf; exfalso; by eapply Htoast].
  destruct (PublicLeadForm.validateRequired f) eqn:Ev;
    [|intros Hin Hf; exfalso; by eapply Htoast].
  destruct (0 <? String.length (Js.trim (PublicLeadForm.trap f)))%nat
    eqn:Etrap; [intros Hin Hf; exfalso; by eapply Htoast|].
  apply Nat.ltb_ge in Etrap.
  destruct (PublicLeadForm.buildLeadPayload owner f) as [payload|] eqn:Ep.
  2:{ simpl. intros Hin. by apply elem_of_nil in Hin. }
  destruct (Js.truthy (PublicLeadForm.Lead.name payload)) eqn:En; simpl;
    [|intros Hin Hf; exfalso; by eapply Htoast].
  destruct (Js.truthy (PublicLeadForm.Lead.email payload)) eqn:Ee; simpl;
    [|intros Hin Hf; exfalso; by eapply Htoast].
  destruct (buildLeadPayload_fields owner f payload Ep)
    as (Hu & Hh & _ & Hc & Htn & Hte).
  destruct (PublicLeadForm.attempt net f payload) as [done [msg|]] eqn:Ea;
    simpl; intros Hin Hf.
  - apply elem_of_app in Hin as [Hin|Hin].
    + destruct (attempt_effects net f payload done _ e Ea Hin Hf)
        as [He Hhead].
      exists owner, payload. repeat (split; [done|]).
      split; [unfold PublicLeadForm.honeypotFilled; lia|].
      repeat (split; [done|]).
      destruct done; [done|]. exact Hhead.
    + exfalso. apply elem_of_cons in Hin as [->|Hin]; [done|].
      by eapply Htoast.
  - destruct (attempt_effects net f payload done _ e Ea Hin Hf)
      as [He Hhead].
    exists owner, payload. repeat (split; [done|]).
    split; [unfold PublicLeadForm.honeypotFilled; lia|].
    by repeat (split; [done|]).
Qed.

Lemma lead_is_sent_only_after_all_checks_witness :
  ∃ payload,
    head (PublicLeadForm.effects
            (PublicLeadForm.onSubmit LeadScenario.online
               LeadScenario.genuine))
    = Some (PublicLeadForm.InsertLead payload)
    ∧ PublicLeadForm.Lead.user_id payload = "owner-1"
    ∧ PublicLeadForm.Lead.name payload = "Ann".
Proof.
  destruct (lead_is_sent_only_after_all_checks LeadScenario.online
              LeadScenario.genuine
              (PublicLeadForm.PostNotify
                 (PublicLeadForm.Lead.mk "owner-1" "jess" "Ann" "ann@x.io"
                    None None None None
                    (PublicLeadForm.valuesOf LeadScenario.genuine))
                 None))
    as (owner & payload & Ho & _ & _ & _ & Hp & Hu & _ & _ & _ & _ & _ & _
        & _ & Hhead).
  - vm_compute. right. by left.
  - done.
  - exists payload. split; [exact Hhead|].
    injection Ho as <-. split; [exact Hu|].
    vm_compute in Hp. by injection Hp as <-.
Defined.



(** X25.  The custom fields of a lead have one entry per field key of
    the form and no other: an answer stored under a key that no field of
    the form has is never sent.  The entry of a key is the visitor's
    answer when there is one, and otherwise [false] or the empty
    string. *)
Theorem custom_fields_are_the_form_fields
    (f : PublicLeadForm.Form) (k : string) :
  (is_Some (PublicLeadForm.valuesOf f !! k)
   ↔ k ∈ PublicLeadForm.fieldKey <$> PublicLeadForm.fields f)
  ∧ ∀ v, PublicLeadForm.valuesOf f !! k = Some v →
         match PublicLeadForm.readAnswer (PublicLeadForm.answers f) k with
         | Some a => v = a
         | None =>
             v = PublicLeadForm.VBoolean false
             ∨ v = PublicLeadForm.VString ""
         end.
Proof. rewrite valuesOf_fold. apply fold_valueStep. Qed.

(** * The profile editor: saving a draft

    [PublicProfileEditorPage.tsx]: the payload [handleSave] posts, and
    the draft it builds from the answer with [mapProfile] and
    [mergeProfileUi]. *)

Module Editor.

Inductive LinkIconKey := instagram | globe | twitter | link.

Module LinkItem.
Record t := mk {
  id : string;
  label : string;
  url : string;
  icon : LinkIconKey;
  color : string;
  visible : bool;
}.
End LinkItem.

Module ProfileDraft.
Record t := mk {
  id : string;
  name : string;
  handle : string;
  headline : string;
  links : list LinkItem.t;
  theme : ThemeName;
  active : bool;
  updatedAt : Timestamp;
}.
End ProfileDraft.













End Editor.

Section EditorRoundTrip.
Context (dateNow : nat → Timestamp) (randomUUID : nat → string).
Import Editor.





End EditorRoundTrip.


Module EditorScenario.
Import Editor.
End EditorScenario.

